(** * Speech-to-Speech Mini: the per-connection turn orchestrator

    A shallow embedding of [main.py] (the [/call] websocket handler and the
    helpers it uses) and of the session registry exercised by
    [test_concurrent_isolation.py], with the properties of the turn
    pipeline stated and proved over it.

    Conventions of the embedding.
    - A Python [str] is a [string] whose characters are code points below
      256; [bytes] and [bytearray] are [list byte].
    - The recogniser's confidence is an IEEE binary64 value ([float]), as in
      Python, and is only ever compared.
    - [time.time()] and [datetime.utcnow()] read the system clock; a reading
      is the rational number that the [float] (or the [datetime]) denotes.
      Arithmetic on readings is binary64 arithmetic: the exact result,
      rounded to the nearest binary64 value, ties to even ([Binary64]).
      The system clock counts nanoseconds in 64 bits, so a reading is
      below [2 ^ 34] seconds in magnitude: [datetime.utcfromtimestamp]
      accepts it, and no difference or product of the handler leaves the
      range of binary64.  Overflow is therefore not part of the model.
    - The outside world (clock, uuid generator, the three remote services)
      is an oracle indexed by the number of interactions made so far, so
      successive calls may answer differently.
    - The handler is written in a state-and-exception monad over the local
      variables of [websocket_call], the database and a log of the effects
      performed, in program order. *)

From Stdlib Require Import ZArith QArith Qround Qpower Lqa.
From Stdlib Require Import String Ascii List Lia.
From Stdlib Require Import PrimFloat FloatOps SpecFloat.
From Stdlib.Strings Require Import Byte.
From stdpp Require Import gmap strings.
Import ListNotations.

Set Warnings "-inexact-float,-abstract-large-number".
Local Open Scope string_scope.

(** ** Python strings *)

Module Str.

(** [str.isspace] on one character: TAB..CR, FS..US, space, NEL, NBSP. *)
Definition isspace (c : ascii) : bool :=
  let n := nat_of_ascii c in
  (((9 <=? n) && (n <=? 13)) || ((28 <=? n) && (n <=? 32))
   || (n =? 133) || (n =? 160))%nat.

(** Truth value of a [str]: non-empty. *)
Definition truthy (s : string) : bool :=
  match s with EmptyString => false | String _ _ => true end.

Fixpoint lstrip (s : string) : string :=
  match s with
  | EmptyString => EmptyString
  | String c s' => if isspace c then lstrip s' else s
  end.

Fixpoint rstrip (s : string) : string :=
  match s with
  | EmptyString => EmptyString
  | String c s' =>
      match rstrip s' with
      | EmptyString => if isspace c then EmptyString else String c EmptyString
      | r => String c r
      end
  end.

(** [s.strip()] *)
Definition strip (s : string) : string := rstrip (lstrip s).

(** [s.split()] with no separator: maximal runs of non-space characters.
    [word] is the run being read. *)
Fixpoint split_from (word : string) (s : string) : list string :=
  match s with
  | EmptyString => if truthy word then [word] else []
  | String c s' =>
      if isspace c
      then (if truthy word then word :: split_from EmptyString s'
            else split_from EmptyString s')
      else split_from (word ++ String c EmptyString) s'
  end.

Definition split (s : string) : list string := split_from EmptyString s.

(** [sep.join(words)] *)
Fixpoint join (sep : string) (words : list string) : string :=
  match words with
  | [] => EmptyString
  | [w] => w
  | w :: ws => w ++ sep ++ join sep ws
  end.

(** [reply = ""; for chunk in chunks: reply += chunk] *)
Definition concat (chunks : list string) : string :=
  fold_left (fun reply chunk => reply ++ chunk) chunks EmptyString.

End Str.

(** ** base64 (the standard alphabet, with padding) *)

Module Base64.

Definition alphabet : string :=
  "ABCDEFGHIJKLMNOPQRSTUVWXYZabcdefghijklmnopqrstuvwxyz0123456789+/".

Definition char_of_sextet (n : N) : ascii :=
  match String.get (N.to_nat n) alphabet with
  | Some c => c
  | None => "="%char
  end.

Definition sextet_of_char (c : ascii) : N :=
  let n := N_of_ascii c in
  if ((65 <=? n) && (n <=? 90))%N then n - 65
  else if ((97 <=? n) && (n <=? 122))%N then n - 71
  else if ((48 <=? n) && (n <=? 57))%N then n + 4
  else if (n =? 43)%N then 62
  else 63.

Definition byte_of_N (n : N) : byte :=
  match Byte.of_N (n mod 256) with
  | Some b => b
  | None => Byte.x00
  end.

(** [base64.b64encode(bs).decode()] *)
Fixpoint b64encode (bs : list byte) : string :=
  match bs with
  | [] => EmptyString
  | [a] =>
      let a := Byte.to_N a in
      String (char_of_sextet (a / 4))
        (String (char_of_sextet ((a mod 4) * 16)) "==")
  | [a; b] =>
      let a := Byte.to_N a in
      let b := Byte.to_N b in
      String (char_of_sextet (a / 4))
        (String (char_of_sextet ((a mod 4) * 16 + b / 16))
           (String (char_of_sextet ((b mod 16) * 4)) "="))
  | a :: b :: c :: rest =>
      let a := Byte.to_N a in
      let b := Byte.to_N b in
      let c := Byte.to_N c in
      String (char_of_sextet (a / 4))
        (String (char_of_sextet ((a mod 4) * 16 + b / 16))
           (String (char_of_sextet ((b mod 16) * 4 + c / 64))
              (String (char_of_sextet (c mod 64)) (b64encode rest))))
  end%N.

(** The decoder a client applies to one [tts_audio_chunk] payload. *)
Fixpoint b64decode (s : string) : list byte :=
  match s with
  | String c1 (String c2 (String c3 (String c4 rest))) =>
      let s1 := sextet_of_char c1 in
      let s2 := sextet_of_char c2 in
      let s3 := sextet_of_char c3 in
      let s4 := sextet_of_char c4 in
      let b1 := byte_of_N (s1 * 4 + s2 / 16) in
      let b2 := byte_of_N ((s2 mod 16) * 16 + s3 / 4) in
      let b3 := byte_of_N ((s3 mod 4) * 64 + s4) in
      if Ascii.eqb c3 "=" then [b1]
      else if Ascii.eqb c4 "=" then [b1; b2]
      else b1 :: b2 :: b3 :: b64decode rest
  | _ => []
  end%N.

End Base64.

(** ** [chunk_audio] *)

(** [range(start, stop, step)] for a positive step; [fuel] bounds the number
    of elements, and [stop - start] always suffices. *)
Fixpoint range_fuel (fuel start stop step : nat) : list nat :=
  match fuel with
  | O => []
  | S fuel' =>
      if (start <? stop)%nat
      then start :: range_fuel fuel' (start + step) stop step
      else []
  end.

Definition range (start stop step : nat) : list nat :=
  range_fuel (stop - start) start stop step.

(** [audio_bytes[i:j]] for [0 <= i <= j] *)
Definition slice {A} (l : list A) (i j : nat) : list A :=
  firstn (j - i) (skipn i l).

(** The windows yielded by [chunk_audio(audio_bytes, chunk_size)]. *)
Definition chunk_audio (audio_bytes : list byte) (chunk_size : nat)
  : list (list byte) :=
  map (fun i => slice audio_bytes i (i + chunk_size))
      (range 0 (length audio_bytes) chunk_size).

Definition default_chunk_size : nat := 8192.

(** ** Exceptions and results *)

Inductive exn : Type :=
| WebSocketDisconnect
| TypeError
| IntegrityError
| PendingRollbackError
| Exception (name : string).

Inductive result (A : Type) : Type :=
| Ok (a : A)
| Raise (e : exn).
Arguments Ok {A} a.
Arguments Raise {A} e.

Definition exn_is_disconnect (e : exn) : bool :=
  match e with WebSocketDisconnect => true | _ => false end.

(** ** Database rows *)

Module CallSession.
Record t : Type := mk {
  id : string;
  created_at : option Q;
  ended_at : option Q;
  status : string;
}.
End CallSession.

Module Turn.
Record t : Type := mk {
  id : option string;
  session_id : string;
  user_transcript_final : option string;
  assistant_text : option string;
  started_at : option Q;
  ended_at : option Q;
  time_to_first_partial : option Q;
  time_to_final_transcript : option Q;
  time_to_first_audio : option Q;
}.

Definition set_id (v : option string) (r : t) : t :=
  mk v (session_id r) (user_transcript_final r) (assistant_text r)
     (started_at r) (ended_at r) (time_to_first_partial r)
     (time_to_final_transcript r) (time_to_first_audio r).

Definition set_user_transcript_final (v : option string) (r : t) : t :=
  mk (id r) (session_id r) v (assistant_text r)
     (started_at r) (ended_at r) (time_to_first_partial r)
     (time_to_final_transcript r) (time_to_first_audio r).

Definition set_assistant_text (v : option string) (r : t) : t :=
  mk (id r) (session_id r) (user_transcript_final r) v
     (started_at r) (ended_at r) (time_to_first_partial r)
     (time_to_final_transcript r) (time_to_first_audio r).

Definition set_ended_at (v : option Q) (r : t) : t :=
  mk (id r) (session_id r) (user_transcript_final r) (assistant_text r)
     (started_at r) v (time_to_first_partial r)
     (time_to_final_transcript r) (time_to_first_audio r).

Definition set_time_to_final_transcript (v : option Q) (r : t) : t :=
  mk (id r) (session_id r) (user_transcript_final r) (assistant_text r)
     (started_at r) (ended_at r) (time_to_first_partial r)
     v (time_to_first_audio r).

Definition set_time_to_first_audio (v : option Q) (r : t) : t :=
  mk (id r) (session_id r) (user_transcript_final r) (assistant_text r)
     (started_at r) (ended_at r) (time_to_first_partial r)
     (time_to_final_transcript r) v.
End Turn.

(** The two tables, keyed by primary key, and the state of the ORM session:
    a flush that failed leaves it unusable until a rollback, which the
    handler never issues. *)
Record Database : Type := mkDatabase {
  call_sessions : gmap string CallSession.t;
  turns : gmap string Turn.t;
  pending_rollback : bool;
}.

(** ** The wire protocol *)

(** What [ws.receive()] hands to the loop.  [m_bytes] is the value under
    ["bytes"] ([None]: key absent or value [None]).  [m_text] is present
    when the key ["text"] is; decoding is the JSON library's work, so the
    frame carries what [json.loads(message["text"]).get("type")] evaluates
    to: an exception, or the value of the member ["type"] when it is a
    string. *)
Record message : Type := mkMessage {
  m_bytes : option (list byte);
  m_text : option (result (option string));
}.

Definition audio_frame (bs : list byte) : message :=
  mkMessage (Some bs) None.
Definition control (type : string) : message :=
  mkMessage None (Some (Ok (Some type))).

(** Outbound JSON events, one constructor per ["type"]. *)
Inductive event : Type :=
| session_id_event (session_id : string)
| trace_event (event : string) (turn_id : option string) (ts : Q)
| stt_partial (text : string)
| stt_final (text : string) (confidence : float) (latency_ms : Z)
| assistant_text (text : string) (is_final : bool) (full_text : option string)
| tts_audio_chunk (audio : string)
| tts_done
| error (message : string).

Inductive request : Type :=
| Transcribe (audio : list byte)
| Generate (prompt : string)
| Synthesize (text : string).

(** Effects, logged in program order. *)
Inductive effect : Type :=
| Send (e : event)          (* ws.send_json *)
| Call (r : request)        (* a request issued to a remote service *)
| Commit                    (* db.commit() that went through *)
| Sleep (seconds : Q)       (* asyncio.sleep *)
| LogInfo (msg : string)    (* logger.info *)
| Close.                    (* db.close() *)

(** ** The outside world *)

Record Env : Type := mkEnv {
  time_time : nat -> Q;
  uuid4 : nat -> string;
  (* hf_client.automatic_speech_recognition(...).get("text", "") *)
  automatic_speech_recognition : nat -> list byte -> result string;
  (* llm_client.chat.completions.create(...).choices[0].message.content *)
  chat_completion : nat -> string -> result string;
  (* gTTS(text, lang="en"), saved and read back *)
  gTTS : nat -> string -> result (list byte);
}.

(** ** State of one connection *)

Record State : Type := mkState {
  (* locals of websocket_call *)
  session_id : string;
  session : CallSession.t;
  audio_buffer : list byte;
  turn_start_time : option Q;
  current_turn_id : option string;
  (* the store *)
  db : Database;
  (* interactions with the world so far, and what was done *)
  ticks : nat;
  log : list effect;
}.

Definition set_session (v : CallSession.t) (s : State) : State :=
  mkState (session_id s) v (audio_buffer s) (turn_start_time s)
          (current_turn_id s) (db s) (ticks s) (log s).
Definition set_audio_buffer (v : list byte) (s : State) : State :=
  mkState (session_id s) (session s) v (turn_start_time s)
          (current_turn_id s) (db s) (ticks s) (log s).
Definition set_turn_start_time (v : option Q) (s : State) : State :=
  mkState (session_id s) (session s) (audio_buffer s) v
          (current_turn_id s) (db s) (ticks s) (log s).
Definition set_current_turn_id (v : option string) (s : State) : State :=
  mkState (session_id s) (session s) (audio_buffer s) (turn_start_time s)
          v (db s) (ticks s) (log s).
Definition set_db (v : Database) (s : State) : State :=
  mkState (session_id s) (session s) (audio_buffer s) (turn_start_time s)
          (current_turn_id s) v (ticks s) (log s).
Definition set_ticks (v : nat) (s : State) : State :=
  mkState (session_id s) (session s) (audio_buffer s) (turn_start_time s)
          (current_turn_id s) (db s) v (log s).
Definition set_log (v : list effect) (s : State) : State :=
  mkState (session_id s) (session s) (audio_buffer s) (turn_start_time s)
          (current_turn_id s) (db s) (ticks s) v.

(** ** The monad: state that survives an exception *)

Definition M (A : Type) : Type := State -> result A * State.

Definition ret {A} (a : A) : M A := fun s => (Ok a, s).
Definition raise {A} (e : exn) : M A := fun s => (Raise e, s).
Definition bind {A B} (m : M A) (k : A -> M B) : M B :=
  fun s => match m s with
           | (Ok a, s') => k a s'
           | (Raise e, s') => (Raise e, s')
           end.
Definition get : M State := fun s => (Ok s, s).
Definition modify (f : State -> State) : M unit := fun s => (Ok tt, f s).
Definition lift {A} (r : result A) : M A := fun s => (r, s).

Declare Scope monad_scope.
Delimit Scope monad_scope with monad.
Notation "x <- m ;; k" := (bind m (fun x => k))
  (at level 100, m at next level, right associativity) : monad_scope.
Notation "m ;; k" := (bind m (fun _ => k))
  (at level 100, right associativity) : monad_scope.
Local Open Scope monad_scope.

Definition emit (e : effect) : M unit :=
  modify (fun s => set_log (log s ++ [e]) s).

(** One more interaction with the world; returns its index. *)
Definition tick : M nat :=
  fun s => (Ok (ticks s), set_ticks (S (ticks s)) s).

(** ** The policy constants *)

Definition confidence_threshold : float := 0.3%float.
Definition fallback_reply : string :=
  "I'm sorry, I didn't catch that. Could you repeat?".

(** [not transcript or confidence < 0.3] *)
Definition silence_rule (transcript : string) (confidence : float) : bool :=
  negb (Str.truthy transcript) || PrimFloat.ltb confidence confidence_threshold.

(** [word + (" " if i < len(words) - 1 else "")] for [i, word] in
    [enumerate(words)] *)
Definition llm_chunks (words : list string) : list string :=
  imap (fun i word =>
          word ++ (if (Z.of_nat i <? Z.of_nat (length words) - 1)%Z
                   then " " else ""))
       words.

(** [round(x)]: to the nearest integer, ties to the even one. *)
Definition py_round (x : Q) : Z :=
  let f := Qfloor x in
  match Qcompare (x - inject_Z f)%Q (1 # 2) with
  | Lt => f
  | Gt => (f + 1)%Z
  | Eq => if Z.even f then f else (f + 1)%Z
  end.

(** ** binary64 arithmetic

    A finite [float] is the rational it denotes.  An operation gives the
    exact result rounded to the nearest number with a significand of 53
    bits (or a multiple of [2 ^ -1074], for the subnormal ones), ties to
    the even significand.  [agrees] compares an operation with the one of
    the machine. *)

Module Binary64.

Definition pow2 (e : Z) : Q := Qpower 2 e.

(** [floor (log2 x)], for [0 < x]. *)
Definition ilog2 (x : Q) : Z :=
  let k := (Z.log2 (Qnum x) - Z.log2 (Zpos (Qden x)))%Z in
  if Qle_bool (pow2 k) x then k else (k - 1)%Z.

(** The exponent of the unit in the last place of [x], for [0 < x]. *)
Definition ulp_exp (x : Q) : Z := Z.max (ilog2 x - 52) (-1074).

Definition round_pos (x : Q) : Q :=
  let e := ulp_exp x in
  Qred (inject_Z (py_round (x / pow2 e)) * pow2 e).

Definition round (x : Q) : Q :=
  match Qcompare x 0 with
  | Eq => 0%Q
  | Gt => round_pos x
  | Lt => (- round_pos (- x))%Q
  end.

(** [a - b] and [a * b] on two [float]s. *)
Definition sub (a b : Q) : Q := round (a - b).
Definition mul (a b : Q) : Q := round (a * b).

(** The rational a finite [float] of the machine denotes. *)
Definition of_float (f : float) : option Q :=
  match Prim2SF f with
  | S754_zero _ => Some 0%Q
  | S754_finite negative m e =>
      let v := (inject_Z (Zpos m) * pow2 e)%Q in
      Some (Qred (if negative then (- v)%Q else v))
  | S754_infinity _ | S754_nan => None
  end.

(** Whether [sub] and [mul] give what the machine gives on two [float]s. *)
Definition agrees (op : Q -> Q -> Q) (machine : float -> float -> float)
    (a b : float) : bool :=
  match of_float a, of_float b, of_float (machine a b) with
  | Some x, Some y, Some z => Qeq_bool (op x y) z
  | _, _, _ => false
  end.

End Binary64.

Arguments Binary64.round : simpl never.
Arguments Binary64.sub : simpl never.
Arguments Binary64.mul : simpl never.

(** [round(x * 1000)] on a [float]. *)
Definition milliseconds (x : Q) : Z := py_round (Binary64.mul x 1000).

Arguments milliseconds : simpl never.

(** [datetime.utcfromtimestamp(t)], as seconds since the epoch: [t] to the
    microsecond.  The whole part is split off exactly ([modf]); the
    fraction times [1e6] is a binary64 product, rounded half to even. *)
Definition datetime_of_timestamp (t : Q) : Q :=
  let whole := if Qle_bool 0 t then Qfloor t else Qceiling t in
  let us := py_round (Binary64.mul (t - inject_Z whole) 1000000) in
  Qred (inject_Z whole + inject_Z us / 1000000).

Arguments datetime_of_timestamp : simpl never.

Definition is_type (msg_type : option string) (name : string) : bool :=
  match msg_type with
  | Some t => String.eqb t name
  | None => false
  end.

Inductive ctl : Type := Continue | Break.

Inductive exit : Type :=
| Awaiting            (* suspended in ws.receive(), nothing to read yet *)
| Broke               (* left the loop through break *)
| Raised (e : exn).   (* an exception left the loop body *)

Inductive outcome : Type :=
| Suspended           (* the task is alive, waiting for a frame *)
| Returned            (* the handler returned *)
| Failed (e : exn).   (* the exception left the handler *)

Definition put_session (row : CallSession.t) (d : Database) : Database :=
  mkDatabase (<[CallSession.id row := row]> (call_sessions d)) (turns d)
             (pending_rollback d).
Definition put_turn (key : string) (row : Turn.t) (d : Database) : Database :=
  mkDatabase (call_sessions d) (<[key := row]> (turns d)) (pending_rollback d).
Definition flush_failed (d : Database) : Database :=
  mkDatabase (call_sessions d) (turns d) true.

Definition set_status (v : string) (r : CallSession.t) : CallSession.t :=
  CallSession.mk (CallSession.id r) (CallSession.created_at r)
                 (CallSession.ended_at r) v.
Definition set_session_ended_at (v : option Q) (r : CallSession.t)
  : CallSession.t :=
  CallSession.mk (CallSession.id r) (CallSession.created_at r) v
                 (CallSession.status r).

Section Handler.

Variable env : Env.

(** [time.time()], [datetime.utcnow()] *)
Definition now : M Q := n <- tick ;; ret (time_time env n).
(** [str(uuid.uuid4())] *)
Definition new_uuid : M string := n <- tick ;; ret (uuid4 env n).
Definition send_json (e : event) : M unit := emit (Send e).
Definition sleep (seconds : Q) : M unit := emit (Sleep seconds).

(** *** Persistence *)

Definition usable : M unit :=
  s <- get ;;
  if pending_rollback (db s) then raise PendingRollbackError else ret tt.

(** [db.add(session); db.commit()]: INSERT, [created_at] takes its default. *)
Definition insert_session : M unit :=
  usable ;;
  created <- now ;;
  s <- get ;;
  let row := CallSession.mk (CallSession.id (session s)) (Some created)
               (CallSession.ended_at (session s))
               (CallSession.status (session s)) in
  match call_sessions (db s) !! CallSession.id row with
  | Some _ =>
      modify (fun s => set_db (flush_failed (db s)) s) ;;
      raise IntegrityError
  | None =>
      modify (fun s => set_db (put_session row (db s)) (set_session row s)) ;;
      emit Commit
  end.

(** [db.commit()] with the session object dirty: UPDATE. *)
Definition commit_session : M unit :=
  usable ;;
  modify (fun s => set_db (put_session (session s) (db s)) s) ;;
  emit Commit.

(** [db.add(turn); db.commit()]: INSERT; a missing id takes its default, a
    primary key already present fails the flush. *)
Definition add_turn (turn : Turn.t) : M Turn.t :=
  usable ;;
  key <- match Turn.id turn with
         | Some i => ret i
         | None => new_uuid
         end ;;
  s <- get ;;
  match turns (db s) !! key with
  | Some _ =>
      modify (fun s => set_db (flush_failed (db s)) s) ;;
      raise IntegrityError
  | None =>
      let row := Turn.set_id (Some key) turn in
      modify (fun s => set_db (put_turn key row (db s)) s) ;;
      emit Commit ;;
      ret row
  end.

(** [db.commit()] with the turn object dirty: UPDATE. *)
Definition commit_turn (turn : Turn.t) : M unit :=
  usable ;;
  match Turn.id turn with
  | Some key => modify (fun s => set_db (put_turn key turn (db s)) s)
  | None => ret tt
  end ;;
  emit Commit.

(** *** The remote services *)

Definition transcribe_audio (audio_bytes : list byte) : M (string * float) :=
  n <- tick ;;
  emit (Call (Transcribe audio_bytes)) ;;
  raw <- lift (automatic_speech_recognition env n audio_bytes) ;;
  let text := Str.strip raw in
  let confidence := if Str.truthy text then 0.9%float else 0%float in
  ret (text, confidence).

(** The async generator: the request is made when the first chunk is asked
    for; the value is the list of chunks it yields.  The pause after each
    [yield] is taken when the consumer asks for the next chunk, see
    [stream_reply]. *)
Definition call_llm_streaming (prompt : string) : M (list string) :=
  n <- tick ;;
  emit (Call (Generate prompt)) ;;
  content <- lift (chat_completion env n prompt) ;;
  let text := Str.strip content in
  let words := Str.split text in
  ret (llm_chunks words).

Definition synthesize_speech (text : string) : M (list byte) :=
  n <- tick ;;
  emit (Call (Synthesize text)) ;;
  _ <- new_uuid ;;
  lift (gTTS env n text).

(** *** The stop pipeline *)

(** [datetime.utcfromtimestamp(turn_start_time)] *)
Definition utcfromtimestamp (t : option Q) : M Q :=
  match t with
  | Some t => ret (datetime_of_timestamp t)
  | None => raise TypeError
  end.

(** [time.time() - turn_start_time] *)
Definition since_turn_start : M Q :=
  t <- now ;;
  s <- get ;;
  match turn_start_time s with
  | Some t0 => ret (Binary64.sub t t0)
  | None => raise TypeError
  end.

(** The body of [async for chunk in call_llm_streaming(transcript)]. *)
Fixpoint stream_reply (chunks : list string) (reply : string) : M string :=
  match chunks with
  | [] => ret reply
  | chunk :: rest =>
      let reply := reply ++ chunk in
      send_json (assistant_text chunk false None) ;;
      sleep (1 # 50) ;;
      stream_reply rest reply
  end.

(** Lines 239-253, the branch in which generation runs. *)
Definition generate_reply (transcript : string) : M string :=
  chunks <- call_llm_streaming transcript ;;
  reply <- stream_reply chunks "" ;;
  send_json (assistant_text "" true (Some reply)) ;;
  ret reply.

(** Lines 235-253, the silence rule. *)
Definition choose_reply (transcript : string) (confidence : float)
  : M string :=
  if silence_rule transcript confidence
  then ret fallback_reply
  else generate_reply transcript.

(** The body of [for chunk in chunk_audio(audio_bytes)]. *)
Fixpoint stream_audio (chunks : list (list byte)) (first_chunk : bool)
    (turn : Turn.t) : M Turn.t :=
  match chunks with
  | [] => ret turn
  | chunk :: rest =>
      turn <- (if first_chunk
               then d <- since_turn_start ;;
                    let turn := Turn.set_time_to_first_audio (Some d) turn in
                    commit_turn turn ;;
                    ret turn
               else ret turn) ;;
      send_json (tts_audio_chunk (Base64.b64encode chunk)) ;;
      sleep (1 # 100) ;;
      stream_audio rest false turn
  end.

(** Lines 256-271, the TTS stage. *)
Definition speak (reply : string) (turn : Turn.t) : M Turn.t :=
  audio_bytes <- synthesize_speech reply ;;
  turn <- stream_audio (chunk_audio audio_bytes default_chunk_size) true turn ;;
  send_json tts_done ;;
  ret turn.

(** Lines 204-213: the Turn row is created and the buffer frozen. *)
Definition open_turn : M (Turn.t * list byte) :=
  s <- get ;;
  started_at <- utcfromtimestamp (turn_start_time s) ;;
  turn <- add_turn (Turn.mk (current_turn_id s) (session_id s) None None
                            (Some started_at) None None None None) ;;
  let raw_audio := audio_buffer s in
  modify (set_audio_buffer []) ;;
  ret (turn, raw_audio).

(** Lines 216-232, the STT stage. *)
Definition recognise (raw_audio : list byte) (turn : Turn.t)
  : M (Turn.t * (string * float)) :=
  send_json (stt_partial "...") ;;
  stt_result <- transcribe_audio raw_audio ;;
  let transcript := fst stt_result in
  let confidence := snd stt_result in
  time_to_final <- since_turn_start ;;
  let turn := Turn.set_time_to_final_transcript (Some time_to_final) turn in
  let turn := Turn.set_user_transcript_final (Some transcript) turn in
  commit_turn turn ;;
  send_json (stt_final transcript confidence (milliseconds time_to_final)) ;;
  ret (turn, (transcript, confidence)).

(** Lines 273-275. *)
Definition close_turn (reply : string) (turn : Turn.t) : M unit :=
  let turn := Turn.set_assistant_text (Some reply) turn in
  ended <- now ;;
  let turn := Turn.set_ended_at (Some ended) turn in
  commit_turn turn.

(** Lines 204-275, a stop with audio in the buffer. *)
Definition process_turn : M unit :=
  opened <- open_turn ;;
  stt <- recognise (snd opened) (fst opened) ;;
  reply <- choose_reply (fst (snd stt)) (snd (snd stt)) ;;
  turn <- speak reply (fst stt) ;;
  close_turn reply turn.

(** *** The message loop *)

Definition on_start : M unit :=
  modify (set_audio_buffer []) ;;
  t <- now ;;
  modify (set_turn_start_time (Some t)) ;;
  u <- new_uuid ;;
  modify (set_current_turn_id (Some u)) ;;
  modify (fun s => set_session (set_status "active" (session s)) s) ;;
  commit_session ;;
  send_json (trace_event "turn_started" (Some u) t).

Definition on_stop : M ctl :=
  s <- get ;;
  match audio_buffer s with
  | [] => send_json (error "No audio received") ;; ret Continue
  | _ :: _ => process_turn ;; ret Continue
  end.

(** One iteration of [while True], after [ws.receive()] returned [m]. *)
Definition handle (m : message) : M ctl :=
  match m_bytes m with
  | Some (b :: bs) =>
      modify (fun s => set_audio_buffer (audio_buffer s ++ b :: bs) s) ;;
      ret Continue
  | _ =>
      match m_text m with
      | Some data =>
          msg_type <- lift data ;;
          if is_type msg_type "start" then on_start ;; ret Continue
          else if is_type msg_type "stop" then on_stop
          else if is_type msg_type "end_call" then ret Break
          else ret Continue
      | None => ret Continue
      end
  end.

(** The loop over the frames that arrive; an element [Raise e] is a
    [ws.receive()] that raises. *)
Fixpoint message_loop (inbox : list (result message)) (s : State)
  : exit * State :=
  match inbox with
  | [] => (Awaiting, s)
  | received :: rest =>
      match (m <- lift received ;; handle m) s with
      | (Ok Continue, s') => message_loop rest s'
      | (Ok Break, s') => (Broke, s')
      | (Raise e, s') => (Raised e, s')
      end
  end.

(** Lines 154-167. *)
Definition accept_call : M unit :=
  sid <- new_uuid ;;
  modify (fun s =>
            mkState sid (CallSession.mk sid None None "connected")
                    (audio_buffer s) (turn_start_time s) (current_turn_id s)
                    (db s) (ticks s) (log s)) ;;
  insert_session ;;
  send_json (session_id_event sid) ;;
  modify (set_audio_buffer []) ;;
  modify (set_turn_start_time None) ;;
  modify (set_current_turn_id None).

(** The [finally] clause. *)
Definition cleanup : M unit :=
  modify (fun s => set_session (set_status "ended" (session s)) s) ;;
  t <- now ;;
  modify (fun s => set_session (set_session_ended_at (Some t) (session s)) s) ;;
  commit_session ;;
  emit Close.

(** A fresh ORM session over the stored tables. *)
Definition boot (stored : Database) : State :=
  mkState "" (CallSession.mk "" None None "") [] None None
          (mkDatabase (call_sessions stored) (turns stored) false) 0 [].

Definition finish (on_success : outcome) (r : result unit * State)
  : outcome * State :=
  match r with
  | (Ok _, s) => (on_success, s)
  | (Raise e, s) => (Failed e, s)
  end.

(** The handler on the frames [inbox], with try/except/finally. *)
Definition websocket_call (stored : Database) (inbox : list (result message))
  : outcome * State :=
  match accept_call (boot stored) with
  | (Raise e, s) => (Failed e, s)
  | (Ok _, s) =>
      match message_loop inbox s with
      | (Awaiting, s1) => (Suspended, s1)
      | (Broke, s1) => finish Returned (cleanup s1)
      | (Raised e, s1) =>
          if exn_is_disconnect e
          then finish Returned
                 ((emit (LogInfo "Client disconnected") ;; cleanup) s1)
          else finish (Failed e) (cleanup s1)
      end
  end.

End Handler.

(** The events sent to the client, oldest first. *)
Definition sent (l : list effect) : list event :=
  omap (fun e => match e with Send ev => Some ev | _ => None end) l.

(** The requests made to the remote services, oldest first. *)
Definition requests (l : list effect) : list request :=
  omap (fun e => match e with Call r => Some r | _ => None end) l.

(** ** The session registry *)

Module Registry.
Section Registry.

Context {Handle : Type}.

(** Modelled from the spec: the registry [active_sessions] that the tests
    import from [main] and that [main.py] does not define.  Registration
    stores a fresh mapping and fails ([None]) on an identifier already
    present, leaving the registry as it was. *)
Definition register (id : string) (handle : Handle)
    (r : gmap string Handle) : option (gmap string Handle) :=
  match r !! id with
  | Some _ => None
  | None => Some (<[id := handle]> r)
  end.

(** Modelled from the spec: lookup in the missing registry returns the
    handle or "not found" ([None]). *)
Definition lookup (id : string) (r : gmap string Handle) : option Handle :=
  r !! id.

(** Modelled from the spec: removal from the missing registry, idempotent. *)
Definition unregister (id : string) (r : gmap string Handle)
  : gmap string Handle :=
  delete id r.

End Registry.
End Registry.

(** ** Vocabulary of the statements *)

(** The least number of windows of [k] bytes that cover [n] bytes. *)
Definition ceil_div (n k : nat) : nat := (n + k - 1) / k.

(** What streaming the reply chunks does, in order. *)
Definition token_effects (chunks : list string) : list effect :=
  flat_map (fun chunk => [Send (assistant_text chunk false None);
                          Sleep (1 # 50)]) chunks.

(** What streaming the audio windows does after the first-chunk
    bookkeeping, in order. *)
Definition audio_effects (chunks : list (list byte)) : list effect :=
  flat_map (fun chunk => [Send (tts_audio_chunk (Base64.b64encode chunk));
                          Sleep (1 # 100)]) chunks.

(** The row a stop creates. *)
Definition fresh_turn (key sid : string) (t0 : Q) : Turn.t :=
  Turn.mk (Some key) sid None None (Some t0) None None None None.

(** A text of white space only, the empty text included. *)
Fixpoint whitespace_only (s : string) : bool :=
  match s with
  | EmptyString => true
  | String c s' => Str.isspace c && whitespace_only s'
  end.

(** What [transcribe_audio] makes of the recogniser's text. *)
Definition heard (raw : string) : string * float :=
  (Str.strip raw, if Str.truthy (Str.strip raw) then 0.9%float else 0%float).

(** The key under which a stop in state [s] inserts its row, and the
    interactions made once the row is in. *)
Definition turn_key (env : Env) (s : State) : string :=
  match current_turn_id s with
  | Some key => key
  | None => uuid4 env (ticks s)
  end.
Definition ticks_opened (s : State) : nat :=
  match current_turn_id s with
  | Some _ => ticks s
  | None => S (ticks s)
  end.

Definition opened (env : Env) (s : State) (t0 : Q) : State :=
  set_log (log s ++ [Commit])
    (set_audio_buffer []
       (set_db (put_turn (turn_key env s)
                         (fresh_turn (turn_key env s) (session_id s)
                                     (datetime_of_timestamp t0))
                         (db s))
               (set_ticks (ticks_opened s) s))).

Definition asked (r : request) (n : nat) (s : State) : State :=
  set_log (log s ++ [Call r]) (set_ticks (n + ticks s) s).

Definition recognised (env : Env) (raw : string) (t0 : Q) (turn : Turn.t)
    (s : State) : Turn.t :=
  Turn.set_user_transcript_final (Some (fst (heard raw)))
    (Turn.set_time_to_final_transcript
       (Some (Binary64.sub (time_time env (S (ticks s))) t0)) turn).


(** The reply of a turn: [None] when the silence rule applied, else the
    chunks streamed from the generated text. *)
Definition reply_of (generated : option (list string)) : string :=
  match generated with
  | None => fallback_reply
  | Some chunks => Str.concat chunks
  end.

Definition reply_effects (transcript : string)
    (generated : option (list string)) : list effect :=
  match generated with
  | None => []
  | Some chunks =>
      Call (Generate transcript) :: token_effects chunks ++
      [Send (assistant_text "" true (Some (Str.concat chunks)))]
  end.

Definition speech_effects (reply : string) (chunks : list (list byte))
  : list effect :=
  Call (Synthesize reply) ::
  match chunks with [] => [] | _ :: _ => [Commit] end ++
  audio_effects chunks ++ [Send tts_done].

(** Everything a stop with audio does when it goes through. *)
Definition turn_effects (audio : list byte) (transcript : string)
    (confidence : float) (latency_ms : Z) (generated : option (list string))
    (chunks : list (list byte)) : list effect :=
  [Commit; Send (stt_partial "..."); Call (Transcribe audio); Commit;
   Send (stt_final transcript confidence latency_ms)] ++
  reply_effects transcript generated ++
  speech_effects (reply_of generated) chunks ++ [Commit].

(** The events of a turn, as the client sees them. *)
Definition turn_events (transcript : string) (confidence : float)
    (latency_ms : Z) (generated : option (list string))
    (chunks : list (list byte)) : list event :=
  [stt_partial "..."; stt_final transcript confidence latency_ms] ++
  match generated with
  | None => []
  | Some tokens =>
      map (fun token => assistant_text token false None) tokens ++
      [assistant_text "" true (Some (Str.concat tokens))]
  end ++
  map (fun chunk => tts_audio_chunk (Base64.b64encode chunk)) chunks ++
  [tts_done].

(** The row of a turn that went through. *)
Definition final_turn (key sid : string) (t0 : Q) (transcript reply : string)
    (time_to_final : Q) (time_to_first_audio : option Q) (ended : Q)
  : Turn.t :=
  Turn.mk (Some key) sid (Some transcript) (Some reply) (Some t0)
          (Some ended) None (Some time_to_final) time_to_first_audio.

(** What a stop leaves alone. *)
Definition same_call (s s' : State) : Prop :=
  turn_start_time s' = turn_start_time s /\
  current_turn_id s' = current_turn_id s /\
  session s' = session s /\
  session_id s' = session_id s /\
  call_sessions (db s') = call_sessions (db s).

(** The latency fields of a row written by a stop that began in state [s]:
    each is a clock reading made after [s], less the turn start, in
    binary64. *)
Definition written (env : Env) (s : State) (row : Turn.t) : Prop :=
  Turn.time_to_first_partial row = None /\
  exists t0,
    turn_start_time s = Some t0 /\
    match Turn.time_to_final_transcript row, Turn.time_to_first_audio row with
    | None, None => True
    | Some a, None =>
        exists j, ticks s <= j /\ a = Binary64.sub (time_time env j) t0
    | Some a, Some b =>
        exists j k, ticks s <= j /\ j <= k /\
                    a = Binary64.sub (time_time env j) t0 /\
                    b = Binary64.sub (time_time env k) t0
    | None, Some _ => False
    end.

(** Frames by what the loop does with them. *)
Definition falsy_bytes (m : message) : bool :=
  match m_bytes m with
  | Some (_ :: _) => false
  | _ => true
  end.

(** A control frame of the given type: no audio in it, and a JSON text
    whose member ["type"] is [name]. *)
Definition has_type (m : message) (name : string) : bool :=
  falsy_bytes m &&
  match m_text m with
  | Some (Ok msg_type) => is_type msg_type name
  | _ => false
  end.

Definition starts (received : result message) : bool :=
  match received with
  | Ok m => has_type m "start"
  | Raise _ => false
  end.

(** The state a start leaves when its commit goes through. *)
Definition started (env : Env) (s : State) : State :=
  let t := time_time env (ticks s) in
  let u := uuid4 env (S (ticks s)) in
  let row := set_status "active" (session s) in
  set_log (log s ++ [Commit; Send (trace_event "turn_started" (Some u) t)])
    (set_db (put_session row (db s))
       (set_session row
          (set_current_turn_id (Some u)
             (set_turn_start_time (Some t)
                (set_audio_buffer [] (set_ticks (2 + ticks s) s)))))).

(** The shape of the latency fields of a row written by the handler:
    binary64 differences of clock readings taken in program order. *)
Definition timed (env : Env) (row : Turn.t) : Prop :=
  Turn.time_to_first_partial row = None /\
  forall a b,
    Turn.time_to_final_transcript row = Some a ->
    Turn.time_to_first_audio row = Some b ->
    exists i j k,
      i < j /\ j <= k /\
      a = Binary64.sub (time_time env j) (time_time env i) /\
      b = Binary64.sub (time_time env k) (time_time env i).

(** Invariant of a connection over the tables [stored] it started from:
    the turn start is a past clock reading, and every row not there at the
    start has the shape [timed]. *)
Definition connection_inv (env : Env) (stored : Database) (s : State)
  : Prop :=
  (forall t0, turn_start_time s = Some t0 ->
              exists i, i < ticks s /\ t0 = time_time env i) /\
  (forall key row,
     turns (db s) !! key = Some row ->
     turns stored !! key = Some row \/ timed env row).

(** One of the three remote services raises [e] during the turn that a
    stop begins in state [s] (whose turn id is set, so that the first
    request is interaction number [ticks s]). *)
Inductive collaborator_raises (env : Env) (s : State) (e : exn) : Prop :=
| stt_raises :
    automatic_speech_recognition env (ticks s) (audio_buffer s) = Raise e ->
    collaborator_raises env s e
| llm_raises (raw : string) :
    automatic_speech_recognition env (ticks s) (audio_buffer s) = Ok raw ->
    silence_rule (fst (heard raw)) (snd (heard raw)) = false ->
    chat_completion env (2 + ticks s) (fst (heard raw)) = Raise e ->
    collaborator_raises env s e
| tts_raises (raw : string) (generated : option (list string)) :
    automatic_speech_recognition env (ticks s) (audio_buffer s) = Ok raw ->
    match generated with
    | None =>
        silence_rule (fst (heard raw)) (snd (heard raw)) = true /\
        gTTS env (2 + ticks s) fallback_reply = Raise e
    | Some tokens =>
        silence_rule (fst (heard raw)) (snd (heard raw)) = false /\
        (exists content,
           chat_completion env (2 + ticks s) (fst (heard raw)) = Ok content /\
           tokens = llm_chunks (Str.split (Str.strip content))) /\
        gTTS env (3 + ticks s) (Str.concat tokens) = Raise e
    end ->
    collaborator_raises env s e.

(** ** Sample worlds and calls *)

Module Demo.

(** The clock advances by one second per reading. *)
Definition clock (n : nat) : Q := inject_Z (Z.of_nat n).

Fixpoint tally (n : nat) : string :=
  match n with
  | O => "#"
  | S n' => String "i" (tally n')
  end.

Definition world (stt : result string) : Env :=
  mkEnv clock tally
        (fun _ _ => stt)
        (fun _ prompt => Ok ("You  said: " ++ prompt ++ " ")%string)
        (fun _ _ => Ok [x49; x44; x33; x04]).

(** Speech is recognised. *)
Definition env_heard : Env := world (Ok " hello world ").
(** Only silence is recognised. *)
Definition env_silence : Env := world (Ok "   ").
(** The recogniser is down. *)
Definition env_stt_down : Env := world (Raise (Exception "stt unavailable")).

Definition no_rows : Database := mkDatabase ∅ ∅ false.

Definition start : result message := Ok (control "start").
Definition stop : result message := Ok (control "stop").
Definition audio : result message := Ok (audio_frame [x01; x02]).

(** One turn, the call left open. *)
Definition one_turn : list (result message) := [start; audio; stop].
(** Two turns. *)
Definition two_turns : list (result message) :=
  [start; audio; stop; start; audio; stop].

(** The state in which the call is accepted, the one in which the stop of
    [one_turn] is received (they are the same in the three worlds), and the
    one the turn leaves. *)
Definition accepted : State :=
  let row := CallSession.mk "#" (Some 1%Q) None "connected" in
  mkState "#" row [] None None
          (mkDatabase (<["#" := row]> ∅) ∅ false) 2
          [Commit; Send (session_id_event "#")].
Definition recording : State :=
  let row := CallSession.mk "#" (Some 1%Q) None "active" in
  mkState "#" row [x01; x02] (Some 2%Q) (Some "iii#")
          (mkDatabase (<["#" := row]> ∅) ∅ false) 4
          [Commit; Send (session_id_event "#"); Commit;
           Send (trace_event "turn_started" (Some "iii#") 2)].
Definition after_turn (env : Env) : State :=
  snd (process_turn env recording).

(** The row of the turn of [one_turn] in the world [env_heard]. *)
Definition heard_row : Turn.t :=
  final_turn "iii#" "#" 2 "hello world" "You said: hello world" 3 (Some 7%Q)
             10.

End Demo.

(** ** Queries on the store *)

(** [db.query(Turn).filter(Turn.session_id == sid).all()], as the set of
    rows it returns, by key. *)
Definition turns_by_session (sid : string) (d : Database)
  : gmap string Turn.t :=
  filter (fun entry => Turn.session_id (snd entry) = sid) (turns d).

(** The frames of a client that sends the given pieces of audio. *)
Definition audio_frames (pieces : list (list byte)) : list (result message) :=
  map (fun piece => Ok (audio_frame piece)) pieces.

(** Python's [bytes] concatenation of the pieces. *)
Definition join_bytes (pieces : list (list byte)) : list byte :=
  concat pieces.

(** ** How a call goes on and how it ends *)

(** The state the [finally] clause leaves when its commit goes through. *)
Definition ended (env : Env) (s : State) : State :=
  let row := set_session_ended_at (Some (time_time env (ticks s)))
               (set_status "ended" (session s)) in
  set_log (log s ++ [Commit; Close])
    (set_db (put_session row (db s))
       (set_session row (set_ticks (S (ticks s)) s))).

(** The [except WebSocketDisconnect] clause. *)
Definition disconnected (s : State) : State :=
  set_log (log s ++ [LogInfo "Client disconnected"]) s.

(** What the handler makes of the way the loop was left. *)
Definition after_loop (env : Env) (left : exit * State) : outcome * State :=
  match left with
  | (Awaiting, s) => (Suspended, s)
  | (Broke, s) => finish Returned (cleanup env s)
  | (Raised e, s) =>
      if exn_is_disconnect e
      then finish Returned (cleanup env (disconnected s))
      else finish (Failed e) (cleanup env s)
  end.

(** A frame the loop does nothing with: no audio in it, and no text, or a
    JSON text whose member ["type"] is none of the three the loop knows. *)
Definition ignored (m : message) : bool :=
  falsy_bytes m &&
  match m_text m with
  | None => true
  | Some (Ok msg_type) =>
      negb (is_type msg_type "start") && negb (is_type msg_type "stop") &&
      negb (is_type msg_type "end_call")
  | Some (Raise _) => false
  end.

(** A row with everything a turn that went through records. *)
Definition complete (row : Turn.t) : bool :=
  match Turn.user_transcript_final row, Turn.assistant_text row,
        Turn.ended_at row, Turn.time_to_final_transcript row with
  | Some _, Some _, Some _, Some _ => true
  | _, _, _, _ => false
  end.

(** ** The events of a call *)

(** The events of the stop pipeline. *)
Definition turn_event (e : event) : bool :=
  match e with
  | stt_partial _ | stt_final _ _ _ | assistant_text _ _ _
  | tts_audio_chunk _ | tts_done => true
  | session_id_event _ | trace_event _ _ _ | error _ => false
  end.

(** The events the message loop sends: those of a turn, the trace of a
    start, and the rejection of a stop without audio. *)
Definition loop_event (e : event) : bool :=
  match e with
  | session_id_event _ => false
  | trace_event name (Some _) _ => String.eqb name "turn_started"
  | trace_event _ None _ => false
  | error msg => String.eqb msg "No audio received"
  | _ => true
  end.

(** The state of a call that has just been accepted, over the tables
    [stored]. *)
Definition connected (env : Env) (stored : Database) : State :=
  let sid := uuid4 env 0 in
  let row := CallSession.mk sid (Some (time_time env 1)) None "connected" in
  mkState sid row [] None None
          (mkDatabase (<[sid := row]> (call_sessions stored)) (turns stored)
                      false)
          2 [Commit; Send (session_id_event sid)].

(** ** Two sessions at once *)

(** [test_concurrent_sessions_independent_buffers]: two coroutines, each
    extending its own [bytearray] and yielding to the event loop after
    every piece.  A step is what one coroutine does between two
    suspensions. *)
Inductive step : Type :=
| ExtendA (piece : list byte)    (* buffer_a.extend(piece) *)
| ExtendB (piece : list byte).   (* buffer_b.extend(piece) *)

(** The two buffers, [buffer_a] first. *)
Definition run_step (buffers : list byte * list byte) (x : step)
  : list byte * list byte :=
  match x with
  | ExtendA piece => ((fst buffers ++ piece)%list, snd buffers)
  | ExtendB piece => (fst buffers, (snd buffers ++ piece)%list)
  end.

Definition run_steps (schedule : list step)
    (buffers : list byte * list byte) : list byte * list byte :=
  fold_left run_step schedule buffers.

(** The schedules [asyncio.gather] can follow: the steps of the two
    coroutines, each in its own order, interleaved in any way. *)
Inductive interleaved {A : Type} : list A -> list A -> list A -> Prop :=
| interleaved_nil : interleaved [] [] []
| interleaved_left (x : A) (l r m : list A) :
    interleaved l r m -> interleaved (x :: l) r (x :: m)
| interleaved_right (x : A) (l r m : list A) :
    interleaved l r m -> interleaved l (x :: r) (x :: m).

(** [bytes([i])] for the [i] of [range(first, first + count)] *)
Definition byte_pieces (first count : nat) : list (list byte) :=
  map (fun i => [Base64.byte_of_N (N.of_nat i)]) (seq first count).

Definition session_a : list step := map ExtendA (byte_pieces 0 5).
Definition session_b : list step := map ExtendB (byte_pieces 10 5).

(** ** More sample worlds *)

Module Sample.

(** Speech is recognised, and the completion is blank. *)
Definition env_blank : Env :=
  mkEnv Demo.clock Demo.tally
        (fun _ _ => Ok "hi")
        (fun _ _ => Ok "  ")
        (fun _ _ => Ok []).


(** The binary64 value of [1762200000.1234567]. *)
Definition start_reading : Q := 7391202509317815 # 4194304.

(** The binary64 value of [0.0005]. *)
Definition half_millisecond : Q := 1152921504606847 # 2305843009213693952.

(** A text frame that is not JSON. *)
Definition garbled : message :=
  mkMessage None (Some (Raise (Exception "JSONDecodeError"))).

(** The row a turn leaves when the recogniser is down. *)
Definition abandoned_row : Turn.t := fresh_turn "iii#" "#" 2.

End Sample.

(** ** Words *)

(** No character of [s] is white space. *)
Fixpoint no_space (s : string) : bool :=
  match s with
  | EmptyString => true
  | String c s' => negb (Str.isspace c) && no_space s'
  end.

(** What [str.split()] yields: non-empty runs without white space. *)
Definition is_word (w : string) : bool := Str.truthy w && no_space w.

(** ** A client that keeps to the protocol *)

(** The remote services answer every request. *)
Definition services_up (env : Env) : Prop :=
  (forall n audio,
     exists raw, automatic_speech_recognition env n audio = Ok raw) /\
  (forall n prompt, exists content, chat_completion env n prompt = Ok content) /\
  (forall n text, exists audio, gTTS env n text = Ok audio).

(** [uuid4] never repeats itself, and never returns an id that is already
    in the store. *)
Definition fresh_ids (env : Env) (stored : Database) : Prop :=
  (forall i j, uuid4 env i = uuid4 env j -> i = j) /\
  (forall j, turns stored !! uuid4 env j = None) /\
  call_sessions stored !! uuid4 env 0 = None.

(** The frames of one utterance: a start, the audio in pieces, a stop. *)
Definition turn_frames (pieces : list (list byte)) : list (result message) :=
  Ok (control "start") :: audio_frames pieces ++ [Ok (control "stop")].

(** How many turns were answered to the end, and what was transcribed. *)
Definition answers (events : list event) : nat :=
  length (List.filter (fun e => match e with tts_done => true | _ => false end)
                      events).
Definition transcribed (asked : list request) : list (list byte) :=
  omap (fun r => match r with Transcribe audio => Some audio | _ => None end)
       asked.

(** * Properties *)

(** ** Strings *)

Lemma string_app_cons (c : ascii) (s t : string) :
  String c s ++ t = String c (s ++ t).
Proof. reflexivity. Qed.

Lemma string_app_nil_r (s : string) : s ++ "" = s.
Proof.
  induction s as [|c s IH]; [reflexivity|].
  rewrite string_app_cons, IH. reflexivity.
Qed.

Lemma string_app_assoc (a b c : string) : (a ++ b) ++ c = a ++ (b ++ c).
Proof.
  induction a as [|x a IH]; [reflexivity|].
  rewrite !string_app_cons, IH. reflexivity.
Qed.

Lemma split_from_lstrip (s : string) :
  Str.split_from "" (Str.lstrip s) = Str.split_from "" s.
Proof.
  induction s as [|c s IH]; simpl; [reflexivity|].
  destruct (Str.isspace c) eqn:E; simpl; [exact IH|].
  rewrite E. reflexivity.
Qed.

Lemma split_from_rstrip (s : string) :
  forall word, Str.split_from word (Str.rstrip s) = Str.split_from word s.
Proof.
  induction s as [|c s IH]; intros word; simpl; [reflexivity|].
  destruct (Str.rstrip s) as [|c' r] eqn:R.
  - destruct (Str.isspace c) eqn:E; simpl.
    + rewrite <- (IH ""). simpl. destruct (Str.truthy word); reflexivity.
    + rewrite E. rewrite <- IH. reflexivity.
  - cbn [Str.split_from]. destruct (Str.isspace c).
    + rewrite <- (IH ""). reflexivity.
    + rewrite <- IH. reflexivity.
Qed.

(** Trimming does not change the words of a text. *)
Lemma split_strip (s : string) : Str.split (Str.strip s) = Str.split s.
Proof.
  unfold Str.split, Str.strip.
  rewrite split_from_rstrip. apply split_from_lstrip.
Qed.

Lemma lstrip_cases (s : string) :
  (whitespace_only s = true /\ Str.lstrip s = "") \/
  (whitespace_only s = false /\
   exists c r, Str.lstrip s = String c r /\ Str.isspace c = false).
Proof.
  induction s as [|c s IH]; simpl; [left; split; reflexivity|].
  destruct (Str.isspace c) eqn:E; simpl.
  - exact IH.
  - right. split; [reflexivity|]. exists c, s. split; [reflexivity|exact E].
Qed.

Lemma rstrip_cons (c : ascii) (s : string) :
  Str.isspace c = false -> Str.rstrip (String c s) <> "".
Proof.
  intros E. simpl. rewrite E. destruct (Str.rstrip s); discriminate.
Qed.

(** Trimming leaves nothing exactly when the text is white space only. *)
Lemma strip_empty (s : string) :
  Str.strip s = "" <-> whitespace_only s = true.
Proof.
  unfold Str.strip.
  destruct (lstrip_cases s) as [[W ->]|[W (c & r & -> & E)]]; rewrite W.
  - split; reflexivity.
  - split; [|discriminate]. intros H. destruct (rstrip_cons c r E H).
Qed.

Lemma truthy_empty (s : string) : Str.truthy s = false <-> s = "".
Proof. destruct s; simpl; split; congruence. Qed.

Lemma fold_concat (chunks : list string) (acc : string) :
  fold_left (fun reply chunk => reply ++ chunk) chunks acc
  = acc ++ Str.concat chunks.
Proof.
  unfold Str.concat. revert acc.
  induction chunks as [|c cs IH]; intros acc; simpl.
  - symmetry. apply string_app_nil_r.
  - change ("" ++ c) with c.
    rewrite IH. rewrite (IH c). apply string_app_assoc.
Qed.

Lemma concat_cons (c : string) (cs : list string) :
  Str.concat (c :: cs) = c ++ Str.concat cs.
Proof. unfold Str.concat at 1. simpl. apply fold_concat. Qed.

(** The chunks from position [k] of a reply of [n] words. *)
Lemma imap_chunks (words : list string) (k n : nat) :
  k + length words = n ->
  Str.concat
    (imap (fun i word =>
             word ++ (if (Z.of_nat (k + i) <? Z.of_nat n - 1)%Z
                      then " " else "")) words)
  = Str.join " " words.
Proof.
  revert k. induction words as [|w ws IH]; intros k Hn; [reflexivity|].
  cbn [imap]. rewrite concat_cons.
  rewrite (imap_ext _ (fun i word =>
     word ++ (if (Z.of_nat (S k + i) <? Z.of_nat n - 1)%Z then " " else ""))).
  2:{ intros i x _. simpl. replace (k + S i)%nat with (S (k + i)) by lia.
      reflexivity. }
  rewrite IH by (simpl in Hn; lia).
  destruct ws as [|w' ws'].
  - simpl in *. replace (Z.of_nat (k + 0) <? Z.of_nat n - 1)%Z with false.
    + rewrite !string_app_nil_r. reflexivity.
    + symmetry. apply Z.ltb_ge. lia.
  - replace (Z.of_nat (k + 0) <? Z.of_nat n - 1)%Z with true.
    + cbn [Str.join]. rewrite string_app_assoc. reflexivity.
    + symmetry. apply Z.ltb_lt. simpl in Hn. lia.
Qed.

(** The streamed chunks concatenate to the words joined by one space. *)
Lemma concat_llm_chunks (words : list string) :
  Str.concat (llm_chunks words) = Str.join " " words.
Proof. unfold llm_chunks. apply (imap_chunks words 0). reflexivity. Qed.

Lemma length_llm_chunks (words : list string) :
  length (llm_chunks words) = length words.
Proof. unfold llm_chunks. apply length_imap. Qed.

Lemma lookup_llm_chunks (words : list string) (i : nat) (w : string) :
  words !! i = Some w ->
  llm_chunks words !! i
  = Some (w ++ (if (S i <? length words)%nat then " " else "")).
Proof.
  intros H. unfold llm_chunks. rewrite list_lookup_imap, H. simpl.
  replace (Z.of_nat i <? Z.of_nat (length words) - 1)%Z
    with (S i <? length words)%nat; [reflexivity|].
  destruct (S i <? length words)%nat eqn:E; symmetry.
  - apply Nat.ltb_lt in E. apply Z.ltb_lt. lia.
  - apply Nat.ltb_ge in E. apply Z.ltb_ge. lia.
Qed.


(** ** Chunking *)

Lemma ceil_div_least (n k m : nat) :
  0 < k -> (n <= m * k <-> ceil_div n k <= m).
Proof.
  intros Hk. unfold ceil_div. split; intros H.
  - apply Nat.lt_succ_r, Nat.Div0.div_lt_upper_bound. nia.
  - pose proof (Nat.div_mod_eq (n + k - 1) k) as E.
    pose proof (Nat.mod_upper_bound (n + k - 1) k ltac:(lia)) as U.
    nia.
Qed.

Lemma ceil_div_step (d k : nat) :
  0 < k -> 0 < d -> ceil_div d k = S (ceil_div (d - k) k).
Proof.
  intros Hk Hd. unfold ceil_div.
  destruct (Nat.le_gt_cases k d) as [L|L].
  - replace (d + k - 1) with ((d - k + k - 1) + 1 * k) by lia.
    rewrite Nat.div_add by lia. lia.
  - replace (d - k) with 0 by lia. simpl.
    rewrite (Nat.div_small (k - 1) k) by lia.
    replace (d + k - 1) with ((d - 1) + 1 * k) by lia.
    rewrite Nat.div_add by lia. rewrite Nat.div_small by lia. reflexivity.
Qed.

Lemma length_range_fuel (k : nat) :
  0 < k ->
  forall fuel start stop,
    stop - start <= fuel ->
    length (range_fuel fuel start stop k) = ceil_div (stop - start) k.
Proof.
  intros Hk. induction fuel as [|fuel IH]; intros start stop Hf; simpl.
  - replace (stop - start) with 0 by lia.
    unfold ceil_div. rewrite Nat.div_small by lia. reflexivity.
  - destruct (start <? stop)%nat eqn:E.
    + apply Nat.ltb_lt in E. simpl. rewrite IH by lia.
      rewrite (ceil_div_step (stop - start) k) by lia.
      do 2 f_equal. lia.
    + apply Nat.ltb_ge in E. replace (stop - start) with 0 by lia.
      unfold ceil_div. rewrite Nat.div_small by lia. reflexivity.
Qed.

Lemma lookup_range_fuel (k : nat) :
  forall fuel start stop i x,
    range_fuel fuel start stop k !! i = Some x ->
    x = start + i * k /\ x < stop.
Proof.
  induction fuel as [|fuel IH]; intros start stop i x; simpl; [discriminate|].
  destruct (start <? stop)%nat eqn:E; [|discriminate].
  apply Nat.ltb_lt in E.
  destruct i as [|i]; simpl.
  - intros [= <-]. lia.
  - intros H. apply IH in H. lia.
Qed.

Lemma concat_range_fuel {A} (l : list A) (k : nat) :
  0 < k ->
  forall fuel start,
    length l - start <= fuel ->
    concat (map (fun i => slice l i (i + k))
                (range_fuel fuel start (length l) k))
    = skipn start l.
Proof.
  intros Hk. induction fuel as [|fuel IH]; intros start Hf; simpl.
  - rewrite skipn_all2 by lia. reflexivity.
  - destruct (start <? length l)%nat eqn:E.
    + simpl. rewrite IH by (apply Nat.ltb_lt in E; lia).
      unfold slice. replace (start + k - start) with k by lia.
      rewrite (Nat.add_comm start k), <- skipn_skipn.
      apply firstn_skipn.
    + apply Nat.ltb_ge in E. rewrite skipn_all2 by lia. reflexivity.
Qed.

(** The number of windows. *)
Lemma length_chunk_audio (bs : list byte) (k : nat) :
  0 < k -> length (chunk_audio bs k) = ceil_div (length bs) k.
Proof.
  intros Hk. unfold chunk_audio, range. rewrite length_map.
  rewrite length_range_fuel by lia. f_equal. lia.
Qed.

(** The windows, in order, make up the audio. *)
Lemma concat_chunk_audio (bs : list byte) (k : nat) :
  0 < k -> concat (chunk_audio bs k) = bs.
Proof.
  intros Hk. unfold chunk_audio, range.
  rewrite concat_range_fuel by lia. reflexivity.
Qed.

Lemma lookup_chunk_audio (bs : list byte) (k i : nat) (c : list byte) :
  chunk_audio bs k !! i = Some c ->
  c = slice bs (i * k) (i * k + k) /\ i * k < length bs.
Proof.
  unfold chunk_audio. rewrite list_lookup_fmap.
  destruct (range 0 (length bs) k !! i) as [x|] eqn:E; [|discriminate].
  simpl. intros [= <-]. apply lookup_range_fuel in E.
  destruct E as [-> E]. simpl in *. split; [reflexivity|lia].
Qed.

Lemma length_slice {A} (l : list A) (i k : nat) :
  length (slice l i (i + k)) = Nat.min k (length l - i).
Proof.
  unfold slice. rewrite length_firstn, length_skipn. f_equal. lia.
Qed.

(** No window is larger than the chunk size. *)
Lemma chunk_audio_le (bs : list byte) (k i : nat) (c : list byte) :
  chunk_audio bs k !! i = Some c -> length c <= k.
Proof.
  intros H. apply lookup_chunk_audio in H as [-> _].
  rewrite length_slice. lia.
Qed.

(** Every window but the last is full. *)
Lemma chunk_audio_full (bs : list byte) (k i : nat) (c : list byte) :
  chunk_audio bs k !! i = Some c ->
  S i < length (chunk_audio bs k) ->
  length c = k.
Proof.
  intros H L.
  destruct (chunk_audio bs k !! S i) as [c'|] eqn:E.
  - apply lookup_chunk_audio in H as [-> _].
    apply lookup_chunk_audio in E as [_ E].
    rewrite length_slice. simpl in E. lia.
  - apply lookup_ge_None in E. lia.
Qed.

(** ** base64 *)

Lemma sextet_of_char_of_sextet (n : N) :
  (n < 64)%N -> Base64.sextet_of_char (Base64.char_of_sextet n) = n.
Proof.
  intros H.
  assert (A : forallb (fun i =>
                 N.eqb (Base64.sextet_of_char
                          (Base64.char_of_sextet (N.of_nat i))) (N.of_nat i))
              (seq 0 64) = true) by (vm_compute; reflexivity).
  rewrite forallb_forall in A.
  specialize (A (N.to_nat n)). rewrite N2Nat.id in A.
  apply N.eqb_eq, A, in_seq. lia.
Qed.

Lemma char_of_sextet_not_pad (n : N) :
  (n < 64)%N -> Ascii.eqb (Base64.char_of_sextet n) "=" = false.
Proof.
  intros H.
  assert (A : forallb (fun i =>
                 negb (Ascii.eqb (Base64.char_of_sextet (N.of_nat i)) "="))
              (seq 0 64) = true) by (vm_compute; reflexivity).
  rewrite forallb_forall in A.
  specialize (A (N.to_nat n)). rewrite N2Nat.id in A.
  apply negb_true_iff, A, in_seq. lia.
Qed.

Lemma byte_of_N_to_N (b : byte) : Base64.byte_of_N (Byte.to_N b) = b.
Proof.
  unfold Base64.byte_of_N.
  pose proof (Byte.to_N_bounded b) as B.
  rewrite N.mod_small by lia. rewrite Byte.of_to_N. reflexivity.
Qed.

Lemma byte_of_N_eq (n : N) (b : byte) :
  n = Byte.to_N b -> Base64.byte_of_N n = b.
Proof. intros ->. apply byte_of_N_to_N. Qed.

Ltac sextets :=
  repeat match goal with
         | b : byte |- _ =>
             let B := fresh "B" in
             pose proof (Byte.to_N_bounded b) as B;
             generalize dependent (Byte.to_N b); clear b; intros
         end;
  zify; Z.to_euclidean_division_equations; lia.

Lemma b64_one (a : byte) :
  Base64.b64decode (Base64.b64encode [a]) = [a].
Proof.
  cbn [Base64.b64encode Base64.b64decode].
  change (Ascii.eqb "=" "=") with true. cbn iota.
  f_equal. apply byte_of_N_eq.
  rewrite !sextet_of_char_of_sextet; sextets.
Qed.

Lemma b64_two (a b : byte) :
  Base64.b64decode (Base64.b64encode [a; b]) = [a; b].
Proof.
  cbn [Base64.b64encode Base64.b64decode].
  change (Ascii.eqb "=" "=") with true.
  rewrite char_of_sextet_not_pad by sextets. cbn iota.
  f_equal; [|f_equal]; apply byte_of_N_eq;
    rewrite !sextet_of_char_of_sextet; sextets.
Qed.

Lemma b64_three (a b c : byte) (rest : list byte) :
  Base64.b64decode (Base64.b64encode (a :: b :: c :: rest))
  = a :: b :: c :: Base64.b64decode (Base64.b64encode rest).
Proof.
  cbn [Base64.b64encode Base64.b64decode].
  rewrite !char_of_sextet_not_pad by sextets. cbn iota.
  f_equal; [|f_equal; [|f_equal]]; apply byte_of_N_eq;
    rewrite !sextet_of_char_of_sextet; sextets.
Qed.

(** Decoding undoes encoding. *)
Lemma b64decode_b64encode (bs : list byte) :
  Base64.b64decode (Base64.b64encode bs) = bs.
Proof.
  assert (H : forall n bs, length bs <= n ->
                Base64.b64decode (Base64.b64encode bs) = bs).
  { clear bs. induction n as [|n IH]; intros bs L.
    - destruct bs; [reflexivity|simpl in L; lia].
    - destruct bs as [|a [|b [|c rest]]].
      + reflexivity.
      + apply b64_one.
      + apply b64_two.
      + rewrite b64_three, IH; [reflexivity|simpl in L; lia]. }
  apply (H (length bs)). lia.
Qed.

Lemma decode_chunks (chunks : list (list byte)) :
  map Base64.b64decode (map Base64.b64encode chunks) = chunks.
Proof.
  rewrite map_map. erewrite map_ext; [apply map_id|].
  intros c. apply b64decode_b64encode.
Qed.

(** ** binary64 rounding *)

Local Open Scope Q_scope.






















Local Close Scope Q_scope.

(** ** The loops of the pipeline *)

(** Unfold the operations of the handler down to state transformers. *)
Ltac munfold :=
  unfold accept_call, cleanup, on_start, insert_session, commit_session,
    add_turn, commit_turn, transcribe_audio, call_llm_streaming,
    synthesize_speech, since_turn_start, utcfromtimestamp in *;
  unfold usable, now, new_uuid, send_json, sleep in *;
  unfold emit, tick, get, lift, raise in *;
  unfold modify, bind, ret in *.

Lemma set_log_same (s : State) : set_log (log s) s = s.
Proof. destruct s; reflexivity. Qed.

(** Streaming the reply never fails: every chunk is sent, then the
    generator pauses. *)
Lemma stream_reply_run (chunks : list string) :
  forall reply s,
    stream_reply chunks reply s
    = (Ok (reply ++ Str.concat chunks),
       set_log (log s ++ token_effects chunks) s).
Proof.
  induction chunks as [|c cs IH]; intros reply s.
  - simpl. rewrite app_nil_r, set_log_same.
    change (Str.concat []) with "". rewrite string_app_nil_r. reflexivity.
  - cbn [stream_reply]. munfold. rewrite IH. rewrite concat_cons, string_app_assoc.
    destruct s; cbn. rewrite <- ?app_assoc. reflexivity.
Qed.

(** After the first window the audio loop only sends and pauses. *)
Lemma stream_audio_rest (env : Env) (chunks : list (list byte)) :
  forall turn s,
    stream_audio env chunks false turn s
    = (Ok turn, set_log (log s ++ audio_effects chunks) s).
Proof.
  induction chunks as [|c cs IH]; intros turn s.
  - simpl. rewrite app_nil_r, set_log_same. reflexivity.
  - cbn [stream_audio]. munfold. rewrite IH. destruct s; cbn. rewrite <- ?app_assoc. reflexivity.
Qed.

(** On the first window the elapsed time is stored on the turn and
    committed before anything is sent. *)
Lemma stream_audio_first (env : Env) (c : list byte) (cs : list (list byte))
    (turn : Turn.t) (s : State) (t0 : Q) (key : string) :
  turn_start_time s = Some t0 ->
  pending_rollback (db s) = false ->
  Turn.id turn = Some key ->
  let turn' :=
    Turn.set_time_to_first_audio
      (Some (Binary64.sub (time_time env (ticks s)) t0)) turn in
  stream_audio env (c :: cs) true turn s
  = (Ok turn',
     set_log (log s ++ Commit :: audio_effects (c :: cs))
       (set_db (put_turn key turn' (db s)) (set_ticks (S (ticks s)) s))).
Proof.
  intros Ht Hp Hk turn'. cbn [stream_audio].
  munfold.
  destruct s as [sid ses buf tst tid d n lg]; simpl in *. subst tst.
  simpl. rewrite Hp, Hk. cbn.
  rewrite stream_audio_rest. cbn. rewrite <- ?app_assoc. reflexivity.
Qed.

(** ** The stages of a turn as equations *)

Lemma open_turn_run (env : Env) (s : State) :
  open_turn env s
  = match turn_start_time s with
    | None => (Raise TypeError, s)
    | Some t0 =>
        if pending_rollback (db s) then (Raise PendingRollbackError, s)
        else
          match turns (db s) !! turn_key env s with
          | Some _ =>
              (Raise IntegrityError,
               set_db (flush_failed (db s)) (set_ticks (ticks_opened s) s))
          | None =>
              (Ok (fresh_turn (turn_key env s) (session_id s)
                              (datetime_of_timestamp t0),
                   audio_buffer s),
               opened env s t0)
          end
    end.
Proof.
  unfold open_turn, opened, turn_key, ticks_opened. munfold.
  destruct s as [sid ses buf [t0|] tid d n lg]; simpl; [|reflexivity].
  destruct (pending_rollback d); simpl; [reflexivity|].
  destruct tid as [key|]; simpl.
  - destruct (turns d !! key); reflexivity.
  - destruct (turns d !! uuid4 env n); reflexivity.
Qed.

Lemma transcribe_audio_run (env : Env) (audio : list byte) (s : State) :
  transcribe_audio env audio s
  = (match automatic_speech_recognition env (ticks s) audio with
     | Ok raw => Ok (heard raw)
     | Raise e => Raise e
     end,
     asked (Transcribe audio) 1 s).
Proof.
  unfold asked. munfold. destruct s; simpl.
  destruct (automatic_speech_recognition _ _ _); reflexivity.
Qed.

Lemma recognise_run (env : Env) (audio : list byte) (turn : Turn.t)
    (s : State) (t0 : Q) (key : string) :
  turn_start_time s = Some t0 ->
  pending_rollback (db s) = false ->
  Turn.id turn = Some key ->
  recognise env audio turn s
  = match automatic_speech_recognition env (ticks s) audio with
    | Raise e =>
        (Raise e,
         set_log (log s ++ [Send (stt_partial "..."); Call (Transcribe audio)])
                 (set_ticks (S (ticks s)) s))
    | Ok raw =>
        let turn' := recognised env raw t0 turn s in
        (Ok (turn', heard raw),
         set_log (log s ++
                  [Send (stt_partial "..."); Call (Transcribe audio); Commit;
                   Send (stt_final (fst (heard raw)) (snd (heard raw))
                           (milliseconds
                              (Binary64.sub (time_time env (S (ticks s)))
                                            t0)))])
           (set_db (put_turn key turn' (db s))
                   (set_ticks (S (S (ticks s))) s)))
    end.
Proof.
  intros Ht Hp Hk. unfold recognise, recognised. munfold.
  destruct s as [sid ses buf tst tid d n lg]; simpl in *. subst tst.
  destruct (automatic_speech_recognition env n audio) as [raw|e]; simpl.
  - rewrite Hp. simpl. rewrite Hk. simpl.
    rewrite <- ?app_assoc. reflexivity.
  - rewrite <- ?app_assoc. reflexivity.
Qed.

Lemma generate_reply_run (env : Env) (transcript : string) (s : State) :
  generate_reply env transcript s
  = match chat_completion env (ticks s) transcript with
    | Raise e => (Raise e, asked (Generate transcript) 1 s)
    | Ok content =>
        let chunks := llm_chunks (Str.split (Str.strip content)) in
        (Ok (Str.concat chunks),
         set_log (log s ++
                  Call (Generate transcript) :: token_effects chunks ++
                  [Send (assistant_text "" true (Some (Str.concat chunks)))])
                 (set_ticks (S (ticks s)) s))
    end.
Proof.
  unfold generate_reply, asked. munfold.
  destruct s as [sid ses buf tst tid d n lg]; simpl.
  destruct (chat_completion env n transcript) as [content|e]; simpl;
    [|reflexivity].
  rewrite stream_reply_run. simpl.
  rewrite <- ?app_assoc. reflexivity.
Qed.

Lemma stream_audio_run (env : Env) (chunks : list (list byte))
    (turn : Turn.t) (s : State) (t0 : Q) (key : string) :
  turn_start_time s = Some t0 ->
  pending_rollback (db s) = false ->
  Turn.id turn = Some key ->
  stream_audio env chunks true turn s
  = match chunks with
    | [] => (Ok turn, s)
    | c :: cs =>
        let turn' :=
          Turn.set_time_to_first_audio
            (Some (Binary64.sub (time_time env (ticks s)) t0)) turn in
        (Ok turn',
         set_log (log s ++ Commit :: audio_effects (c :: cs))
           (set_db (put_turn key turn' (db s)) (set_ticks (S (ticks s)) s)))
    end.
Proof.
  intros Ht Hp Hk. destruct chunks as [|c cs]; [reflexivity|].
  apply stream_audio_first; assumption.
Qed.

Lemma speak_run (env : Env) (reply : string) (turn : Turn.t) (s : State)
    (t0 : Q) (key : string) :
  turn_start_time s = Some t0 ->
  pending_rollback (db s) = false ->
  Turn.id turn = Some key ->
  speak env reply turn s
  = match gTTS env (ticks s) reply with
    | Raise e => (Raise e, asked (Synthesize reply) 2 s)
    | Ok audio =>
        match chunk_audio audio default_chunk_size with
        | [] =>
            (Ok turn,
             set_log (log s ++ [Call (Synthesize reply); Send tts_done])
                     (set_ticks (S (S (ticks s))) s))
        | c :: cs =>
            let turn' :=
              Turn.set_time_to_first_audio
                (Some (Binary64.sub (time_time env (S (S (ticks s)))) t0)) turn in
            (Ok turn',
             set_log (log s ++
                      Call (Synthesize reply) :: Commit ::
                      audio_effects (c :: cs) ++ [Send tts_done])
               (set_db (put_turn key turn' (db s))
                       (set_ticks (S (S (S (ticks s)))) s)))
        end
    end.
Proof.
  intros Ht Hp Hk. unfold speak, asked.
  unfold synthesize_speech, new_uuid, send_json, emit, tick, lift, modify.
  unfold bind, ret.
  destruct s as [sid ses buf tst tid d n lg]; simpl in *. subst tst.
  destruct (gTTS env n reply) as [audio|e]; [|reflexivity].
  generalize (chunk_audio audio default_chunk_size). intros chunks.
  rewrite (stream_audio_run env chunks turn _ t0 key)
    by (try reflexivity; assumption).
  destruct chunks as [|c cs]; simpl; rewrite <- ?app_assoc; reflexivity.
Qed.

Lemma close_turn_run (env : Env) (reply : string) (turn : Turn.t)
    (s : State) (key : string) :
  pending_rollback (db s) = false ->
  Turn.id turn = Some key ->
  close_turn env reply turn s
  = (Ok tt,
     set_log (log s ++ [Commit])
       (set_db (put_turn key
                  (Turn.set_ended_at (Some (time_time env (ticks s)))
                     (Turn.set_assistant_text (Some reply) turn))
                  (db s))
               (set_ticks (S (ticks s)) s))).
Proof.
  intros Hp Hk. unfold close_turn. munfold.
  destruct s as [sid ses buf tst tid d n lg]; simpl in *.
  rewrite Hp. simpl. rewrite Hk. reflexivity.
Qed.

Local Open Scope list_scope.

(** ** A whole turn *)

Lemma choose_reply_run (env : Env) (transcript : string) (confidence : float)
    (s : State) :
  choose_reply env transcript confidence s
  = if silence_rule transcript confidence then (Ok fallback_reply, s)
    else generate_reply env transcript s.
Proof.
  unfold choose_reply. destruct (silence_rule _ _); reflexivity.
Qed.

Lemma put_turn_twice (key : string) (r1 r2 : Turn.t) (d : Database) :
  put_turn key r2 (put_turn key r1 d) = put_turn key r2 d.
Proof. unfold put_turn. simpl. rewrite insert_insert_eq. reflexivity. Qed.

Ltac turn_done :=
  repeat match goal with |- _ /\ _ => split end;
  first
    [ assumption | reflexivity
    | split; intros; congruence
    | intros ? [= <-]; eexists; split; [eassumption|reflexivity]
    | intros; discriminate
    | simpl; unfold turn_effects, reply_effects, speech_effects, reply_of;
      simpl; repeat (progress (rewrite <- ?app_assoc; simpl)); reflexivity
    | simpl; rewrite ?put_turn_twice; reflexivity ].

(** A stop that goes through: what was asked of the world, what was done,
    and the state it leaves. *)
Lemma process_turn_ok (env : Env) (s s' : State) :
  process_turn env s = (Ok tt, s') ->
  exists (t0 : Q) (raw : string) (generated : option (list string))
         (audio : list byte),
    let key := turn_key env s in
    let n := ticks_opened s in
    let transcript := fst (heard raw) in
    let confidence := snd (heard raw) in
    let time_to_final := (Binary64.sub (time_time env (S n)) t0) in
    let m := match generated with None => 2 + n | Some _ => 3 + n end in
    let chunks := chunk_audio audio default_chunk_size in
    let k := match chunks with [] => 2 + m | _ :: _ => 3 + m end in
    turn_start_time s = Some t0 /\
    pending_rollback (db s) = false /\
    turns (db s) !! key = None /\
    automatic_speech_recognition env n (audio_buffer s) = Ok raw /\
    (generated = None <-> silence_rule transcript confidence = true) /\
    (forall tokens, generated = Some tokens ->
       exists content,
         chat_completion env (2 + n) transcript = Ok content /\
         tokens = llm_chunks (Str.split (Str.strip content))) /\
    gTTS env m (reply_of generated) = Ok audio /\
    log s' = log s ++
             turn_effects (audio_buffer s) transcript confidence
               (milliseconds time_to_final) generated chunks /\
    db s' = put_turn key
              (final_turn key (session_id s) (datetime_of_timestamp t0)
                 transcript (reply_of generated) time_to_final
                 (match chunks with
                  | [] => None
                  | _ :: _ => Some (Binary64.sub (time_time env (2 + m)) t0)
                  end)
                 (time_time env k))
              (db s) /\
    ticks s' = S k /\
    audio_buffer s' = [] /\
    turn_start_time s' = turn_start_time s /\
    current_turn_id s' = current_turn_id s /\
    session s' = session s /\
    session_id s' = session_id s.
Proof.
  unfold process_turn. unfold bind at 1. rewrite open_turn_run.
  destruct (turn_start_time s) as [t0|] eqn:Ht; [|discriminate].
  destruct (pending_rollback (db s)) eqn:Hp; [discriminate|].
  destruct (turns (db s) !! turn_key env s) eqn:Hn; [discriminate|].
  cbn [fst snd]. set (s1 := opened env s t0). unfold bind at 1.
  rewrite (recognise_run env _ _ s1 t0 (turn_key env s));
    [|exact Ht|exact Hp|reflexivity].
  change (ticks s1) with (ticks_opened s).
  destruct (automatic_speech_recognition env (ticks_opened s) (audio_buffer s))
    as [raw|e] eqn:Hasr; [|discriminate].
  cbv beta iota zeta. cbn [fst snd].
  set (turn1 := recognised env raw t0 _ s1).
  match goal with |- bind _ _ ?st = _ -> _ => set (s2 := st) end.
  unfold bind at 1. rewrite choose_reply_run.
  assert (Ht2 : turn_start_time s2 = Some t0) by exact Ht.
  assert (Hp2 : pending_rollback (db s2) = false) by exact Hp.
  assert (Hk1 : Turn.id turn1 = Some (turn_key env s)) by reflexivity.
  assert (Hn2 : ticks s2 = 2 + ticks_opened s) by reflexivity.
  destruct (silence_rule (heard raw).1 (heard raw).2) eqn:Hsil.
  - (* the silence rule applies *)
    unfold bind at 1.
    rewrite (speak_run env _ _ s2 t0 (turn_key env s)) by assumption.
    rewrite Hn2.
    destruct (gTTS env (2 + ticks_opened s) fallback_reply)
      as [audio|e] eqn:Htts; [|discriminate].
    destruct (chunk_audio audio default_chunk_size) as [|c cs] eqn:Hch;
      cbv beta iota zeta;
      rewrite (close_turn_run env _ _ _ (turn_key env s))
        by (try reflexivity; assumption);
      intros [= <-]; exists t0, raw, None, audio; cbv zeta; rewrite Hch;
      subst s2 turn1 s1; turn_done.
  - (* generation runs *)
    rewrite generate_reply_run. rewrite Hn2.
    destruct (chat_completion env (2 + ticks_opened s) (heard raw).1)
      as [content|e] eqn:Hllm; [|discriminate].
    cbv beta iota zeta.
    set (tokens := llm_chunks (Str.split (Str.strip content))).
    match goal with |- bind _ _ ?st = _ -> _ => set (s3 := st) end.
    unfold bind at 1.
    rewrite (speak_run env _ _ s3 t0 (turn_key env s));
      [|exact Ht|exact Hp|reflexivity].
    change (ticks s3) with (3 + ticks_opened s).
    destruct (gTTS env (3 + ticks_opened s) (Str.concat tokens))
      as [audio|e] eqn:Htts; [|discriminate].
    destruct (chunk_audio audio default_chunk_size) as [|c cs] eqn:Hch;
      cbv beta iota zeta;
      rewrite (close_turn_run env _ _ _ (turn_key env s))
        by (try reflexivity; assumption);
      intros [= <-]; exists t0, raw, (Some tokens), audio; cbv zeta;
      rewrite Hch; subst s3 s2 turn1 s1; turn_done.
Qed.

Lemma ticks_opened_ge (s : State) : ticks s <= ticks_opened s.
Proof. unfold ticks_opened. destruct (current_turn_id s); lia. Qed.

Lemma lookup_put_turn (key key' : string) (r row : Turn.t) (d : Database) :
  turns (put_turn key r d) !! key' = Some row ->
  turns d !! key' = Some row \/ row = r.
Proof.
  unfold put_turn. simpl. rewrite lookup_insert. case_decide.
  - intros [= <-]. right. reflexivity.
  - intros H'. left. exact H'.
Qed.

Ltac ticks_done :=
  simpl;
  match goal with s : State |- _ => pose proof (ticks_opened_ge s) end;
  lia.

Ltac written_done t0 :=
  split; [reflexivity|];
  exists t0; split; [assumption|]; simpl;
  first
    [ exact I
    | eexists; split; [|reflexivity]; ticks_done
    | eexists; eexists; split; [|split; [|split; reflexivity]]; ticks_done ].

Ltac any_done t0 :=
  cbv beta iota zeta; intros [= <- <-];
  repeat match goal with |- _ /\ _ => split end;
  first
    [ reflexivity | assumption
    | ticks_done
    | exists []; simpl; rewrite app_nil_r; reflexivity
    | eexists; simpl; rewrite <- ?app_assoc; reflexivity
    | intros ? ? ?; left; assumption
    | let H := fresh in
      intros ? ? H;
      cbn [db asked opened set_log set_db set_ticks set_audio_buffer] in H;
      repeat (apply lookup_put_turn in H as [H| ->]; [|right; written_done t0]);
      left; exact H
    ].

(** Whatever becomes of a stop, it leaves the call's own variables alone,
    only adds to the log, and writes rows of the expected shape. *)
Lemma process_turn_any (env : Env) (s s' : State) (r : result unit) :
  process_turn env s = (r, s') ->
  same_call s s' /\
  ticks s <= ticks s' /\
  (exists delta, log s' = log s ++ delta) /\
  (forall key row,
     turns (db s') !! key = Some row ->
     turns (db s) !! key = Some row \/ written env s row).
Proof.
  unfold same_call, process_turn. unfold bind at 1. rewrite open_turn_run.
  destruct (turn_start_time s) as [t0|] eqn:Ht; [|any_done 0%Q].
  destruct (pending_rollback (db s)) eqn:Hp; [any_done t0|].
  destruct (turns (db s) !! turn_key env s) eqn:Hn; [any_done t0|].
  cbn [fst snd]. set (s1 := opened env s t0). unfold bind at 1.
  rewrite (recognise_run env _ _ s1 t0 (turn_key env s));
    [|exact Ht|exact Hp|reflexivity].
  change (ticks s1) with (ticks_opened s).
  destruct (automatic_speech_recognition env (ticks_opened s) (audio_buffer s))
    as [raw|e] eqn:Hasr; [|subst s1; any_done t0].
  cbv beta iota zeta. cbn [fst snd].
  set (turn1 := recognised env raw t0 _ s1).
  match goal with |- bind _ _ ?st = _ -> _ => set (s2 := st) end.
  unfold bind at 1. rewrite choose_reply_run.
  assert (Ht2 : turn_start_time s2 = Some t0) by exact Ht.
  assert (Hp2 : pending_rollback (db s2) = false) by exact Hp.
  assert (Hk1 : Turn.id turn1 = Some (turn_key env s)) by reflexivity.
  assert (Hn2 : ticks s2 = 2 + ticks_opened s) by reflexivity.
  destruct (silence_rule (heard raw).1 (heard raw).2) eqn:Hsil.
  - unfold bind at 1.
    rewrite (speak_run env _ _ s2 t0 (turn_key env s)) by assumption.
    rewrite Hn2.
    destruct (gTTS env (2 + ticks_opened s) fallback_reply)
      as [audio|e] eqn:Htts; [|subst s2 turn1 s1; any_done t0].
    destruct (chunk_audio audio default_chunk_size) as [|c cs] eqn:Hch;
      cbv beta iota zeta;
      rewrite (close_turn_run env _ _ _ (turn_key env s))
        by (try reflexivity; assumption);
      subst s2 turn1 s1; any_done t0.
  - rewrite generate_reply_run. rewrite Hn2.
    destruct (chat_completion env (2 + ticks_opened s) (heard raw).1)
      as [content|e] eqn:Hllm; [|subst s2 turn1 s1; any_done t0].
    cbv beta iota zeta.
    set (tokens := llm_chunks (Str.split (Str.strip content))).
    match goal with |- bind _ _ ?st = _ -> _ => set (s3 := st) end.
    unfold bind at 1.
    rewrite (speak_run env _ _ s3 t0 (turn_key env s));
      [|exact Ht|exact Hp|reflexivity].
    change (ticks s3) with (3 + ticks_opened s).
    destruct (gTTS env (3 + ticks_opened s) (Str.concat tokens))
      as [audio|e] eqn:Htts; [|subst s3 s2 turn1 s1; any_done t0].
    destruct (chunk_audio audio default_chunk_size) as [|c cs] eqn:Hch;
      cbv beta iota zeta;
      rewrite (close_turn_run env _ _ _ (turn_key env s))
        by (try reflexivity; assumption);
      subst s3 s2 turn1 s1; any_done t0.
Qed.

(** ** The message loop *)

Lemma on_start_run (env : Env) (s : State) :
  on_start env s
  = if pending_rollback (db s)
    then (Raise PendingRollbackError,
          set_session (set_status "active" (session s))
            (set_current_turn_id (Some (uuid4 env (S (ticks s))))
               (set_turn_start_time (Some (time_time env (ticks s)))
                  (set_audio_buffer [] (set_ticks (2 + ticks s) s)))))
    else (Ok tt, started env s).
Proof.
  unfold started. munfold. destruct s as [sid ses buf tst tid d n lg]; simpl.
  destruct (pending_rollback d); simpl; rewrite <- ?app_assoc; reflexivity.
Qed.

Lemma handle_start (env : Env) (m : message) (s : State) :
  has_type m "start" = true ->
  handle env m s
  = match on_start env s with
    | (Ok _, s') => (Ok Continue, s')
    | (Raise e, s') => (Raise e, s')
    end.
Proof.
  unfold has_type, falsy_bytes, handle. intros H.
  destruct (m_bytes m) as [[|b bs]|]; try discriminate;
    destruct (m_text m) as [[msg_type|e]|]; try discriminate;
    simpl in H; unfold lift, bind, ret; rewrite H; reflexivity.
Qed.

Lemma handle_stop (env : Env) (m : message) (s : State) :
  has_type m "stop" = true -> handle env m s = on_stop env s.
Proof.
  unfold has_type, falsy_bytes, handle. intros H.
  destruct (m_bytes m) as [[|b bs]|]; try discriminate;
    destruct (m_text m) as [[msg_type|e]|]; try discriminate;
    simpl in H; unfold lift, bind, ret; rewrite H;
    (destruct (is_type msg_type "start") eqn:E; [|reflexivity]);
    destruct msg_type as [t|]; try discriminate; simpl in *;
    apply String.eqb_eq in E; apply String.eqb_eq in H; congruence.
Qed.

(** A frame that is neither a start nor a stop touches nothing but the
    audio buffer. *)
Lemma handle_other (env : Env) (m : message) (s s' : State)
    (r : result ctl) :
  has_type m "start" = false ->
  has_type m "stop" = false ->
  handle env m s = (r, s') ->
  exists buffer, s' = set_audio_buffer buffer s.
Proof.
  unfold has_type, falsy_bytes, handle. intros H1 H2.
  assert (Same : s = set_audio_buffer (audio_buffer s) s)
    by (destruct s; reflexivity).
  destruct (m_bytes m) as [[|b bs]|].
  2:{ unfold modify, bind, ret. intros [= <- <-]. eexists. reflexivity. }
  all: destruct (m_text m) as [[msg_type|e]|];
    unfold lift, bind, ret, raise; simpl in H1, H2;
    try rewrite H1; try rewrite H2;
    try destruct (is_type msg_type "end_call");
    intros [= <- <-]; exists (audio_buffer s); exact Same.
Qed.

Lemma on_stop_run (env : Env) (s : State) :
  on_stop env s
  = match audio_buffer s with
    | [] => (Ok Continue,
             set_log (log s ++ [Send (error "No audio received")]) s)
    | _ :: _ =>
        match process_turn env s with
        | (Ok _, s') => (Ok Continue, s')
        | (Raise e, s') => (Raise e, s')
        end
    end.
Proof.
  unfold on_stop. munfold. destruct (audio_buffer s); reflexivity.
Qed.

(** ** Invariant of a connection *)

Lemma written_timed (env : Env) (s : State) (row : Turn.t) :
  (forall t0, turn_start_time s = Some t0 ->
              exists i, i < ticks s /\ t0 = time_time env i) ->
  written env s row -> timed env row.
Proof.
  intros Link [Hp (t0 & Ht & Hrow)]. split; [exact Hp|].
  intros a b Ha Hb. rewrite Ha, Hb in Hrow.
  destruct Hrow as (j & k & Hj & Hk & -> & ->).
  destruct (Link t0 Ht) as (i & Hi & ->).
  exists i, j, k. repeat split; lia.
Qed.

Lemma inv_frame (env : Env) (stored : Database) (s s' : State) :
  connection_inv env stored s ->
  turn_start_time s' = turn_start_time s ->
  ticks s <= ticks s' ->
  turns (db s') = turns (db s) ->
  connection_inv env stored s'.
Proof.
  intros [Link Rows] Ht Hn Hd. split.
  - intros t0 H. rewrite Ht in H. destruct (Link t0 H) as (i & Hi & ->).
    exists i. split; [lia|reflexivity].
  - intros key row H. rewrite Hd in H. exact (Rows key row H).
Qed.

Lemma inv_on_start (env : Env) (stored : Database) (s s' : State)
    (r : result unit) :
  connection_inv env stored s ->
  on_start env s = (r, s') ->
  connection_inv env stored s'.
Proof.
  intros [Link Rows]. rewrite on_start_run.
  destruct (pending_rollback (db s)); intros [= <- <-]; split.
  all: try (intros t0 [= <-]; exists (ticks s); split;
            [simpl; lia|reflexivity]).
  all: intros key row H; exact (Rows key row H).
Qed.

Lemma inv_process_turn (env : Env) (stored : Database) (s s' : State)
    (r : result unit) :
  connection_inv env stored s ->
  process_turn env s = (r, s') ->
  connection_inv env stored s'.
Proof.
  intros [Link Rows] H.
  destruct (process_turn_any env s s' r H) as ((Ht & _) & Hn & _ & Hrows).
  split.
  - intros t0 H0. rewrite Ht in H0. destruct (Link t0 H0) as (i & Hi & ->).
    exists i. split; [lia|reflexivity].
  - intros key row Hrow. destruct (Hrows key row Hrow) as [Old|New].
    + exact (Rows key row Old).
    + right. exact (written_timed env s row Link New).
Qed.

Lemma inv_handle (env : Env) (stored : Database) (m : message)
    (s s' : State) (r : result ctl) :
  connection_inv env stored s ->
  handle env m s = (r, s') ->
  connection_inv env stored s'.
Proof.
  intros Inv.
  destruct (has_type m "start") eqn:Hstart.
  { rewrite handle_start by exact Hstart.
    destruct (on_start env s) as [[[]|e] s1] eqn:E; intros [= <- <-];
      exact (inv_on_start env stored s s1 _ Inv E). }
  destruct (has_type m "stop") eqn:Hstop.
  { rewrite handle_stop by exact Hstop. rewrite on_stop_run.
    destruct (audio_buffer s).
    - intros [= <- <-].
      apply (inv_frame env stored s); [exact Inv|reflexivity|simpl; lia|].
      reflexivity.
    - destruct (process_turn env s) as [[[]|e] s1] eqn:E; intros [= <- <-];
        exact (inv_process_turn env stored s s1 _ Inv E). }
  intros H. destruct (handle_other env m s s' r Hstart Hstop H) as [b ->].
  apply (inv_frame env stored s); [exact Inv|reflexivity|simpl; lia|].
  reflexivity.
Qed.

Lemma inv_message_loop (env : Env) (stored : Database)
    (inbox : list (result message)) :
  forall s,
    connection_inv env stored s ->
    connection_inv env stored (snd (message_loop env inbox s)).
Proof.
  induction inbox as [|received rest IH]; intros s Inv; [exact Inv|].
  cbn [message_loop]. unfold bind, lift.
  destruct received as [m|e]; [|exact Inv].
  destruct (handle env m s) as [[[]|e] s1] eqn:E; cbn [snd].
  - apply IH. exact (inv_handle env stored m s s1 _ Inv E).
  - exact (inv_handle env stored m s s1 _ Inv E).
  - exact (inv_handle env stored m s s1 _ Inv E).
Qed.

Lemma accept_call_any (env : Env) (s s' : State) (r : result unit) :
  accept_call env s = (r, s') ->
  turns (db s') = turns (db s) /\
  (turn_start_time s = None -> turn_start_time s' = None) /\
  (r = Ok tt ->
   turn_start_time s' = None /\ current_turn_id s' = None /\
   audio_buffer s' = [] /\
   pending_rollback (db s') = pending_rollback (db s)).
Proof.
  munfold. destruct s as [sid ses buf tst tid d n lg]; simpl.
  destruct (pending_rollback d) eqn:Hp; simpl.
  { intros [= <- <-]. repeat split; [tauto|discriminate..]. }
  destruct (call_sessions d !! uuid4 env n); simpl; intros [= <- <-].
  - repeat split; [tauto|discriminate..].
  - simpl. rewrite Hp. repeat split; reflexivity.
Qed.

Lemma cleanup_run (env : Env) (s : State) :
  cleanup env s
  = let row :=
      set_session_ended_at (Some (time_time env (ticks s)))
        (set_status "ended" (session s)) in
    let s1 := set_session row (set_ticks (S (ticks s)) s) in
    if pending_rollback (db s) then (Raise PendingRollbackError, s1)
    else (Ok tt,
          set_log (log s ++ [Commit; Close])
                  (set_db (put_session row (db s)) s1)).
Proof.
  munfold. destruct s as [sid ses buf tst tid d n lg]; simpl.
  destruct (pending_rollback d); simpl; rewrite <- ?app_assoc; reflexivity.
Qed.

Lemma inv_cleanup (env : Env) (stored : Database) (s s' : State)
    (r : result unit) :
  connection_inv env stored s ->
  cleanup env s = (r, s') ->
  connection_inv env stored s'.
Proof.
  intros Inv. rewrite cleanup_run. cbv zeta.
  destruct (pending_rollback (db s)); intros [= <- <-];
    (apply (inv_frame env stored s);
     [exact Inv|reflexivity|simpl; lia|reflexivity]).
Qed.

Lemma inv_accept_call (env : Env) (stored : Database) (s0 : State)
    (r : result unit) :
  accept_call env (boot stored) = (r, s0) ->
  connection_inv env stored s0.
Proof.
  intros H. apply accept_call_any in H as (Hd & Ht & _). split.
  - intros t0 H0. rewrite Ht in H0 by reflexivity. discriminate.
  - intros key row H. rewrite Hd in H. left. exact H.
Qed.

(** The invariant holds in whatever state the handler ends or waits. *)
Lemma inv_websocket_call (env : Env) (stored : Database)
    (inbox : list (result message)) :
  connection_inv env stored (snd (websocket_call env stored inbox)).
Proof.
  unfold websocket_call.
  destruct (accept_call env (boot stored)) as [[[]|e] s0] eqn:Eacc;
    pose proof (inv_accept_call env stored s0 _ Eacc) as Inv0;
    [|exact Inv0].
  pose proof (inv_message_loop env stored inbox s0 Inv0) as Inv1.
  destruct (message_loop env inbox s0) as [[| |e] s1]; cbn [snd] in *.
  - exact Inv1.
  - destruct (cleanup env s1) as [[[]|e] s2] eqn:E; cbn [finish snd];
      exact (inv_cleanup env stored s1 s2 _ Inv1 E).
  - assert (Inv2 : connection_inv env stored
                     (set_log (log s1 ++ [LogInfo "Client disconnected"]) s1)).
    { apply (inv_frame env stored s1);
        [exact Inv1|reflexivity|simpl; lia|reflexivity]. }
    destruct (exn_is_disconnect e).
    + unfold bind, emit, modify.
      destruct (cleanup env _) as [[[]|e'] s2] eqn:E; cbn [finish snd];
        exact (inv_cleanup env stored _ s2 _ Inv2 E).
    + destruct (cleanup env s1) as [[[]|e'] s2] eqn:E; cbn [finish snd];
        exact (inv_cleanup env stored s1 s2 _ Inv1 E).
Qed.

(** ** Reading the log *)

Lemma sent_app (l1 l2 : list effect) : sent (l1 ++ l2) = sent l1 ++ sent l2.
Proof. unfold sent. apply omap_app. Qed.

Lemma requests_app (l1 l2 : list effect) :
  requests (l1 ++ l2) = requests l1 ++ requests l2.
Proof. unfold requests. apply omap_app. Qed.

Lemma sent_token_effects (chunks : list string) :
  sent (token_effects chunks)
  = map (fun chunk => assistant_text chunk false None) chunks.
Proof. induction chunks as [|c cs IH]; simpl; congruence. Qed.

Lemma sent_audio_effects (chunks : list (list byte)) :
  sent (audio_effects chunks)
  = map (fun chunk => tts_audio_chunk (Base64.b64encode chunk)) chunks.
Proof. induction chunks as [|c cs IH]; simpl; congruence. Qed.

Lemma requests_token_effects (chunks : list string) :
  requests (token_effects chunks) = [].
Proof. induction chunks as [|c cs IH]; simpl; congruence. Qed.

Lemma requests_audio_effects (chunks : list (list byte)) :
  requests (audio_effects chunks) = [].
Proof. induction chunks as [|c cs IH]; simpl; congruence. Qed.

Lemma sent_speech_effects (reply : string) (chunks : list (list byte)) :
  sent (speech_effects reply chunks)
  = map (fun chunk => tts_audio_chunk (Base64.b64encode chunk)) chunks
    ++ [tts_done].
Proof.
  unfold speech_effects.
  change (sent (Call (Synthesize reply) :: ?l)) with (sent l).
  rewrite !sent_app, sent_audio_effects. destruct chunks; reflexivity.
Qed.

Lemma requests_speech_effects (reply : string) (chunks : list (list byte)) :
  requests (speech_effects reply chunks) = [Synthesize reply].
Proof.
  unfold speech_effects.
  change (requests (Call (Synthesize reply) :: ?l))
    with (Synthesize reply :: requests l).
  rewrite !requests_app, requests_audio_effects. destruct chunks; reflexivity.
Qed.

Lemma sent_turn_effects (audio : list byte) (transcript : string)
    (confidence : float) (latency_ms : Z) (generated : option (list string))
    (chunks : list (list byte)) :
  sent (turn_effects audio transcript confidence latency_ms generated chunks)
  = turn_events transcript confidence latency_ms generated chunks.
Proof.
  unfold turn_effects, turn_events.
  rewrite !sent_app, sent_speech_effects.
  destruct generated as [tokens|]; simpl.
  - rewrite sent_app, sent_token_effects, app_nil_r. reflexivity.
  - rewrite app_nil_r. reflexivity.
Qed.

Lemma requests_turn_effects (audio : list byte) (transcript : string)
    (confidence : float) (latency_ms : Z) (generated : option (list string))
    (chunks : list (list byte)) :
  requests (turn_effects audio transcript confidence latency_ms generated
              chunks)
  = Transcribe audio ::
    match generated with
    | None => []
    | Some _ => [Generate transcript]
    end ++ [Synthesize (reply_of generated)].
Proof.
  unfold turn_effects.
  rewrite !requests_app, requests_speech_effects.
  destruct generated as [tokens|]; simpl; [|reflexivity].
  rewrite requests_app, requests_token_effects. reflexivity.
Qed.

(** * The claims *)

Lemma silence_rule_iff (transcript : string) (confidence : float) :
  silence_rule transcript confidence = true <->
  transcript = "" \/ PrimFloat.ltb confidence confidence_threshold = true.
Proof.
  unfold silence_rule. rewrite orb_true_iff, negb_true_iff, truthy_empty.
  reflexivity.
Qed.

Lemma heard_confidence (raw : string) :
  snd (heard raw) = (if whitespace_only raw then 0 else 0.9)%float.
Proof.
  unfold heard. cbn [snd].
  destruct (whitespace_only raw) eqn:W.
  - apply strip_empty in W. rewrite W. reflexivity.
  - destruct (Str.strip raw) eqn:E; [|reflexivity].
    apply strip_empty in E. congruence.
Qed.

(** C1. A stop that goes through skips generation and replies with the
    fixed message "I'm sorry, I didn't catch that. Could you repeat?"
    exactly when the transcript, which is the recognised text trimmed of
    white space, is empty or the confidence is below 0.3.  The transcript
    is empty exactly when the recognised text is white space only; the
    confidence reported with it is 0.0 then and 0.9 otherwise.  The
    requests made during the turn are the transcription, then the
    generation only when the rule does not apply, then the synthesis of
    the reply, which is also the reply stored on the turn.  The rule
    itself is the disjunction, with 0.3 on the passing side, and the rows
    of the policy table evaluate as stated. *)
Theorem silence_policy (env : Env) (s s' : State) :
  process_turn env s = (Ok tt, s') ->
  (exists (raw : string) (generated : option (list string)) (row : Turn.t)
          (latency_ms : Z),
     let transcript := Str.strip raw in
     let confidence := (if whitespace_only raw then 0 else 0.9)%float in
     let reply :=
       match generated with
       | None => "I'm sorry, I didn't catch that. Could you repeat?"
       | Some tokens => Str.concat tokens
       end in
     automatic_speech_recognition env (ticks_opened s) (audio_buffer s)
     = Ok raw /\
     (transcript = "" <-> whitespace_only raw = true) /\
     In (stt_final transcript confidence latency_ms) (sent (log s')) /\
     requests (log s')
     = requests (log s) ++
       Transcribe (audio_buffer s) ::
       match generated with
       | None => []
       | Some _ => [Generate transcript]
       end ++ [Synthesize reply] /\
     turns (db s') !! turn_key env s = Some row /\
     Turn.user_transcript_final row = Some transcript /\
     Turn.assistant_text row = Some reply /\
     (generated = None <->
      transcript = "" \/ PrimFloat.ltb confidence 0.3 = true)) /\
  (forall transcript confidence,
     silence_rule transcript confidence = true <->
     transcript = "" \/ PrimFloat.ltb confidence 0.3 = true) /\
  silence_rule (Str.strip "") 0 = true /\
  silence_rule (Str.strip "   ") 0 = true /\
  silence_rule (Str.strip "hello") 0.9 = false /\
  silence_rule (Str.strip "some words") 0.5 = false /\
  silence_rule (Str.strip "   ") 0.9 = true /\
  silence_rule "hello" 0.3 = false /\
  silence_rule "hello" 0.29 = true /\
  Str.strip "  some words " = "some words".
Proof.
  intros H. split; [|split; [exact silence_rule_iff|repeat split; reflexivity]].
  destruct (process_turn_ok env s s' H)
    as (t0 & raw & generated & audio & Hok).
  cbv zeta in Hok.
  destruct Hok as (_ & _ & _ & Hasr & Hgen & _ & _ & Hlog & Hdb & _).
  rewrite heard_confidence in Hgen, Hlog.
  eexists raw, generated, _, _. cbv zeta.
  split; [exact Hasr|]. split; [apply strip_empty|]. split.
  { rewrite Hlog, sent_app, sent_turn_effects. apply in_or_app. right.
    right. left. reflexivity. }
  split.
  { rewrite Hlog, requests_app, requests_turn_effects.
    destruct generated; reflexivity. }
  split.
  { rewrite Hdb. unfold put_turn. simpl. apply lookup_insert_eq. }
  split; [reflexivity|]. split; [destruct generated; reflexivity|].
  rewrite Hgen. apply silence_rule_iff.
Qed.

(** C2. A stop that finds the audio buffer empty sends one error event,
    "No audio received", and nothing else happens: no request, no commit,
    no row, the locals of the connection and the database are as before,
    and the loop goes on to the next frame. *)
Theorem empty_stop_rejected (env : Env) (m : message) (s : State)
    (rest : list (result message)) :
  has_type m "stop" = true ->
  audio_buffer s = [] ->
  exists s',
    handle env m s = (Ok Continue, s') /\
    message_loop env (Ok m :: rest) s = message_loop env rest s' /\
    log s' = log s ++ [Send (error "No audio received")] /\
    sent (log s') = sent (log s) ++ [error "No audio received"] /\
    db s' = db s /\
    audio_buffer s' = audio_buffer s /\
    current_turn_id s' = current_turn_id s /\
    turn_start_time s' = turn_start_time s /\
    session s' = session s /\
    session_id s' = session_id s /\
    ticks s' = ticks s.
Proof.
  intros Hm Hb.
  exists (set_log (log s ++ [Send (error "No audio received")]) s).
  assert (E : handle env m s
              = (Ok Continue,
                 set_log (log s ++ [Send (error "No audio received")]) s)).
  { rewrite handle_stop by exact Hm. rewrite on_stop_run, Hb. reflexivity. }
  split; [exact E|]. split.
  { cbn [message_loop]. unfold bind, lift. rewrite E. reflexivity. }
  split; [reflexivity|]. split.
  { cbn [log set_log]. rewrite sent_app. reflexivity. }
  repeat split; reflexivity.
Qed.

(** ** Frames seen before a stop *)

Lemma handle_keeps_turn_start (env : Env) (m : message) (s s' : State)
    (r : result ctl) :
  has_type m "start" = false ->
  handle env m s = (r, s') ->
  turn_start_time s' = turn_start_time s /\
  current_turn_id s' = current_turn_id s.
Proof.
  intros Hstart.
  destruct (has_type m "stop") eqn:Hstop.
  - rewrite handle_stop by exact Hstop. rewrite on_stop_run.
    destruct (audio_buffer s).
    + intros [= <- <-]. split; reflexivity.
    + destruct (process_turn env s) as [[[]|e] s1] eqn:E; intros [= <- <-];
        destruct (process_turn_any env s s1 _ E) as ((Ht & Hc & _) & _);
        split; assumption.
  - intros H. destruct (handle_other env m s s' r Hstart Hstop H) as [b ->].
    split; reflexivity.
Qed.

Lemma loop_without_start (env : Env) (pre : list (result message)) :
  forall s0 s,
    message_loop env pre s0 = (Awaiting, s) ->
    forallb (fun received => negb (starts received)) pre = true ->
    turn_start_time s = turn_start_time s0 /\
    current_turn_id s = current_turn_id s0.
Proof.
  induction pre as [|received rest IH]; intros s0 s.
  - intros [= <-] _. split; reflexivity.
  - cbn [message_loop forallb]. unfold bind, lift.
    destruct received as [m|e]; [|discriminate].
    destruct (handle env m s0) as [[[]|e] s1] eqn:E; try discriminate.
    intros Hloop [Hm Hrest]%andb_true_iff.
    apply negb_true_iff in Hm. simpl in Hm.
    destruct (handle_keeps_turn_start env m s0 s1 _ Hm E) as [Ht Hc].
    destruct (IH s1 s Hloop Hrest) as [Ht' Hc'].
    split; congruence.
Qed.

(** C10. A stop with audio in the buffer needs an earlier start on the same
    connection.  After any frames among which there is no start, the turn
    start time and the turn id are still [None], and such a stop raises
    [TypeError] where the start time is converted, before any row is
    created or anything is sent; so a stop that goes through was preceded
    by a start. *)
Theorem stop_needs_start (env : Env) (stored : Database)
    (pre : list (result message)) (s0 s : State) (m : message) :
  accept_call env (boot stored) = (Ok tt, s0) ->
  message_loop env pre s0 = (Awaiting, s) ->
  has_type m "stop" = true ->
  audio_buffer s <> [] ->
  (forallb (fun received => negb (starts received)) pre = true ->
   turn_start_time s = None /\
   current_turn_id s = None /\
   handle env m s = (Raise TypeError, s)) /\
  (forall c s', handle env m s = (Ok c, s') -> existsb starts pre = true).
Proof.
  intros Hacc Hloop Hm Hb.
  assert (No : forallb (fun received => negb (starts received)) pre = true ->
               turn_start_time s = None /\
               current_turn_id s = None /\
               handle env m s = (Raise TypeError, s)).
  { intros Hpre.
    destruct (loop_without_start env pre s0 s Hloop Hpre) as [Ht Hc].
    apply accept_call_any in Hacc as (_ & _ & Hnone).
    destruct (Hnone eq_refl) as (Ht0 & Hc0 & _).
    rewrite Ht0 in Ht. rewrite Hc0 in Hc.
    split; [exact Ht|]. split; [exact Hc|].
    rewrite handle_stop by exact Hm. rewrite on_stop_run.
    destruct (audio_buffer s); [congruence|].
    unfold process_turn, bind. rewrite open_turn_run, Ht. reflexivity. }
  split; [exact No|].
  intros c s' Hok.
  destruct (existsb starts pre) eqn:Hex; [reflexivity|].
  assert (Hpre : forallb (fun received => negb (starts received)) pre = true).
  { apply forallb_forall. intros x Hx. apply negb_true_iff.
    destruct (starts x) eqn:Hs; [|reflexivity].
    assert (existsb starts pre = true)
      by (apply existsb_exists; exists x; split; assumption).
    congruence. }
  destruct (No Hpre) as (_ & _ & Hraise). congruence.
Qed.

(** ** The log only grows *)

Lemma handle_log (env : Env) (m : message) (s s' : State) (r : result ctl) :
  handle env m s = (r, s') -> exists delta, log s' = log s ++ delta.
Proof.
  destruct (has_type m "start") eqn:Hstart.
  { rewrite handle_start by exact Hstart. rewrite on_start_run.
    destruct (pending_rollback (db s)); intros [= <- <-].
    - exists []. simpl. rewrite app_nil_r. reflexivity.
    - eexists. reflexivity. }
  destruct (has_type m "stop") eqn:Hstop.
  { rewrite handle_stop by exact Hstop. rewrite on_stop_run.
    destruct (audio_buffer s).
    - intros [= <- <-]. eexists. reflexivity.
    - destruct (process_turn env s) as [[[]|e] s1] eqn:E; intros [= <- <-];
        destruct (process_turn_any env s s1 _ E) as (_ & _ & Hlog & _);
        exact Hlog. }
  intros H. destruct (handle_other env m s s' r Hstart Hstop H) as [b ->].
  exists []. simpl. rewrite app_nil_r. reflexivity.
Qed.

Lemma message_loop_log (env : Env) (inbox : list (result message)) :
  forall s, exists delta, log (snd (message_loop env inbox s)) = log s ++ delta.
Proof.
  induction inbox as [|received rest IH]; intros s.
  - exists []. simpl. rewrite app_nil_r. reflexivity.
  - cbn [message_loop]. unfold bind, lift.
    destruct received as [m|e].
    2:{ exists []. simpl. rewrite app_nil_r. reflexivity. }
    destruct (handle env m s) as [[[]|e] s1] eqn:E; cbn [snd];
      destruct (handle_log env m s s1 _ E) as [d1 H1].
    + destruct (IH s1) as [d2 H2]. exists (d1 ++ d2).
      rewrite H2, H1, app_assoc. reflexivity.
    + exists d1. exact H1.
    + exists d1. exact H1.
Qed.

(** C4 (amended). The events of a turn that goes through are, in this
    order and with nothing in between: the placeholder partial transcript,
    the final transcript, then, only when generation ran, the reply tokens
    in order and one terminal reply event, then the audio chunks in order,
    then the done event.  They come after everything sent before the stop
    and before everything sent for later frames. *)
Theorem turn_events_in_order (env : Env) (m : message) (s s' : State)
    (rest : list (result message)) :
  has_type m "stop" = true ->
  audio_buffer s <> [] ->
  handle env m s = (Ok Continue, s') ->
  exists transcript confidence latency_ms generated audio later,
    let events :=
      turn_events transcript confidence latency_ms generated
                  (chunk_audio audio default_chunk_size) in
    (generated = None <-> silence_rule transcript confidence = true) /\
    sent (log s') = sent (log s) ++ events /\
    sent (log (snd (message_loop env (Ok m :: rest) s)))
    = sent (log s) ++ events ++ later.
Proof.
  intros Hm Hb Hok.
  assert (Hturn : process_turn env s = (Ok tt, s')).
  { rewrite handle_stop in Hok by exact Hm. rewrite on_stop_run in Hok.
    destruct (audio_buffer s); [congruence|].
    destruct (process_turn env s) as [[[]|e] s1]; [|discriminate].
    congruence. }
  destruct (process_turn_ok env s s' Hturn)
    as (t0 & raw & generated & audio & Hfacts).
  cbv zeta in Hfacts.
  destruct Hfacts as (_ & _ & _ & _ & Hgen & _ & _ & Hlog & _).
  destruct (message_loop_log env rest s') as [delta Hrest].
  eexists _, _, _, generated, audio, (sent delta). cbv zeta.
  split; [exact Hgen|].
  assert (Hsent : sent (log s')
                  = sent (log s) ++
                    turn_events (heard raw).1 (heard raw).2
                      (milliseconds
                         (Binary64.sub (time_time env (S (ticks_opened s)))
                                       t0))
                      generated (chunk_audio audio default_chunk_size)).
  { rewrite Hlog, sent_app, sent_turn_effects. reflexivity. }
  split; [exact Hsent|].
  cbn [message_loop]. unfold bind, lift. rewrite Hok.
  rewrite Hrest, sent_app, Hsent, app_assoc. reflexivity.
Qed.

(** C5. When generation runs, one non-final [assistant_text] event is sent
    per whitespace-separated word of the generated text, carrying the word
    and a trailing space except on the last one; then one final event
    carries the complete reply, which is the concatenation of the streamed
    tokens: the words joined by single spaces. *)
Theorem reply_streamed_by_word (env : Env) (transcript : string)
    (confidence : float) (s : State) (content : string) :
  silence_rule transcript confidence = false ->
  chat_completion env (ticks s) transcript = Ok content ->
  let words := Str.split content in
  let tokens := llm_chunks words in
  let reply := Str.join " " words in
  exists s',
    choose_reply env transcript confidence s = (Ok reply, s') /\
    sent (log s')
    = sent (log s) ++
      map (fun token => assistant_text token false None) tokens ++
      [assistant_text "" true (Some reply)] /\
    length tokens = length words /\
    (forall i word,
       words !! i = Some word ->
       tokens !! i
       = Some (word ++ (if (S i <? length words)%nat then " " else ""))%string)
    /\ Str.concat tokens = reply.
Proof.
  intros Hsil Hllm words tokens reply.
  rewrite choose_reply_run, Hsil, generate_reply_run, Hllm. cbv zeta.
  rewrite split_strip. fold words. fold tokens.
  assert (Hreply : Str.concat tokens = reply) by apply concat_llm_chunks.
  rewrite Hreply. eexists. split; [reflexivity|].
  split.
  { cbn [log set_log]. rewrite sent_app.
    change (sent (Call (Generate transcript) :: ?l)) with (sent l).
    rewrite sent_app, sent_token_effects. reflexivity. }
  split; [apply length_llm_chunks|].
  split; [|reflexivity].
  intros i word H. apply lookup_llm_chunks. exact H.
Qed.

(** C6. The synthesized audio of [n] bytes is sent in [ceil(n/8192)]
    chunk events, each the base64 text of a window of at most 8192 bytes,
    all full but possibly the last; decoding the chunks and concatenating
    them in order gives the audio back.  When there is a chunk, the time
    to first audio, which is the clock reading made for the first chunk
    less the turn start, is set on the turn (and nothing else of it is
    changed), and the turn is stored with it by the one commit of the
    stage, made before the first chunk is sent; when there is no chunk
    the turn and the store are as before.  One done event follows the
    last chunk. *)
Theorem audio_chunked (env : Env) (reply : string) (turn : Turn.t)
    (s : State) (t0 : Q) (key : string) (audio : list byte) :
  turn_start_time s = Some t0 ->
  pending_rollback (db s) = false ->
  Turn.id turn = Some key ->
  gTTS env (ticks s) reply = Ok audio ->
  let chunks := chunk_audio audio 8192 in
  length chunks = ceil_div (length audio) 8192 /\
  (forall count, length audio <= count * 8192 <-> length chunks <= count) /\
  (forall i chunk,
     chunks !! i = Some chunk ->
     length chunk <= 8192 /\
     (S i < length chunks -> length chunk = 8192)) /\
  concat (map Base64.b64decode (map Base64.b64encode chunks)) = audio /\
  Base64.b64encode [x49; x44; x33; x04] = "SUQzBA=="%string /\
  exists turn' s',
    speak env reply turn s = (Ok turn', s') /\
    sent (log s')
    = sent (log s) ++
      map (fun chunk => tts_audio_chunk (Base64.b64encode chunk)) chunks ++
      [tts_done] /\
    log s'
    = log s ++
      Call (Synthesize reply) ::
      match chunks with [] => [] | _ :: _ => [Commit] end ++
      flat_map (fun chunk => [Send (tts_audio_chunk (Base64.b64encode chunk));
                              Sleep (1 # 100)]) chunks ++
      [Send tts_done] /\
    (forall k, k <> key -> turns (db s') !! k = turns (db s) !! k) /\
    match chunks with
    | [] => turn' = turn /\ db s' = db s
    | _ :: _ =>
        Turn.time_to_first_audio turn'
        = Some (Binary64.sub (time_time env (2 + ticks s)) t0) /\
        turn'
        = Turn.mk (Turn.id turn) (Turn.session_id turn)
                  (Turn.user_transcript_final turn) (Turn.assistant_text turn)
                  (Turn.started_at turn) (Turn.ended_at turn)
                  (Turn.time_to_first_partial turn)
                  (Turn.time_to_final_transcript turn)
                  (Some (Binary64.sub (time_time env (2 + ticks s)) t0)) /\
        turns (db s') !! key = Some turn'
    end.
Proof.
  intros Ht Hp Hk Htts chunks.
  assert (Hpos : 0 < 8192) by apply Nat.lt_0_succ.
  split; [apply length_chunk_audio; exact Hpos|].
  split.
  { intros count. unfold chunks. rewrite length_chunk_audio by exact Hpos.
    apply ceil_div_least. exact Hpos. }
  split.
  { intros i chunk H. split.
    - exact (chunk_audio_le audio _ i chunk H).
    - exact (chunk_audio_full audio _ i chunk H). }
  split.
  { rewrite decode_chunks. apply concat_chunk_audio. exact Hpos. }
  split; [reflexivity|].
  rewrite (speak_run env reply turn s t0 key Ht Hp Hk), Htts.
  change (chunk_audio audio default_chunk_size) with chunks.
  destruct chunks as [|c cs] eqn:Hch.
  - eexists _, _. split; [reflexivity|].
    split; [cbn [log set_log]; rewrite sent_app; reflexivity|].
    repeat split; reflexivity.
  - cbv zeta. eexists _, _. split; [reflexivity|].
    split.
    { cbn [log set_log]. rewrite sent_app.
      change (sent (Call (Synthesize reply) :: Commit :: ?l)) with (sent l).
      rewrite sent_app, sent_audio_effects. reflexivity. }
    split; [reflexivity|]. split.
    { intros k Hne. cbn [db set_log set_db set_ticks put_turn turns].
      apply lookup_insert_ne. congruence. }
    split; [reflexivity|]. split; [destruct turn; reflexivity|].
    cbn [db set_log set_db set_ticks put_turn turns]. apply lookup_insert_eq.
Qed.

(** ** A remote service that raises *)

Lemma message_loop_app (env : Env) (pre post : list (result message)) :
  forall s0 s,
    message_loop env pre s0 = (Awaiting, s) ->
    message_loop env (pre ++ post) s0 = message_loop env post s.
Proof.
  induction pre as [|received pre IH]; intros s0 s.
  - intros [= <-]. reflexivity.
  - cbn [message_loop app]. unfold bind, lift.
    destruct received as [m|e]; [|discriminate].
    destruct (handle env m s0) as [[[]|e] s1]; try discriminate.
    apply IH.
Qed.

Ltac no_dup :=
  repeat (apply NoDup_cons; split;
          [rewrite ?elem_of_cons, elem_of_nil; intuition discriminate|]);
  apply NoDup_nil; exact I.

Ltac raised :=
  eexists _, _; split; [reflexivity|];
  split; [cbn [log set_log set_db set_ticks set_audio_buffer asked opened];
          rewrite <- ?app_assoc; rewrite requests_app;
          apply (f_equal (app _));
          simpl; rewrite ?requests_app, ?requests_token_effects; simpl;
          reflexivity|];
  split; [no_dup|];
  split; [assumption|reflexivity].

Lemma process_turn_raises (env : Env) (s : State) (t0 : Q) (key : string)
    (e : exn) :
  turn_start_time s = Some t0 ->
  current_turn_id s = Some key ->
  pending_rollback (db s) = false ->
  turns (db s) !! key = None ->
  collaborator_raises env s e ->
  exists s1 attempts,
    process_turn env s = (Raise e, s1) /\
    requests (log s1) = requests (log s) ++ attempts /\
    NoDup attempts /\
    pending_rollback (db s1) = false /\
    session s1 = session s.
Proof.
  intros Ht Hk Hp Hn Hraise.
  assert (Hkey : turn_key env s = key) by (unfold turn_key; rewrite Hk; reflexivity).
  assert (Hticks : ticks_opened s = ticks s)
    by (unfold ticks_opened; rewrite Hk; reflexivity).
  unfold process_turn. unfold bind at 1.
  rewrite open_turn_run, Ht, Hp, Hkey, Hn. cbn [fst snd].
  set (s1 := opened env s t0). unfold bind at 1.
  rewrite (recognise_run env _ _ s1 t0 key);
    [|exact Ht|exact Hp|reflexivity].
  change (ticks s1) with (ticks_opened s). rewrite Hticks.
  destruct Hraise as [Hasr|raw Hasr Hsil Hllm|raw generated Hasr Htts];
    rewrite Hasr.
  - subst s1. raised.
  - cbv beta iota zeta. cbn [fst snd].
    match goal with |- context [bind _ _ ?st] => set (s2 := st) end.
    unfold bind at 1. rewrite choose_reply_run, Hsil, generate_reply_run.
    change (ticks s2) with (2 + ticks s). rewrite Hllm.
    subst s2 s1. raised.
  - cbv beta iota zeta. cbn [fst snd].
    set (turn1 := recognised env raw t0 _ s1).
    match goal with |- context [bind _ _ ?st] => set (s2 := st) end.
    unfold bind at 1. rewrite choose_reply_run.
    assert (Hn2 : ticks s2 = 2 + ticks s) by reflexivity.
    destruct generated as [tokens|].
    + destruct Htts as (Hsil & (content & Hllm & ->) & Htts).
      rewrite Hsil, generate_reply_run, Hn2, Hllm. cbv beta iota zeta.
      match goal with |- context [bind _ _ ?st] => set (s3 := st) end.
      unfold bind at 1.
      rewrite (speak_run env _ _ s3 t0 key);
        [|exact Ht|exact Hp|reflexivity].
      change (ticks s3) with (S (ticks s2)). rewrite Hn2.
      change (S (2 + ticks s)) with (3 + ticks s). rewrite Htts.
      subst s3 s2 turn1 s1. raised.
    + destruct Htts as (Hsil & Htts). rewrite Hsil. unfold bind at 1.
      rewrite (speak_run env _ _ s2 t0 key);
        [|exact Ht|exact Hp|reflexivity].
      rewrite Hn2, Htts. subst s2 turn1 s1. raised.
Qed.

(** C3 (amended). When one of the three services raises during a turn,
    the exception is not caught in the loop: the iteration ends with it,
    the frames that follow are never read, no request has been made twice,
    and the handler leaves through its cleanup, which marks the call
    ended and commits that; the exception then leaves the handler (unless
    it is a [WebSocketDisconnect], which is logged and swallowed). *)
Theorem collaborator_failure_ends_call (env : Env) (m : message) (s : State)
    (t0 : Q) (key : string) (e : exn) (rest : list (result message)) :
  has_type m "stop" = true ->
  audio_buffer s <> [] ->
  turn_start_time s = Some t0 ->
  current_turn_id s = Some key ->
  pending_rollback (db s) = false ->
  turns (db s) !! key = None ->
  collaborator_raises env s e ->
  exists s1 attempts,
    handle env m s = (Raise e, s1) /\
    message_loop env (Ok m :: rest) s = (Raised e, s1) /\
    requests (log s1) = requests (log s) ++ attempts /\
    NoDup attempts /\
    forall stored pre s0,
      accept_call env (boot stored) = (Ok tt, s0) ->
      message_loop env pre s0 = (Awaiting, s) ->
      let final := websocket_call env stored (pre ++ Ok m :: rest) in
      fst final = (if exn_is_disconnect e then Returned else Failed e) /\
      session (snd final)
      = CallSession.mk (CallSession.id (session s))
                       (CallSession.created_at (session s))
                       (Some (time_time env (ticks s1))) "ended" /\
      call_sessions (db (snd final)) !! CallSession.id (session s)
      = Some (session (snd final)).
Proof.
  intros Hm Hb Ht Hk Hp Hn Hraise.
  destruct (process_turn_raises env s t0 key e Ht Hk Hp Hn Hraise)
    as (s1 & attempts & Hturn & Hreq & Hnodup & Hp1 & Hses).
  assert (Hhandle : handle env m s = (Raise e, s1)).
  { rewrite handle_stop by exact Hm. rewrite on_stop_run.
    destruct (audio_buffer s); [congruence|]. rewrite Hturn. reflexivity. }
  assert (Hloop : message_loop env (Ok m :: rest) s = (Raised e, s1)).
  { cbn [message_loop]. unfold bind, lift. rewrite Hhandle. reflexivity. }
  exists s1, attempts.
  split; [exact Hhandle|]. split; [exact Hloop|].
  split; [exact Hreq|]. split; [exact Hnodup|].
  intros stored pre s0 Hacc Hpre. cbv zeta. unfold websocket_call.
  rewrite Hacc, (message_loop_app env pre _ s0 s Hpre), Hloop.
  destruct (exn_is_disconnect e).
  - unfold bind, emit, modify. rewrite cleanup_run. cbv zeta.
    cbn [db set_log]. rewrite Hp1. cbn [finish fst snd].
    split; [reflexivity|]. cbn [session set_log set_db set_session set_ticks].
    rewrite Hses. split; [reflexivity|].
    cbn [db set_log set_db call_sessions put_session CallSession.id
         set_session_ended_at set_status].
    apply lookup_insert_eq.
  - rewrite cleanup_run. cbv zeta. rewrite Hp1. cbn [finish fst snd].
    split; [reflexivity|]. cbn [session set_log set_db set_session set_ticks].
    rewrite Hses. split; [reflexivity|].
    cbn [db set_log set_db call_sessions put_session CallSession.id
         set_session_ended_at set_status].
    apply lookup_insert_eq.
Qed.

(** ** Latencies *)


(** No row written by the call ever has its time to first partial set. *)
Lemma first_partial_never_set (env : Env) (stored : Database)
    (inbox : list (result message)) (key : string) (row : Turn.t) :
  turns (db (snd (websocket_call env stored inbox))) !! key = Some row ->
  turns stored !! key = None ->
  Turn.time_to_first_partial row = None.
Proof.
  intros Hrow Hnew.
  destruct (inv_websocket_call env stored inbox) as [_ Rows].
  destruct (Rows key row Hrow) as [Old|[Hp _]]; [congruence|exact Hp].
Qed.

(** ** The session registry *)

(** C8. Registration stores a fresh mapping and fails on an identifier
    already present; removal is idempotent; operations on one identifier
    leave the entry of any other as it was, so that two calls registered
    under different identifiers with different handles are each found
    under their own identifier and never under the other's. *)
Theorem registry_isolation {Handle : Type} (r : gmap string Handle)
    (a b : string) (ha hb : Handle) :
  (r !! a = None ->
   exists r', Registry.register a ha r = Some r' /\
              Registry.lookup a r' = Some ha) /\
  (is_Some (r !! a) -> Registry.register a ha r = None) /\
  Registry.unregister a (Registry.unregister a r) = Registry.unregister a r /\
  Registry.lookup a (Registry.unregister a r) = None /\
  (a <> b ->
   (forall r', Registry.register a ha r = Some r' ->
               Registry.lookup b r' = Registry.lookup b r) /\
   Registry.lookup b (Registry.unregister a r) = Registry.lookup b r /\
   (ha <> hb ->
    forall r1 r2,
      Registry.register a ha r = Some r1 ->
      Registry.register b hb r1 = Some r2 ->
      Registry.lookup a r2 = Some ha /\
      Registry.lookup b r2 = Some hb /\
      Registry.lookup b r2 <> Some ha /\
      Registry.lookup a r2 <> Some hb /\
      Registry.lookup b (Registry.unregister a r2) = Some hb)).
Proof.
  unfold Registry.register, Registry.lookup, Registry.unregister.
  split.
  { intros H. rewrite H. eexists. split; [reflexivity|].
    apply lookup_insert_eq. }
  split.
  { intros [h H]. rewrite H. reflexivity. }
  split.
  { apply map_eq. intros i. destruct (decide (a = i)) as [->|Hne].
    - rewrite !lookup_delete_eq. reflexivity.
    - rewrite !lookup_delete_ne by exact Hne. reflexivity. }
  split; [apply lookup_delete_eq|].
  intros Hab. split.
  { intros r'. destruct (r !! a); [discriminate|]. intros [= <-].
    apply lookup_insert_ne. exact Hab. }
  split; [apply lookup_delete_ne; exact Hab|].
  intros Hh r1 r2.
  destruct (r !! a); [discriminate|]. intros [= <-].
  destruct (<[a:=ha]> r !! b); [discriminate|]. intros [= <-].
  assert (Ha : <[b:=hb]> (<[a:=ha]> r) !! a = Some ha).
  { rewrite lookup_insert_ne by congruence. apply lookup_insert_eq. }
  assert (Hb' : <[b:=hb]> (<[a:=ha]> r) !! b = Some hb)
    by apply lookup_insert_eq.
  split; [exact Ha|]. split; [exact Hb'|].
  split; [rewrite Hb'; congruence|]. split; [rewrite Ha; congruence|].
  rewrite lookup_delete_ne by exact Hab. exact Hb'.
Qed.

(** * The claims on sample calls *)

Example strip_trims : Str.strip "  a b   c  " = "a b   c".
Proof. reflexivity. Qed.

Example split_words : Str.split " You  said:
 hi " = ["You"; "said:"; "hi"].
Proof. reflexivity. Qed.

Example chunks_of_words : llm_chunks ["a"; "b"; "c"] = ["a "; "b "; "c"].
Proof. reflexivity. Qed.

Example round_half_even :
  (py_round (5 # 2), py_round (7 # 2), py_round (-5 # 2), py_round (26 # 10))
  = (2, 4, -2, 3)%Z.
Proof. reflexivity. Qed.

Example b64_of_id3 : Base64.b64encode [x49; x44; x33; x04] = "SUQzBA==".
Proof. reflexivity. Qed.

Example two_windows :
  map (@length byte) (chunk_audio (repeat x00 8193) default_chunk_size)
  = [8192; 1].
Proof. vm_compute. reflexivity. Qed.

(** The rounding of [Binary64] is the one of the machine. *)
Example binary64_agrees_with_machine :
  forallb (fun ab =>
             Binary64.agrees Binary64.sub PrimFloat.sub (fst ab) (snd ab) &&
             Binary64.agrees Binary64.mul PrimFloat.mul (fst ab) (snd ab))
          [(0.3, 0.1); (0.0005, 1000); (1762200000.7, 1762199999.9);
           (1e16, 0.3); (9007199254740993, 0.5); (4.9e-324, 0.75);
           (2.2250738585072014e-308, 0.9999999999999999);
           (123456789.123456789, 1000); (1e-310, 1e-10); (-0.7, 0.3);
           (100, 1e-30); (1.5, 4.9e-324)]%float
  = true.
Proof. vm_compute. reflexivity. Qed.

Example call_accepted :
  accept_call Demo.env_heard (boot Demo.no_rows) = (Ok tt, Demo.accepted).
Proof. vm_compute. reflexivity. Qed.

Example call_recording :
  message_loop Demo.env_heard [Demo.start; Demo.audio] Demo.accepted
  = (Awaiting, Demo.recording).
Proof. vm_compute. reflexivity. Qed.

Example heard_turn :
  turns (db (snd (websocket_call Demo.env_heard Demo.no_rows Demo.one_turn)))
  !! "iii#" = Some Demo.heard_row.
Proof. vm_compute. reflexivity. Qed.

(** The silence policy on the turn of [one_turn] when only silence is
    recognised. *)
Lemma silence_policy_witness :
  process_turn Demo.env_silence Demo.recording
  = (Ok tt, Demo.after_turn Demo.env_silence) /\
  exists raw generated row,
    turns (db (Demo.after_turn Demo.env_silence)) !! "iii#" = Some row /\
    Turn.assistant_text row
    = Some match generated with
           | None => "I'm sorry, I didn't catch that. Could you repeat?"
           | Some tokens => Str.concat tokens
           end /\
    (generated = None <->
     Str.strip raw = "" \/
     PrimFloat.ltb (if whitespace_only raw then 0 else 0.9) 0.3 = true).
Proof.
  assert (H : process_turn Demo.env_silence Demo.recording
              = (Ok tt, Demo.after_turn Demo.env_silence))
    by (vm_compute; reflexivity).
  split; [exact H|].
  destruct (silence_policy _ _ _ H)
    as [(raw & generated & row & latency_ms & _ & _ & _ & _ & Hrow & _ &
         Hreply & Hrule) _].
  exists raw, generated, row.
  split; [exact Hrow|]. split; [exact Hreply|exact Hrule].
Defined.

(** A stop right after the call is accepted. *)
Lemma empty_stop_rejected_witness :
  has_type (control "stop") "stop" = true /\
  audio_buffer Demo.accepted = [] /\
  exists s',
    handle Demo.env_heard (control "stop") Demo.accepted
    = (Ok Continue, s') /\
    db s' = db Demo.accepted.
Proof.
  assert (H1 : has_type (control "stop") "stop" = true) by reflexivity.
  assert (H2 : audio_buffer Demo.accepted = [])
    by reflexivity.
  split; [exact H1|]. split; [exact H2|].
  destruct (empty_stop_rejected Demo.env_heard (control "stop")
              Demo.accepted [] H1 H2)
    as (s' & Hh & _ & _ & _ & Hdb & _).
  exists s'. split; [exact Hh|exact Hdb].
Defined.

(** Audio, then a stop, with no start before. *)
Lemma stop_needs_start_witness :
  accept_call Demo.env_heard (boot Demo.no_rows)
  = (Ok tt, Demo.accepted) /\
  message_loop Demo.env_heard [Demo.audio] Demo.accepted
  = (Awaiting,
     set_audio_buffer [x01; x02] Demo.accepted) /\
  handle Demo.env_heard (control "stop")
         (set_audio_buffer [x01; x02] Demo.accepted)
  = (Raise TypeError,
     set_audio_buffer [x01; x02] Demo.accepted).
Proof.
  assert (H1 : accept_call Demo.env_heard (boot Demo.no_rows)
               = (Ok tt, Demo.accepted))
    by (vm_compute; reflexivity).
  assert (H2 : message_loop Demo.env_heard [Demo.audio]
                 Demo.accepted
               = (Awaiting,
                  set_audio_buffer [x01; x02] Demo.accepted))
    by (vm_compute; reflexivity).
  split; [exact H1|]. split; [exact H2|].
  apply (stop_needs_start Demo.env_heard Demo.no_rows [Demo.audio]
           _ _ (control "stop") H1 H2).
  - reflexivity.
  - vm_compute. discriminate.
  - reflexivity.
Defined.

(** The events of the turn of [one_turn] when speech is recognised. *)
Lemma turn_events_in_order_witness :
  has_type (control "stop") "stop" = true /\
  audio_buffer Demo.recording <> [] /\
  handle Demo.env_heard (control "stop") Demo.recording
  = (Ok Continue, Demo.after_turn Demo.env_heard) /\
  exists transcript confidence latency_ms generated audio,
    sent (log (Demo.after_turn Demo.env_heard))
    = sent (log Demo.recording) ++
      turn_events transcript confidence latency_ms generated
                  (chunk_audio audio default_chunk_size).
Proof.
  assert (H1 : has_type (control "stop") "stop" = true) by reflexivity.
  assert (H2 : audio_buffer Demo.recording <> [])
    by (vm_compute; discriminate).
  assert (H3 : handle Demo.env_heard (control "stop")
                 Demo.recording
               = (Ok Continue, Demo.after_turn Demo.env_heard))
    by (vm_compute; reflexivity).
  split; [exact H1|]. split; [exact H2|]. split; [exact H3|].
  destruct (turn_events_in_order Demo.env_heard (control "stop") _ _ []
              H1 H2 H3)
    as (transcript & confidence & latency_ms & generated & audio & later &
        _ & Hsent & _).
  exists transcript, confidence, latency_ms, generated, audio. exact Hsent.
Defined.

(** The reply to "hello world", word by word. *)
Lemma reply_streamed_by_word_witness :
  silence_rule "hello world" 0.9%float = false /\
  chat_completion Demo.env_heard 6 "hello world"
  = Ok "You  said: hello world " /\
  exists s',
    choose_reply Demo.env_heard "hello world" 0.9%float
                 (set_ticks 6 Demo.recording)
    = (Ok "You said: hello world", s') /\
    sent (log s')
    = sent (log Demo.recording) ++
      [assistant_text "You " false None; assistant_text "said: " false None;
       assistant_text "hello " false None; assistant_text "world" false None;
       assistant_text "" true (Some "You said: hello world")].
Proof.
  assert (H1 : silence_rule "hello world" 0.9%float = false) by reflexivity.
  assert (H2 : chat_completion Demo.env_heard
                 (ticks (set_ticks 6 Demo.recording))
                 "hello world"
               = Ok "You  said: hello world ") by reflexivity.
  split; [exact H1|]. split; [exact H2|].
  destruct (reply_streamed_by_word Demo.env_heard "hello world" 0.9%float
              _ _ H1 H2) as (s' & Hrun & Hsent & _).
  exists s'. split; [exact Hrun|exact Hsent].
Defined.

(** Four bytes of audio make one chunk. *)
Lemma audio_chunked_witness :
  turn_start_time Demo.recording = Some 2%Q /\
  pending_rollback (db Demo.recording) = false /\
  Turn.id (fresh_turn "iii#" "#" 2) = Some "iii#" /\
  gTTS Demo.env_heard (ticks Demo.recording) "hello"
  = Ok [x49; x44; x33; x04] /\
  length (chunk_audio [x49; x44; x33; x04] 8192) = 1 /\
  exists turn' s',
    speak Demo.env_heard "hello" (fresh_turn "iii#" "#" 2)
          Demo.recording
    = (Ok turn', s') /\
    sent (log s')
    = sent (log Demo.recording) ++
      [tts_audio_chunk "SUQzBA=="; tts_done].
Proof.
  assert (H1 : turn_start_time Demo.recording = Some 2%Q)
    by reflexivity.
  assert (H2 : pending_rollback (db Demo.recording) = false)
    by reflexivity.
  assert (H3 : Turn.id (fresh_turn "iii#" "#" 2) = Some "iii#")
    by reflexivity.
  assert (H4 : gTTS Demo.env_heard (ticks Demo.recording)
                 "hello" = Ok [x49; x44; x33; x04]) by reflexivity.
  split; [exact H1|]. split; [exact H2|]. split; [exact H3|].
  split; [exact H4|].
  destruct (audio_chunked Demo.env_heard "hello" _ _ _ _ _ H1 H2 H3 H4)
    as (Hlen & _ & _ & _ & _ & turn' & s' & Hrun & Hsent & _).
  split; [exact Hlen|].
  exists turn', s'. split; [exact Hrun|exact Hsent].
Defined.

(** The recogniser is down when the stop of the first of two turns
    arrives. *)
Lemma collaborator_failure_ends_call_witness :
  has_type (control "stop") "stop" = true /\
  audio_buffer Demo.recording <> [] /\
  turn_start_time Demo.recording = Some 2%Q /\
  current_turn_id Demo.recording = Some "iii#" /\
  pending_rollback (db Demo.recording) = false /\
  turns (db Demo.recording) !! "iii#" = None /\
  collaborator_raises Demo.env_stt_down Demo.recording
                      (Exception "stt unavailable") /\
  exists s1,
    message_loop Demo.env_stt_down
                 [Demo.stop; Demo.start; Demo.audio; Demo.stop]
                 Demo.recording
    = (Raised (Exception "stt unavailable"), s1).
Proof.
  assert (H1 : has_type (control "stop") "stop" = true) by reflexivity.
  assert (H2 : audio_buffer Demo.recording <> [])
    by (vm_compute; discriminate).
  assert (H3 : turn_start_time Demo.recording
               = Some 2%Q) by reflexivity.
  assert (H4 : current_turn_id Demo.recording
               = Some "iii#") by reflexivity.
  assert (H5 : pending_rollback (db Demo.recording)
               = false) by reflexivity.
  assert (H6 : turns (db Demo.recording) !! "iii#"
               = None) by reflexivity.
  assert (H7 : collaborator_raises Demo.env_stt_down
                 Demo.recording
                 (Exception "stt unavailable"))
    by (apply stt_raises; reflexivity).
  repeat (split; [assumption|]).
  destruct (collaborator_failure_ends_call Demo.env_stt_down
              (control "stop") _ _ _ _ [Demo.start; Demo.audio; Demo.stop]
              H1 H2 H3 H4 H5 H6 H7)
    as (s1 & attempts & _ & Hloop & _).
  exists s1. exact Hloop.
Defined.




(** C3, as stated, fails: with the recogniser down, the first stop ends the
    handler with the recogniser's exception; the call is marked ended and
    the second turn of the inbox is never started. *)
Lemma stt_failure_ends_connection :
  let final :=
    websocket_call Demo.env_stt_down Demo.no_rows Demo.two_turns in
  fst final = Failed (Exception "stt unavailable") /\
  sent (log (snd final))
  = [session_id_event "#"; trace_event "turn_started" (Some "iii#") 2;
     stt_partial "..."] /\
  requests (log (snd final)) = [Transcribe [x01; x02]] /\
  CallSession.status (session (snd final)) = "ended".
Proof. vm_compute. repeat split; reflexivity. Qed.

(** C4, as stated, fails on the fallback branch: the turn goes through and
    no reply event at all is sent for it, so no terminal one. *)
Lemma fallback_turn_has_no_reply_event :
  let final :=
    websocket_call Demo.env_silence Demo.no_rows Demo.one_turn in
  fst final = Suspended /\
  sent (log (snd final))
  = [session_id_event "#"; trace_event "turn_started" (Some "iii#") 2;
     stt_partial "..."; stt_final "" 0%float 3000;
     tts_audio_chunk "SUQzBA=="; tts_done] /\
  (exists row,
     turns (db (snd final)) !! "iii#" = Some row /\
     Turn.assistant_text row = Some fallback_reply /\
     Turn.ended_at row = Some 9%Q) /\
  forall text full,
    ~ In (assistant_text text true full) (sent (log (snd final))).
Proof.
  cbv zeta.
  assert (E : sent (log (snd (websocket_call Demo.env_silence Demo.no_rows
                                Demo.one_turn)))
              = [session_id_event "#";
                 trace_event "turn_started" (Some "iii#") 2;
                 stt_partial "..."; stt_final "" 0%float 3000;
                 tts_audio_chunk "SUQzBA=="; tts_done])
    by (vm_compute; reflexivity).
  split; [vm_compute; reflexivity|]. split; [exact E|]. split.
  - eexists. split; [vm_compute; reflexivity|]. split; reflexivity.
  - intros text full H. rewrite E in H. simpl in H.
    intuition discriminate.
Qed.

(** C9 on a call with one turn: the placeholder partial transcript is
    sent and the turn goes through with its two other latencies stored,
    yet its time to first partial is still unset. *)
Lemma first_partial_missing :
  let final := websocket_call Demo.env_heard Demo.no_rows Demo.one_turn in
  In (stt_partial "...") (sent (log (snd final))) /\
  exists row,
    turns (db (snd final)) !! "iii#" = Some row /\
    Turn.ended_at row = Some 10%Q /\
    Turn.time_to_final_transcript row = Some 3%Q /\
    Turn.time_to_first_audio row = Some 7%Q /\
    Turn.time_to_first_partial row = None.
Proof.
  cbv zeta. split.
  - vm_compute. tauto.
  - exists Demo.heard_row. split; [vm_compute; reflexivity|].
    repeat split; reflexivity.
Qed.

(** * Further properties of the handler *)

(** ** The audio buffer *)

Lemma set_audio_buffer_same (s : State) :
  set_audio_buffer (audio_buffer s) s = s.
Proof. destruct s; reflexivity. Qed.

Lemma handle_audio_frame (env : Env) (piece : list byte) (s : State) :
  handle env (audio_frame piece) s
  = (Ok Continue, set_audio_buffer (audio_buffer s ++ piece) s).
Proof.
  unfold handle, audio_frame. cbn [m_bytes m_text].
  destruct piece as [|b bs].
  - unfold ret. rewrite app_nil_r, set_audio_buffer_same. reflexivity.
  - reflexivity.
Qed.

Lemma loop_audio_frames (env : Env) (pieces : list (list byte)) :
  forall s,
    message_loop env (audio_frames pieces) s
    = (Awaiting,
       set_audio_buffer (audio_buffer s ++ join_bytes pieces) s).
Proof.
  unfold audio_frames, join_bytes.
  induction pieces as [|piece rest IH]; intros s.
  - simpl. rewrite app_nil_r, set_audio_buffer_same. reflexivity.
  - cbn [map message_loop concat]. unfold bind, lift.
    rewrite handle_audio_frame, IH. cbn [audio_buffer set_audio_buffer].
    rewrite <- app_assoc. reflexivity.
Qed.

(** X1. Audio frames only grow the buffer: after the frames of any pieces
    of audio (empty ones included) the loop is waiting, the buffer is the
    old buffer followed by the pieces in order, and nothing else has
    changed (nothing sent, asked, committed or read from the clock). *)
Theorem audio_frames_accumulate (env : Env) (pieces : list (list byte))
    (s : State) :
  message_loop env (audio_frames pieces) s
  = (Awaiting, set_audio_buffer (audio_buffer s ++ join_bytes pieces) s).
Proof. exact (loop_audio_frames env pieces s). Qed.

Lemma loop_start_frames (env : Env) (m : message)
    (pieces : list (list byte)) (s : State) :
  has_type m "start" = true ->
  pending_rollback (db s) = false ->
  message_loop env (Ok m :: audio_frames pieces) s
  = (Awaiting, set_audio_buffer (join_bytes pieces) (started env s)).
Proof.
  intros Hm Hp. cbn [message_loop]. unfold bind, lift.
  rewrite handle_start by exact Hm. rewrite on_start_run, Hp.
  rewrite loop_audio_frames. reflexivity.
Qed.

Lemma handle_stop_turn (env : Env) (m : message) (s : State) :
  has_type m "stop" = true ->
  audio_buffer s <> [] ->
  handle env m s
  = match process_turn env s with
    | (Ok _, s') => (Ok Continue, s')
    | (Raise e, s') => (Raise e, s')
    end.
Proof.
  intros Hm Hb. rewrite handle_stop by exact Hm. rewrite on_stop_run.
  destruct (audio_buffer s); [congruence|reflexivity].
Qed.

(** One whole turn that goes through: start, audio, stop. *)
Lemma loop_turn_run (env : Env) (m_start m_stop : message)
    (pieces : list (list byte)) (s s' : State) :
  has_type m_start "start" = true ->
  has_type m_stop "stop" = true ->
  pending_rollback (db s) = false ->
  join_bytes pieces <> [] ->
  message_loop env (Ok m_start :: audio_frames pieces ++ [Ok m_stop]) s
  = (Awaiting, s') ->
  process_turn env (set_audio_buffer (join_bytes pieces) (started env s))
  = (Ok tt, s').
Proof.
  intros Hstart Hstop Hp Hne Hloop.
  change (Ok m_start :: audio_frames pieces ++ [Ok m_stop])
    with ((Ok m_start :: audio_frames pieces) ++ [Ok m_stop]) in Hloop.
  rewrite (message_loop_app env _ _ s _
             (loop_start_frames env m_start pieces s Hstart Hp)) in Hloop.
  cbn [message_loop] in Hloop. unfold bind, lift in Hloop.
  rewrite handle_stop_turn in Hloop by assumption.
  destruct (process_turn env _) as [[[]|e] s2]; [|discriminate].
  injection Hloop as <-. reflexivity.
Qed.

(** X2. The audio transcribed for a turn is what arrived between its start
    and its stop: whatever the buffer held before the start is dropped,
    the one transcription request of the turn carries the pieces received
    since, in order, and the turn leaves the buffer empty. *)
Theorem turn_transcribes_frames_since_start (env : Env)
    (m_start m_stop : message) (pieces : list (list byte)) (s s' : State) :
  has_type m_start "start" = true ->
  has_type m_stop "stop" = true ->
  pending_rollback (db s) = false ->
  join_bytes pieces <> [] ->
  message_loop env (Ok m_start :: audio_frames pieces ++ [Ok m_stop]) s
  = (Awaiting, s') ->
  exists later,
    requests (log s')
    = requests (log s) ++ Transcribe (join_bytes pieces) :: later /\
    (forall audio, In (Transcribe audio) later -> False) /\
    audio_buffer s' = [].
Proof.
  intros Hstart Hstop Hp Hne Hloop.
  pose proof (loop_turn_run env m_start m_stop pieces s s' Hstart Hstop Hp
                Hne Hloop) as Hturn.
  destruct (process_turn_ok env _ s' Hturn)
    as (t0 & raw & generated & audio & Hfacts).
  cbv zeta in Hfacts.
  destruct Hfacts as (_ & _ & _ & _ & _ & _ & _ & Hlog & _ & _ & Hbuf & _).
  eexists. split; [|split; [|exact Hbuf]].
  - rewrite Hlog, requests_app, requests_turn_effects.
    cbn [log set_audio_buffer started set_log]. rewrite requests_app.
    cbn [requests omap]. simpl. rewrite app_nil_r. reflexivity.
  - intros a Ha. apply in_app_or in Ha as [Ha|Ha].
    + destruct generated; simpl in Ha; intuition discriminate.
    + simpl in Ha. intuition discriminate.
Qed.

(** ** What a stop does to the tables and to the client *)

Lemma lookup_put_turn_key (key k : string) (r row : Turn.t) (d : Database) :
  turns (put_turn key r d) !! k = Some row ->
  (key <> k /\ turns d !! k = Some row) \/ (k = key /\ row = r).
Proof.
  unfold put_turn. simpl. rewrite lookup_insert. case_decide.
  - intros [= <-]. right. split; congruence.
  - intros H'. left. split; assumption.
Qed.

Lemma lookup_put_turn_other (key k : string) (r : Turn.t) (d : Database) :
  key <> k -> turns (put_turn key r d) !! k = turns d !! k.
Proof. intros H. unfold put_turn. simpl. apply lookup_insert_ne. exact H. Qed.

Ltac turn_events_only H :=
  repeat first
    [ contradiction
    | match type of H with _ = _ => rewrite <- H; reflexivity end
    | apply in_app_or in H as [H|H]
    | apply in_map_iff in H as (? & H & _)
    | rewrite sent_app in H
    | rewrite sent_audio_effects in H
    | rewrite sent_token_effects in H
    | progress simpl in H
    | destruct H as [H|H] ].

Ltac row_fact :=
  simpl;
  first
    [ reflexivity | assumption | discriminate
    | intros _; first [reflexivity|discriminate]
    | let H := fresh in
      intros H; first [discriminate H|destruct (H eq_refl)] ].

Ltac new_row H :=
  let Hne := fresh in
  try (apply lookup_put_turn_key in H as [[Hne H]|[-> ->]];
       [new_row H
       |first [congruence|right; repeat split; row_fact]]).

Ltac keeps_done :=
  cbv beta iota zeta; intros [= <- <-];
  repeat match goal with |- _ /\ _ => split end;
  [ (* rows already there stay *)
    let H := fresh in
    intros k row H;
    cbn [db asked opened set_log set_db set_ticks set_audio_buffer];
    first
      [ exact H
      | match goal with
        | Hn : turns (db ?s) !! ?key = None |- _ =>
            destruct (decide (key = k)) as [<-|Hne];
            [congruence|rewrite ?lookup_put_turn_other by exact Hne; exact H]
        end ]
  | (* rows that appear belong to this turn *)
    let H := fresh in
    intros k row H;
    cbn [db asked opened set_log set_db set_ticks set_audio_buffer] in H;
    new_row H; left; exact H
  | (* only the events of a turn *)
    cbn [log asked opened set_log set_db set_ticks set_audio_buffer];
    rewrite <- ?app_assoc;
    first
      [ exists []; split; [symmetry; apply app_nil_r|intros ? []]
      | eexists; split; [reflexivity|];
        let H := fresh in
        intros ev H;
        rewrite ?sent_app, ?sent_token_effects, ?sent_audio_effects in H;
        turn_events_only H ] ].

(** Whatever becomes of a stop: the rows that were in the table are still
    there, unchanged; a row that appears is stored under the turn's key,
    carries that id, the call's session id and the turn's start time, and
    has its reply and its end time exactly when the stop went through; and
    the events sent are those of a turn. *)
Lemma process_turn_keeps (env : Env) (s s' : State) (r : result unit) :
  process_turn env s = (r, s') ->
  (forall k row,
     turns (db s) !! k = Some row -> turns (db s') !! k = Some row) /\
  (forall k row,
     turns (db s') !! k = Some row ->
     turns (db s) !! k = Some row \/
     (k = turn_key env s /\ Turn.id row = Some k /\
      Turn.session_id row = session_id s /\
      Turn.started_at row
      = option_map datetime_of_timestamp (turn_start_time s) /\
      (Turn.user_transcript_final row <> None ->
       Turn.time_to_final_transcript row <> None) /\
      (r = Ok tt -> Turn.user_transcript_final row <> None) /\
      (Turn.assistant_text row <> None <-> r = Ok tt) /\
      (Turn.ended_at row <> None <-> r = Ok tt))) /\
  (exists delta,
     log s' = log s ++ delta /\
     forall ev, In ev (sent delta) -> turn_event ev = true).
Proof.
  unfold process_turn. unfold bind at 1. rewrite open_turn_run.
  destruct (turn_start_time s) as [t0|] eqn:Ht; [|keeps_done].
  destruct (pending_rollback (db s)) eqn:Hp; [keeps_done|].
  destruct (turns (db s) !! turn_key env s) eqn:Hn; [keeps_done|].
  cbn [fst snd]. set (s1 := opened env s t0). unfold bind at 1.
  rewrite (recognise_run env _ _ s1 t0 (turn_key env s));
    [|exact Ht|exact Hp|reflexivity].
  change (ticks s1) with (ticks_opened s).
  destruct (automatic_speech_recognition env (ticks_opened s) (audio_buffer s))
    as [raw|e] eqn:Hasr; [|subst s1; keeps_done].
  cbv beta iota zeta. cbn [fst snd].
  set (turn1 := recognised env raw t0 _ s1).
  match goal with |- bind _ _ ?st = _ -> _ => set (s2 := st) end.
  unfold bind at 1. rewrite choose_reply_run.
  assert (Ht2 : turn_start_time s2 = Some t0) by exact Ht.
  assert (Hp2 : pending_rollback (db s2) = false) by exact Hp.
  assert (Hk1 : Turn.id turn1 = Some (turn_key env s)) by reflexivity.
  assert (Hn2 : ticks s2 = 2 + ticks_opened s) by reflexivity.
  destruct (silence_rule (heard raw).1 (heard raw).2) eqn:Hsil.
  - unfold bind at 1.
    rewrite (speak_run env _ _ s2 t0 (turn_key env s)) by assumption.
    rewrite Hn2.
    destruct (gTTS env (2 + ticks_opened s) fallback_reply)
      as [audio|e] eqn:Htts;
      [|subst s2 turn1 s1; clear Ht2 Hp2 Hk1 Hn2; keeps_done].
    destruct (chunk_audio audio default_chunk_size) as [|c cs] eqn:Hch;
      cbv beta iota zeta;
      rewrite (close_turn_run env _ _ _ (turn_key env s))
        by (try reflexivity; assumption);
      subst s2 turn1 s1; clear Ht2 Hp2 Hk1 Hn2; keeps_done.
  - rewrite generate_reply_run. rewrite Hn2.
    destruct (chat_completion env (2 + ticks_opened s) (heard raw).1)
      as [content|e] eqn:Hllm;
      [|subst s2 turn1 s1; clear Ht2 Hp2 Hk1 Hn2; keeps_done].
    cbv beta iota zeta.
    set (tokens := llm_chunks (Str.split (Str.strip content))).
    match goal with |- bind _ _ ?st = _ -> _ => set (s3 := st) end.
    unfold bind at 1.
    rewrite (speak_run env _ _ s3 t0 (turn_key env s));
      [|exact Ht|exact Hp|reflexivity].
    change (ticks s3) with (3 + ticks_opened s).
    destruct (gTTS env (3 + ticks_opened s) (Str.concat tokens))
      as [audio|e] eqn:Htts;
      [|subst s3 s2 turn1 s1; clear Ht2 Hp2 Hk1 Hn2; keeps_done].
    destruct (chunk_audio audio default_chunk_size) as [|c cs] eqn:Hch;
      cbv beta iota zeta;
      rewrite (close_turn_run env _ _ _ (turn_key env s))
        by (try reflexivity; assumption);
      subst s3 s2 turn1 s1; clear Ht2 Hp2 Hk1 Hn2; keeps_done.
Qed.

(** ** Invariants of a whole call *)

Lemma handle_session (env : Env) (m : message) (s s' : State)
    (r : result ctl) :
  handle env m s = (r, s') ->
  session_id s' = session_id s /\
  CallSession.id (session s') = CallSession.id (session s) /\
  (has_type m "start" = false -> session s' = session s).
Proof.
  destruct (has_type m "start") eqn:Hstart.
  { rewrite handle_start by exact Hstart. rewrite on_start_run.
    destruct (pending_rollback (db s)); intros [= <- <-];
      repeat split; try reflexivity; discriminate. }
  destruct (has_type m "stop") eqn:Hstop.
  { rewrite handle_stop by exact Hstop. rewrite on_stop_run.
    destruct (audio_buffer s).
    - intros [= <- <-]. repeat split; reflexivity.
    - destruct (process_turn env s) as [[[]|e] s1] eqn:E; intros [= <- <-];
        destruct (process_turn_any env s s1 _ E)
          as ((_ & _ & Hses & Hsid & _) & _);
        rewrite Hses, Hsid; repeat split; reflexivity. }
  intros H. destruct (handle_other env m s s' r Hstart Hstop H) as [b ->].
  repeat split; reflexivity.
Qed.

Lemma handle_rows (env : Env) (m : message) (s s' : State) (r : result ctl) :
  handle env m s = (r, s') ->
  (forall k row,
     turns (db s) !! k = Some row -> turns (db s') !! k = Some row) /\
  (forall k row,
     turns (db s') !! k = Some row ->
     turns (db s) !! k = Some row \/
     (Turn.id row = Some k /\ Turn.session_id row = session_id s)).
Proof.
  destruct (has_type m "start") eqn:Hstart.
  { rewrite handle_start by exact Hstart. rewrite on_start_run.
    destruct (pending_rollback (db s)); intros [= <- <-];
      split; intros k row H; try left; exact H. }
  destruct (has_type m "stop") eqn:Hstop.
  { rewrite handle_stop by exact Hstop. rewrite on_stop_run.
    destruct (audio_buffer s).
    - intros [= <- <-]. split; intros k row H; try left; exact H.
    - destruct (process_turn env s) as [[[]|e] s1] eqn:E; intros [= <- <-];
        destruct (process_turn_keeps env s s1 _ E) as (Hold & Hnew & _);
        (split; [exact Hold|]);
        intros k row H; destruct (Hnew k row H) as [H'|(_ & Hid & Hsid & _)];
        [left; exact H'|right; split; assumption
        |left; exact H'|right; split; assumption]. }
  intros H. destruct (handle_other env m s s' r Hstart Hstop H) as [b ->].
  split; intros k row H'; try left; exact H'.
Qed.

Lemma turn_event_loop_event (ev : event) :
  turn_event ev = true -> loop_event ev = true.
Proof. destruct ev; simpl; congruence. Qed.

(** What one iteration sends. *)
Lemma handle_events (env : Env) (m : message) (s s' : State)
    (r : result ctl) :
  handle env m s = (r, s') ->
  exists delta,
    log s' = log s ++ delta /\ forallb loop_event (sent delta) = true.
Proof.
  destruct (has_type m "start") eqn:Hstart.
  { rewrite handle_start by exact Hstart. rewrite on_start_run.
    destruct (pending_rollback (db s)); intros [= <- <-].
    - exists []. split; [symmetry; apply app_nil_r|reflexivity].
    - eexists. split; reflexivity. }
  destruct (has_type m "stop") eqn:Hstop.
  { rewrite handle_stop by exact Hstop. rewrite on_stop_run.
    destruct (audio_buffer s).
    - intros [= <- <-]. eexists. split; reflexivity.
    - destruct (process_turn env s) as [[[]|e] s1] eqn:E;
        intros [= <- <-];
        destruct (process_turn_keeps env s s1 _ E)
          as (_ & _ & delta & Hlog & Hev);
        exists delta; (split; [exact Hlog|]);
        apply forallb_forall; intros ev Hin;
        apply turn_event_loop_event, Hev, Hin. }
  intros H. destruct (handle_other env m s s' r Hstart Hstop H) as [b ->].
  exists []. split; [symmetry; apply app_nil_r|reflexivity].
Qed.

(** A property of the state that every iteration keeps holds wherever
    the loop is left. *)
Lemma message_loop_keeps (I : State -> Prop) (env : Env) :
  (forall m s r s', I s -> handle env m s = (r, s') -> I s') ->
  forall inbox s, I s -> I (snd (message_loop env inbox s)).
Proof.
  intros Hstep. induction inbox as [|received rest IH]; intros s Is;
    [exact Is|].
  cbn [message_loop]. unfold bind, lift.
  destruct received as [m|e]; [|exact Is].
  destruct (handle env m s) as [[[]|e] s1] eqn:E; cbn [snd].
  - apply IH. exact (Hstep m s _ s1 Is E).
  - exact (Hstep m s _ s1 Is E).
  - exact (Hstep m s _ s1 Is E).
Qed.

(** A property of the state that the accepted call has and that every
    iteration and the cleanup keep holds wherever the handler ends or
    waits. *)
Lemma websocket_call_keeps (I : State -> Prop) (env : Env)
    (stored : Database) (inbox : list (result message)) :
  (forall r s0, accept_call env (boot stored) = (r, s0) -> I s0) ->
  (forall m s r s', I s -> handle env m s = (r, s') -> I s') ->
  (forall s r s', I s -> cleanup env s = (r, s') -> I s') ->
  (forall s, I s -> I (disconnected s)) ->
  I (snd (websocket_call env stored inbox)).
Proof.
  intros Hacc Hstep Hclean Hlog. unfold websocket_call.
  destruct (accept_call env (boot stored)) as [r0 s0] eqn:Eacc.
  pose proof (Hacc r0 s0 eq_refl) as I0. clear Hacc.
  destruct r0 as [[]|e]; [|exact I0].
  pose proof (message_loop_keeps I env Hstep inbox s0 I0) as I1.
  destruct (message_loop env inbox s0) as [[| |e] s1]; cbn [snd] in *.
  - exact I1.
  - destruct (cleanup env s1) as [[[]|e] s2] eqn:E; cbn [finish snd];
      exact (Hclean s1 _ s2 I1 E).
  - destruct (exn_is_disconnect e).
    + unfold bind, emit, modify.
      destruct (cleanup env _) as [[[]|e'] s2] eqn:E; cbn [finish snd];
        exact (Hclean _ _ s2 (Hlog s1 I1) E).
    + destruct (cleanup env s1) as [[[]|e'] s2] eqn:E; cbn [finish snd];
        exact (Hclean s1 _ s2 I1 E).
Qed.

Lemma cleanup_any (env : Env) (s s' : State) (r : result unit) :
  cleanup env s = (r, s') ->
  turns (db s') = turns (db s) /\
  session_id s' = session_id s /\
  CallSession.id (session s') = CallSession.id (session s) /\
  sent (log s') = sent (log s).
Proof.
  rewrite cleanup_run. cbv zeta.
  destruct (pending_rollback (db s)); intros [= <- <-];
    repeat split; try reflexivity.
  cbn [log set_log]. rewrite sent_app. simpl. apply app_nil_r.
Qed.

Lemma accept_call_ids (env : Env) (stored : Database) (s0 : State)
    (r : result unit) :
  accept_call env (boot stored) = (r, s0) ->
  session_id s0 = uuid4 env 0 /\
  CallSession.id (session s0) = uuid4 env 0.
Proof.
  munfold. unfold boot. simpl.
  destruct (call_sessions stored !! uuid4 env 0); simpl; intros [= <- <-];
    split; reflexivity.
Qed.

(** X3. Turns are scoped to their call.  Whatever the frames and however
    the handler ends, the rows that were in the turns table before the
    call are still there unchanged, every row the call added carries its
    own key as id and the call's session id, and so the query for the
    turns of any other session returns what it returned before. *)
Theorem turns_scoped_to_session (env : Env) (stored : Database)
    (inbox : list (result message)) :
  let final := snd (websocket_call env stored inbox) in
  session_id final = uuid4 env 0 /\
  (forall k row,
     turns stored !! k = Some row -> turns (db final) !! k = Some row) /\
  (forall k row,
     turns (db final) !! k = Some row ->
     turns stored !! k = None ->
     Turn.id row = Some k /\ Turn.session_id row = session_id final) /\
  (forall sid,
     sid <> session_id final ->
     turns_by_session sid (db final) = turns_by_session sid stored).
Proof.
  cbv zeta.
  set (I := fun s : State =>
    session_id s = uuid4 env 0 /\
    (forall k row,
       turns stored !! k = Some row -> turns (db s) !! k = Some row) /\
    (forall k row,
       turns (db s) !! k = Some row ->
       turns stored !! k = Some row \/
       (Turn.id row = Some k /\ Turn.session_id row = session_id s))).
  assert (Inv : I (snd (websocket_call env stored inbox))).
  { apply websocket_call_keeps.
    - intros r s0 Hacc.
      destruct (accept_call_ids env stored s0 r Hacc) as (Hsid & _).
      apply accept_call_any in Hacc as (Hd & _).
      split; [exact Hsid|]. split; intros k row H.
      + rewrite Hd. exact H.
      + rewrite Hd in H. left. exact H.
    - intros m s r s' (Hsid & Hold & Hnew) H.
      destruct (handle_session env m s s' r H) as (Hs & _).
      destruct (handle_rows env m s s' r H) as (Hold' & Hnew').
      split; [congruence|]. split; intros k row Hrow.
      + apply Hold', Hold. exact Hrow.
      + destruct (Hnew' k row Hrow) as [H0|[Hid Hses]].
        * destruct (Hnew k row H0) as [H1|[Hid Hses]];
            [left; exact H1|right; split; congruence].
        * right. split; congruence.
    - intros s r s' (Hsid & Hold & Hnew) H.
      destruct (cleanup_any env s s' r H) as (Hd & Hs & _).
      split; [congruence|]. rewrite Hd, Hs. split; assumption.
    - intros s Is. exact Is. }
  destruct Inv as (Hsid & Hold & Hnew).
  split; [exact Hsid|]. split; [exact Hold|]. split.
  - intros k row Hrow Hfresh.
    destruct (Hnew k row Hrow) as [H0|H1]; [congruence|exact H1].
  - intros sid Hne. unfold turns_by_session. apply map_eq. intros k.
    apply option_eq. intros row. rewrite !map_lookup_filter_Some.
    cbn [fst snd]. split; intros [Hrow Hses].
    + destruct (Hnew k row Hrow) as [H0|[_ H1]]; [split; assumption|].
      congruence.
    + split; [apply Hold; exact Hrow|exact Hses].
Qed.

Lemma accept_call_ok (env : Env) (stored : Database) :
  call_sessions stored !! uuid4 env 0 = None ->
  accept_call env (boot stored) = (Ok tt, connected env stored).
Proof.
  intros H. munfold. unfold boot, connected. simpl. rewrite H. reflexivity.
Qed.

Lemma accept_call_fails (env : Env) (stored : Database)
    (row : CallSession.t) :
  call_sessions stored !! uuid4 env 0 = Some row ->
  exists s,
    accept_call env (boot stored) = (Raise IntegrityError, s) /\
    log s = [] /\
    call_sessions (db s) = call_sessions stored /\
    turns (db s) = turns stored.
Proof.
  intros H. munfold. unfold boot. simpl. rewrite H. simpl.
  eexists. split; [reflexivity|]. repeat split; reflexivity.
Qed.

(** What the client of an accepted call has been sent, wherever the
    handler ends or waits. *)
Lemma call_events (env : Env) (stored : Database)
    (inbox : list (result message)) :
  call_sessions stored !! uuid4 env 0 = None ->
  exists later,
    sent (log (snd (websocket_call env stored inbox)))
    = session_id_event (uuid4 env 0) :: later /\
    forallb loop_event later = true.
Proof.
  intros Hfresh.
  apply (websocket_call_keeps
           (fun s => exists later,
              sent (log s) = session_id_event (uuid4 env 0) :: later /\
              forallb loop_event later = true)).
  - intros r s0. rewrite accept_call_ok by exact Hfresh. intros [= <- <-].
    exists []. split; reflexivity.
  - intros m s r s' (later & Hsent & Hall) H.
    destruct (handle_events env m s s' r H) as (delta & -> & Hdelta).
    exists (later ++ sent delta). rewrite sent_app, Hsent. split.
    + reflexivity.
    + rewrite forallb_app, Hall, Hdelta. reflexivity.
  - intros s r s' (later & Hsent & Hall) H.
    destruct (cleanup_any env s s' r H) as (_ & _ & _ & ->).
    exists later. split; assumption.
  - intros s (later & Hsent & Hall). exists later. split; [|exact Hall].
    cbn [disconnected log set_log]. rewrite sent_app, Hsent. simpl.
    rewrite app_nil_r. reflexivity.
Qed.

(** X4. What a client is sent.  When the new session id is already in the
    store the handler fails in the first commit and nothing is sent or
    done.  Otherwise the first event is the session id, exactly once, and
    everything after it is an event of a turn, the [turn_started] trace
    of a start with its turn id, or the error "No audio received". *)
Theorem events_of_a_call (env : Env) (stored : Database)
    (inbox : list (result message)) :
  match call_sessions stored !! uuid4 env 0 with
  | Some _ =>
      fst (websocket_call env stored inbox) = Failed IntegrityError /\
      log (snd (websocket_call env stored inbox)) = []
  | None =>
      exists later,
        sent (log (snd (websocket_call env stored inbox)))
        = session_id_event (uuid4 env 0) :: later /\
        forallb loop_event later = true
  end.
Proof.
  destruct (call_sessions stored !! uuid4 env 0) as [row|] eqn:Hrow.
  - destruct (accept_call_fails env stored row Hrow) as (s & Hs & Hlog & _).
    unfold websocket_call. rewrite Hs. split; [reflexivity|exact Hlog].
  - exact (call_events env stored inbox Hrow).
Qed.


(** ** Resuming a waiting call *)

Lemma websocket_call_suspended (env : Env) (stored : Database)
    (inbox : list (result message)) (s : State) :
  websocket_call env stored inbox = (Suspended, s) ->
  exists s0,
    accept_call env (boot stored) = (Ok tt, s0) /\
    message_loop env inbox s0 = (Awaiting, s).
Proof.
  unfold websocket_call.
  destruct (accept_call env (boot stored)) as [[[]|e] s0]; [|discriminate].
  destruct (message_loop env inbox s0) as [[| |e] s1] eqn:Hloop.
  - intros [= <-]. exists s0. split; [reflexivity|exact Hloop].
  - destruct (cleanup env s1) as [[[]|e] s2]; discriminate.
  - destruct (exn_is_disconnect e);
      [destruct ((emit (LogInfo "Client disconnected");; cleanup env)%monad s1)
         as [[[]|e'] s2]
      |destruct (cleanup env s1) as [[[]|e'] s2]]; discriminate.
Qed.

Lemma websocket_call_app (env : Env) (stored : Database)
    (pre post : list (result message)) (s : State) :
  websocket_call env stored pre = (Suspended, s) ->
  websocket_call env stored (pre ++ post)
  = after_loop env (message_loop env post s).
Proof.
  intros (s0 & Hacc & Hloop)%websocket_call_suspended.
  unfold websocket_call. rewrite Hacc.
  rewrite (message_loop_app env pre post s0 s Hloop).
  destruct (message_loop env post s) as [[| |e] s1]; reflexivity.
Qed.

Lemma cleanup_ok (env : Env) (s : State) :
  pending_rollback (db s) = false -> cleanup env s = (Ok tt, ended env s).
Proof. intros H. rewrite cleanup_run. cbv zeta. rewrite H. reflexivity. Qed.

(** A property of the state that the accepted call has and that every
    iteration that goes through keeps holds while the call is waiting. *)
Lemma suspended_keeps (I : State -> Prop) (env : Env) (stored : Database)
    (inbox : list (result message)) (s : State) :
  (forall s0, accept_call env (boot stored) = (Ok tt, s0) -> I s0) ->
  (forall m s s', I s -> handle env m s = (Ok Continue, s') -> I s') ->
  websocket_call env stored inbox = (Suspended, s) -> I s.
Proof.
  intros Hacc Hstep (s0 & H0 & Hloop)%websocket_call_suspended.
  apply Hacc in H0. clear Hacc. revert s0 H0 Hloop.
  induction inbox as [|received rest IH]; intros s0 I0.
  - intros [= <-]. exact I0.
  - cbn [message_loop]. unfold bind, lift.
    destruct received as [m|e]; [|discriminate].
    destruct (handle env m s0) as [[[]|e] s1] eqn:E; try discriminate.
    apply IH. exact (Hstep m s0 s1 I0 E).
Qed.

Lemma handle_ok_usable (env : Env) (m : message) (s s' : State) :
  handle env m s = (Ok Continue, s') ->
  pending_rollback (db s) = false ->
  pending_rollback (db s') = false.
Proof.
  intros H Hp.
  destruct (has_type m "start") eqn:Hstart.
  { rewrite handle_start in H by exact Hstart. rewrite on_start_run, Hp in H.
    injection H as <-. exact Hp. }
  destruct (has_type m "stop") eqn:Hstop.
  { rewrite handle_stop in H by exact Hstop. rewrite on_stop_run in H.
    destruct (audio_buffer s).
    - injection H as <-. exact Hp.
    - destruct (process_turn env s) as [[[]|e] s1] eqn:E; [|discriminate].
      injection H as <-.
      apply process_turn_ok in E as (t0 & raw & generated & audio & E).
      cbv zeta in E. destruct E as (_ & _ & _ & _ & _ & _ & _ & _ & -> & _).
      exact Hp. }
  destruct (handle_other env m s s' _ Hstart Hstop H) as [b ->]. exact Hp.
Qed.

(** While a call is waiting for a frame its ORM session is usable. *)
Lemma suspended_usable (env : Env) (stored : Database)
    (inbox : list (result message)) (s : State) :
  websocket_call env stored inbox = (Suspended, s) ->
  pending_rollback (db s) = false.
Proof.
  apply (suspended_keeps (fun s => pending_rollback (db s) = false)).
  - intros s0 H. apply accept_call_any in H as (_ & _ & H).
    destruct (H eq_refl) as (_ & _ & _ & ->). reflexivity.
  - intros m s1 s2 Hp H. exact (handle_ok_usable env m s1 s2 H Hp).
Qed.

Lemma handle_end_call (env : Env) (m : message) (s : State) :
  has_type m "end_call" = true -> handle env m s = (Ok Break, s).
Proof.
  unfold has_type, falsy_bytes, handle. intros H.
  destruct (m_bytes m) as [[|b bs]|]; try discriminate;
    destruct (m_text m) as [[[t|]|e]|]; try discriminate;
    simpl in H; apply String.eqb_eq in H; subst t; reflexivity.
Qed.

(** X6. An [end_call] frame ends the call in good order: the loop is left
    without another event, the session is stored as ended with its end
    time, the ORM session is closed, the handler returns, and frames that
    arrive afterwards are never read. *)
Theorem end_call_ends_call (env : Env) (stored : Database)
    (pre rest : list (result message)) (m : message) (s : State) :
  websocket_call env stored pre = (Suspended, s) ->
  has_type m "end_call" = true ->
  websocket_call env stored (pre ++ Ok m :: rest) = (Returned, ended env s) /\
  sent (log (ended env s)) = sent (log s) /\
  call_sessions (db (ended env s)) !! CallSession.id (session s)
  = Some (CallSession.mk (CallSession.id (session s))
                         (CallSession.created_at (session s))
                         (Some (time_time env (ticks s))) "ended").
Proof.
  intros Hpre Hm. split; [|split].
  - rewrite (websocket_call_app env stored pre _ s Hpre).
    cbn [message_loop]. unfold bind, lift.
    rewrite (handle_end_call env m s Hm). cbn [after_loop].
    rewrite cleanup_ok by exact (suspended_usable env stored pre s Hpre).
    reflexivity.
  - cbn [ended log set_log]. rewrite sent_app. simpl. apply app_nil_r.
  - cbn [ended db set_log set_db put_session call_sessions].
    apply lookup_insert_eq.
Qed.

(** X7. A [ws.receive()] that raises ends the call.  The finally clause
    stores the session as ended either way; a [WebSocketDisconnect] is
    logged and the handler returns, any other exception leaves the
    handler.  Nothing is sent, and later frames are never read. *)
Theorem receive_error_ends_call (env : Env) (stored : Database)
    (pre rest : list (result message)) (e : exn) (s : State) :
  websocket_call env stored pre = (Suspended, s) ->
  websocket_call env stored (pre ++ Raise e :: rest)
  = (if exn_is_disconnect e
     then (Returned, ended env (disconnected s))
     else (Failed e, ended env s)) /\
  sent (log (ended env (disconnected s))) = sent (log s) /\
  sent (log (ended env s)) = sent (log s).
Proof.
  intros Hpre.
  pose proof (suspended_usable env stored pre s Hpre) as Hp.
  split; [|split].
  - rewrite (websocket_call_app env stored pre _ s Hpre).
    cbn [message_loop]. unfold bind, lift. cbn [after_loop].
    destruct (exn_is_disconnect e); rewrite cleanup_ok by exact Hp;
      reflexivity.
  - cbn [ended disconnected log set_log]. rewrite !sent_app. simpl.
    rewrite !app_nil_r. reflexivity.
  - cbn [ended log set_log]. rewrite sent_app. simpl. apply app_nil_r.
Qed.

Lemma handle_ignored (env : Env) (m : message) (s : State) :
  ignored m = true -> handle env m s = (Ok Continue, s).
Proof.
  unfold ignored, falsy_bytes, handle. intros H.
  destruct (m_bytes m) as [[|b bs]|]; try discriminate;
    destruct (m_text m) as [[msg_type|e]|]; try discriminate;
    try reflexivity; simpl in H; unfold lift, bind, ret;
    destruct (is_type msg_type "start"); try discriminate;
    destruct (is_type msg_type "stop"); try discriminate;
    destruct (is_type msg_type "end_call"); try discriminate; reflexivity.
Qed.

(** X8. Frames the protocol does not know are skipped without a trace: a
    frame with no audio and no text, or a JSON text whose type is not
    start, stop or end_call (or is missing), leaves the state as it was,
    sends nothing, and the loop waits for the next frame. *)
Theorem unknown_frames_ignored (env : Env) (frames : list message)
    (s : State) :
  forallb ignored frames = true ->
  message_loop env (map Ok frames) s = (Awaiting, s).
Proof.
  induction frames as [|m rest IH]; [reflexivity|].
  cbn [forallb map message_loop]. intros [Hm Hrest]%andb_true_iff.
  unfold bind, lift. rewrite (handle_ignored env m s Hm). exact (IH Hrest).
Qed.

Lemma handle_undecodable (env : Env) (m : message) (e : exn) (s : State) :
  falsy_bytes m = true -> m_text m = Some (Raise e) ->
  handle env m s = (Raise e, s).
Proof.
  unfold falsy_bytes, handle. intros Hb Ht. rewrite Ht.
  destruct (m_bytes m) as [[|b bs]|]; try discriminate; reflexivity.
Qed.

(** X9. A text frame that is not JSON (or not a JSON object) ends the
    call: the exception of the decoder leaves the loop, the client gets no
    error event, the finally clause stores the session as ended and the
    exception leaves the handler. *)
Theorem undecodable_frame_ends_call (env : Env) (stored : Database)
    (pre rest : list (result message)) (m : message) (e : exn) (s : State) :
  websocket_call env stored pre = (Suspended, s) ->
  falsy_bytes m = true ->
  m_text m = Some (Raise e) ->
  exn_is_disconnect e = false ->
  websocket_call env stored (pre ++ Ok m :: rest) = (Failed e, ended env s) /\
  sent (log (ended env s)) = sent (log s).
Proof.
  intros Hpre Hb Ht He. split.
  - rewrite (websocket_call_app env stored pre _ s Hpre).
    cbn [message_loop]. unfold bind, lift.
    rewrite (handle_undecodable env m e s Hb Ht). cbn [after_loop].
    rewrite He.
    rewrite cleanup_ok by exact (suspended_usable env stored pre s Hpre).
    reflexivity.
  - cbn [ended log set_log]. rewrite sent_app. simpl. apply app_nil_r.
Qed.

(** ** Stops that follow a turn *)

(** X10. A stop leaves no audio behind: whether it was rejected or went
    through a whole turn, the buffer is empty afterwards, so a second stop
    right after it is answered with "No audio received" and does nothing
    else. *)
Theorem stop_consumes_audio (env : Env) (m : message) (s s1 : State) :
  has_type m "stop" = true ->
  handle env m s = (Ok Continue, s1) ->
  audio_buffer s1 = [] /\
  handle env m s1
  = (Ok Continue, set_log (log s1 ++ [Send (error "No audio received")]) s1).
Proof.
  intros Hm H.
  assert (Hbuf : audio_buffer s1 = []).
  { rewrite handle_stop in H by exact Hm. rewrite on_stop_run in H.
    destruct (audio_buffer s) eqn:Hb.
    - injection H as <-. exact Hb.
    - destruct (process_turn env s) as [[[]|e] s2] eqn:E; [|discriminate].
      injection H as <-.
      apply process_turn_ok in E as (t0 & raw & generated & audio & E).
      cbv zeta in E. tauto. }
  split; [exact Hbuf|].
  rewrite handle_stop by exact Hm. rewrite on_stop_run, Hbuf. reflexivity.
Qed.

Lemma set_ticks_same (s : State) : set_ticks (ticks s) s = s.
Proof. destruct s; reflexivity. Qed.

Lemma handle_stop_reused (env : Env) (m : message) (s : State)
    (key : string) (row : Turn.t) :
  has_type m "stop" = true ->
  audio_buffer s <> [] ->
  turn_start_time s <> None ->
  pending_rollback (db s) = false ->
  current_turn_id s = Some key ->
  turns (db s) !! key = Some row ->
  handle env m s = (Raise IntegrityError, set_db (flush_failed (db s)) s).
Proof.
  intros Hm Hb Ht Hp Hk Hrow.
  rewrite handle_stop by exact Hm. rewrite on_stop_run.
  destruct (audio_buffer s); [congruence|].
  unfold process_turn. unfold bind at 1. rewrite open_turn_run.
  destruct (turn_start_time s); [|congruence]. rewrite Hp.
  unfold turn_key, ticks_opened. rewrite Hk, Hrow, set_ticks_same.
  reflexivity.
Qed.

(** The state a turn that went through leaves, as far as the next stop is
    concerned. *)
Lemma handle_stop_done (env : Env) (m : message) (s s1 : State)
    (key : string) :
  has_type m "stop" = true ->
  current_turn_id s = Some key ->
  audio_buffer s <> [] ->
  handle env m s = (Ok Continue, s1) ->
  audio_buffer s1 = [] /\
  turn_start_time s1 <> None /\
  pending_rollback (db s1) = false /\
  current_turn_id s1 = Some key /\
  exists row, turns (db s1) !! key = Some row.
Proof.
  intros Hm Hk Hb H.
  rewrite handle_stop in H by exact Hm. rewrite on_stop_run in H.
  destruct (audio_buffer s); [congruence|].
  destruct (process_turn env s) as [[[]|e] s2] eqn:E; [|discriminate].
  injection H as <-.
  apply process_turn_ok in E as (t0 & raw & generated & audio & E).
  cbv zeta in E.
  destruct E as (Ht & Hp & _ & _ & _ & _ & _ & _ & Hdb & _ & Hbuf & Ht' &
                 Hk' & _).
  split; [exact Hbuf|]. split; [congruence|].
  split; [rewrite Hdb; exact Hp|]. split; [congruence|].
  rewrite Hdb. unfold turn_key. rewrite Hk. eexists.
  cbn [turns put_turn]. apply lookup_insert_eq.
Qed.

Lemma loop_frames_stop_reused (env : Env) (m : message)
    (pieces : list (list byte)) (rest : list (result message))
    (s s1 : State) (key : string) :
  has_type m "stop" = true ->
  current_turn_id s = Some key ->
  audio_buffer s <> [] ->
  handle env m s = (Ok Continue, s1) ->
  join_bytes pieces <> [] ->
  message_loop env (audio_frames pieces ++ Ok m :: rest) s1
  = (Raised IntegrityError,
     set_db (flush_failed (db s1)) (set_audio_buffer (join_bytes pieces) s1)).
Proof.
  intros Hm Hk Hb H Hpieces.
  destruct (handle_stop_done env m s s1 key Hm Hk Hb H)
    as (Hbuf & Ht & Hp & Hk1 & row & Hrow).
  rewrite (message_loop_app env _ _ s1 _
             (loop_audio_frames env pieces s1)).
  rewrite Hbuf. cbn [app message_loop]. unfold bind, lift.
  rewrite (handle_stop_reused env m _ key row Hm); try assumption.
  reflexivity.
Qed.

(** X11. The turn id is chosen by a start, not by a stop.  After a turn went
    through, more audio and a second stop without a start in between ask
    the store for a second row under the same primary key: the commit
    fails with [IntegrityError] before anything is sent, the audio is not
    transcribed, the table of turns stays as it was, and the loop ends. *)
Theorem stop_without_new_start_fails (env : Env) (m : message)
    (pieces : list (list byte)) (s s1 : State) (key : string) :
  has_type m "stop" = true ->
  current_turn_id s = Some key ->
  audio_buffer s <> [] ->
  handle env m s = (Ok Continue, s1) ->
  join_bytes pieces <> [] ->
  exists s2,
    message_loop env (audio_frames pieces ++ [Ok m]) s1
    = (Raised IntegrityError, s2) /\
    log s2 = log s1 /\
    turns (db s2) = turns (db s1) /\
    ticks s2 = ticks s1.
Proof.
  intros Hm Hk Hb H Hpieces. eexists. split.
  - exact (loop_frames_stop_reused env m pieces [] s s1 key Hm Hk Hb H
             Hpieces).
  - repeat split; reflexivity.
Qed.

(** X12. A commit that failed in the loop makes the finally clause fail
    too.  In the call of the previous property the ORM session is left
    with a transaction to roll back, so the commit of the finally clause
    raises [PendingRollbackError]: that exception, not the
    [IntegrityError], leaves the handler, the stored session keeps the
    status it had, and the ORM session is not closed. *)
Theorem failed_commit_fails_cleanup (env : Env) (stored : Database)
    (pre rest : list (result message)) (m : message)
    (pieces : list (list byte)) (s s1 : State) (key : string) :
  websocket_call env stored pre = (Suspended, s) ->
  has_type m "stop" = true ->
  current_turn_id s = Some key ->
  audio_buffer s <> [] ->
  handle env m s = (Ok Continue, s1) ->
  join_bytes pieces <> [] ->
  exists final,
    websocket_call env stored
      (pre ++ Ok m :: audio_frames pieces ++ Ok m :: rest)
    = (Failed PendingRollbackError, final) /\
    log final = log s1 /\
    call_sessions (db final) = call_sessions (db s) /\
    turns (db final) = turns (db s1).
Proof.
  intros Hpre Hm Hk Hb H Hpieces.
  assert (Hone : websocket_call env stored (pre ++ [Ok m]) = (Suspended, s1)).
  { rewrite (websocket_call_app env stored pre _ s Hpre).
    cbn [message_loop]. unfold bind, lift. rewrite H. reflexivity. }
  pose proof (loop_frames_stop_reused env m pieces rest s s1 key Hm Hk Hb H
                Hpieces) as Hloop.
  replace (pre ++ Ok m :: audio_frames pieces ++ Ok m :: rest)
    with ((pre ++ [Ok m]) ++ audio_frames pieces ++ Ok m :: rest)
    by (rewrite <- app_assoc; reflexivity).
  rewrite (websocket_call_app env stored _ _ s1 Hone), Hloop.
  cbn [after_loop exn_is_disconnect]. rewrite cleanup_run. cbv zeta.
  cbn [db set_db flush_failed pending_rollback finish].
  eexists. split; [reflexivity|]. split; [reflexivity|]. split; [|reflexivity].
  cbn [db set_db set_session set_ticks set_audio_buffer flush_failed
       call_sessions].
  rewrite handle_stop in H by exact Hm. rewrite on_stop_run in H.
  destruct (audio_buffer s); [congruence|].
  destruct (process_turn env s) as [[[]|e] s2] eqn:E; [|discriminate].
  injection H as <-.
  apply process_turn_any in E as ((_ & _ & _ & _ & Hcs) & _). exact Hcs.
Qed.

(** ** The session row *)

Lemma handle_session_row (env : Env) (m : message) (s s' : State)
    (r : result ctl) :
  handle env m s = (r, s') ->
  CallSession.created_at (session s') = CallSession.created_at (session s) /\
  CallSession.ended_at (session s') = CallSession.ended_at (session s) /\
  (has_type m "start" = false ->
   session s' = session s /\ call_sessions (db s') = call_sessions (db s)).
Proof.
  destruct (has_type m "start") eqn:Hstart.
  { rewrite handle_start by exact Hstart. rewrite on_start_run.
    destruct (pending_rollback (db s)); intros [= <- <-];
      repeat split; try reflexivity; discriminate. }
  destruct (has_type m "stop") eqn:Hstop.
  { rewrite handle_stop by exact Hstop. rewrite on_stop_run.
    destruct (audio_buffer s).
    - intros [= <- <-]. repeat split; reflexivity.
    - destruct (process_turn env s) as [[[]|e] s1] eqn:E; intros [= <- <-];
        destruct (process_turn_any env s s1 _ E)
          as ((_ & _ & Hses & _ & Hcs) & _);
        rewrite Hses, Hcs; repeat split; reflexivity. }
  intros H. destruct (handle_other env m s s' r Hstart Hstop H) as [b ->].
  repeat split; reflexivity.
Qed.

(** The session while the loop goes on: a start makes it active and
    stores it, nothing else touches it. *)
Lemma loop_status (env : Env) (inbox : list (result message)) :
  forall s0 s,
    message_loop env inbox s0 = (Awaiting, s) ->
    pending_rollback (db s0) = false ->
    call_sessions (db s0) !! CallSession.id (session s0) = Some (session s0) ->
    CallSession.status (session s)
    = (if existsb starts inbox then "active"%string
       else CallSession.status (session s0)) /\
    call_sessions (db s) !! CallSession.id (session s) = Some (session s).
Proof.
  induction inbox as [|received rest IH]; intros s0 s.
  - intros [= <-] _ Hrow. split; [reflexivity|exact Hrow].
  - cbn [message_loop existsb]. unfold bind, lift.
    destruct received as [m|e]; [|discriminate].
    destruct (handle env m s0) as [[[]|e] s1] eqn:E; try discriminate.
    intros Hloop Hp Hrow.
    pose proof (handle_ok_usable env m s0 s1 E Hp) as Hp1.
    cbn [starts]. destruct (has_type m "start") eqn:Hstart.
    + rewrite handle_start in E by exact Hstart.
      rewrite on_start_run, Hp in E. injection E as <-.
      destruct (IH _ s Hloop Hp1) as [Hst Hrow'].
      { cbn [started session db set_log set_db set_session put_session
             call_sessions set_status CallSession.id].
        apply lookup_insert_eq. }
      split; [|exact Hrow'].
      rewrite Hst. cbn [orb]. destruct (existsb starts rest); reflexivity.
    + destruct (handle_session_row env m s0 s1 _ E) as (_ & _ & Hsame).
      destruct (Hsame Hstart) as [Hses Hcs].
      destruct (IH _ s Hloop Hp1) as [Hst Hrow'].
      { rewrite Hses, Hcs. exact Hrow. }
      split; [|exact Hrow']. rewrite Hst, Hses. reflexivity.
Qed.

(** X13. The life of the session row.  Once the call is accepted, its row
    keeps the id and the creation time it got.  While the handler waits
    for a frame the row is stored as it is in memory, without an end time,
    with status "active" when a start has been processed and "connected"
    otherwise.  When the handler has returned, the row is stored with
    status "ended" and an end time; when it has failed, the row in memory
    is ended, and so is the stored one if the last commit went through. *)
Theorem session_lifecycle (env : Env) (stored : Database)
    (inbox : list (result message)) (out : outcome) (final : State) :
  call_sessions stored !! uuid4 env 0 = None ->
  websocket_call env stored inbox = (out, final) ->
  CallSession.id (session final) = uuid4 env 0 /\
  CallSession.created_at (session final) = Some (time_time env 1) /\
  match out with
  | Suspended =>
      CallSession.status (session final)
      = (if existsb starts inbox then "active" else "connected")%string /\
      CallSession.ended_at (session final) = None /\
      call_sessions (db final) !! uuid4 env 0 = Some (session final)
  | Returned =>
      CallSession.status (session final) = "ended"%string /\
      CallSession.ended_at (session final) <> None /\
      call_sessions (db final) !! uuid4 env 0 = Some (session final)
  | Failed e =>
      CallSession.status (session final) = "ended"%string /\
      CallSession.ended_at (session final) <> None /\
      (pending_rollback (db final) = false ->
       call_sessions (db final) !! uuid4 env 0 = Some (session final))
  end.
Proof.
  intros Hfresh. unfold websocket_call.
  rewrite accept_call_ok by exact Hfresh.
  set (s0 := connected env stored).
  assert (Inv : forall s,
            snd (message_loop env inbox s0) = s ->
            CallSession.id (session s) = uuid4 env 0 /\
            CallSession.created_at (session s) = Some (time_time env 1) /\
            CallSession.ended_at (session s) = None).
  { intros s <-.
    apply (message_loop_keeps
             (fun s => CallSession.id (session s) = uuid4 env 0 /\
                       CallSession.created_at (session s)
                       = Some (time_time env 1) /\
                       CallSession.ended_at (session s) = None)).
    - intros m s r s' (Hid & Hc & He) H.
      destruct (handle_session env m s s' r H) as (_ & Hid' & _).
      destruct (handle_session_row env m s s' r H) as (Hc' & He' & _).
      repeat split; congruence.
    - repeat split; reflexivity. }
  assert (Ended : forall s r s',
            CallSession.id (session s) = uuid4 env 0 ->
            CallSession.created_at (session s) = Some (time_time env 1) ->
            cleanup env s = (r, s') ->
            CallSession.id (session s') = uuid4 env 0 /\
            CallSession.created_at (session s') = Some (time_time env 1) /\
            CallSession.status (session s') = "ended"%string /\
            CallSession.ended_at (session s') <> None /\
            (pending_rollback (db s') = false ->
             call_sessions (db s') !! uuid4 env 0 = Some (session s'))).
  { intros s r s' Hid Hc. rewrite cleanup_run. cbv zeta.
    destruct (pending_rollback (db s)) eqn:Hp; intros [= <- <-].
    - repeat split; simpl; try assumption; try discriminate.
      intros Hp'. simpl in Hp'. congruence.
    - repeat split; simpl; try assumption; try discriminate.
      intros _. rewrite Hid. apply lookup_insert_eq. }
  destruct (message_loop env inbox s0) as [[| |e] s1] eqn:Hloop;
    destruct (Inv s1 eq_refl) as (Hid & Hc & He).
  - intros [= <- <-]. split; [exact Hid|]. split; [exact Hc|].
    destruct (loop_status env inbox s0 s1 Hloop) as [Hst Hrow].
    { reflexivity. }
    { subst s0. cbn [connected db session call_sessions CallSession.id].
      apply lookup_insert_eq. }
    rewrite Hid in Hrow. split; [exact Hst|]. split; [exact He|exact Hrow].
  - destruct (cleanup env s1) as [r s2] eqn:E.
    destruct (Ended s1 r s2 Hid Hc E) as (Hid2 & Hc2 & Hst & He2 & Hrow).
    destruct r as [[]|e]; cbn [finish]; intros [= <- <-];
      (split; [exact Hid2|]); (split; [exact Hc2|]);
      (split; [exact Hst|]); (split; [exact He2|]).
    + rewrite cleanup_run in E. cbv zeta in E.
      destruct (pending_rollback (db s1)) eqn:Hp; [discriminate|].
      apply Hrow. injection E as <-. exact Hp.
    + intros Hp. apply Hrow. exact Hp.
  - destruct (exn_is_disconnect e).
    + unfold bind, emit, modify.
      destruct (cleanup env _) as [r s2] eqn:E.
      destruct (Ended (disconnected s1) r s2 Hid Hc E)
        as (Hid2 & Hc2 & Hst & He2 & Hrow).
      destruct r as [[]|e']; cbn [finish]; intros [= <- <-];
        (split; [exact Hid2|]); (split; [exact Hc2|]);
        (split; [exact Hst|]); (split; [exact He2|]).
      * rewrite cleanup_run in E. cbv zeta in E.
        destruct (pending_rollback (db _)) eqn:Hp in E; [discriminate|].
        apply Hrow. injection E as <-. exact Hp.
      * intros Hp. apply Hrow. exact Hp.
    + destruct (cleanup env s1) as [r s2] eqn:E.
      destruct (Ended s1 r s2 Hid Hc E) as (Hid2 & Hc2 & Hst & He2 & Hrow).
      destruct r as [[]|e']; cbn [finish]; intros [= <- <-];
        (split; [exact Hid2|]); (split; [exact Hc2|]);
        (split; [exact Hst|]); (split; [exact He2|]);
        intros Hp; apply Hrow; exact Hp.
Qed.

(** ** What a turn stores and what it sends *)

(** X14. The row of a turn agrees with what the client was told.  For a
    start, audio and a stop that goes through, the row is stored under the
    turn id announced in the [turn_started] trace, its start is the time
    announced there brought to the microsecond as
    [datetime.utcfromtimestamp] does ([1762200000.1234567] is stored as
    [1762200000.123457]), it carries the call's session id, its transcript
    is the text of the [stt_final] event, and its reply is the text that
    was synthesised.
    The stored time to the final transcript is the binary64 difference of
    the reading made after the transcription and the turn start, and the
    [latency_ms] of the event is that value times 1000, the product being
    a binary64 product, rounded to the nearest integer, ties to even: an
    elapsed time of [0.0005] is sent as 0, not as 1. *)
Theorem turn_row_matches_events (env : Env) (m_start m_stop : message)
    (pieces : list (list byte)) (s s' : State) :
  has_type m_start "start" = true ->
  has_type m_stop "stop" = true ->
  pending_rollback (db s) = false ->
  join_bytes pieces <> [] ->
  message_loop env (Ok m_start :: audio_frames pieces ++ [Ok m_stop]) s
  = (Awaiting, s') ->
  (exists row transcript confidence time_to_final reply,
     In (trace_event "turn_started" (Some (uuid4 env (S (ticks s))))
                     (time_time env (ticks s)))
        (sent (log s')) /\
     turns (db s') !! uuid4 env (S (ticks s)) = Some row /\
     Turn.id row = Some (uuid4 env (S (ticks s))) /\
     Turn.session_id row = session_id s /\
     Turn.started_at row
     = Some (datetime_of_timestamp (time_time env (ticks s))) /\
     Turn.user_transcript_final row = Some transcript /\
     Turn.time_to_final_transcript row = Some time_to_final /\
     time_to_final
     = Binary64.round (time_time env (3 + ticks s) - time_time env (ticks s))
     /\
     In (stt_final transcript confidence
                   (py_round (Binary64.round (time_to_final * 1000))))
        (sent (log s')) /\
     Turn.assistant_text row = Some reply /\
     In (Synthesize reply) (requests (log s'))) /\
  Binary64.of_float 1762200000.1234567 = Some Sample.start_reading /\
  datetime_of_timestamp Sample.start_reading
  = (1762200000123457 # 1000000)%Q /\
  Binary64.of_float 0.0005 = Some Sample.half_millisecond /\
  py_round (Binary64.round (Sample.half_millisecond * 1000)) = 0%Z /\
  py_round (Sample.half_millisecond * 1000) = 1%Z /\
  Binary64.agrees Binary64.mul PrimFloat.mul 0.0005 1000 = true /\
  Binary64.agrees Binary64.sub PrimFloat.sub 1762200000.7 1762199999.9
  = true.
Proof.
  intros Hstart Hstop Hp Hne Hloop.
  split; [|repeat split; vm_compute; reflexivity].
  pose proof (loop_turn_run env m_start m_stop pieces s s' Hstart Hstop Hp
                Hne Hloop) as Hturn.
  destruct (process_turn_ok env _ s' Hturn)
    as (t0 & raw & generated & audio & Hfacts).
  cbv zeta in Hfacts.
  destruct Hfacts as (Ht0 & _ & _ & _ & _ & _ & _ & Hlog & Hdb & _).
  injection Ht0 as <-.
  change (turn_key env (set_audio_buffer (join_bytes pieces) (started env s)))
    with (uuid4 env (S (ticks s))) in Hdb.
  eexists _, _, _, _, _.
  split; [|split; [rewrite Hdb; apply lookup_insert_eq|]].
  - rewrite Hlog, sent_app. apply in_or_app. left.
    cbn [log set_audio_buffer started set_log]. rewrite sent_app.
    apply in_or_app. right. left. reflexivity.
  - repeat split; try reflexivity.
    + rewrite Hlog, sent_app, sent_turn_effects. apply in_or_app. right.
      right. left. reflexivity.
    + rewrite Hlog, requests_app, requests_turn_effects. apply in_or_app.
      right. right. apply in_or_app. right. left. reflexivity.
Qed.

(** X15. The confidence never decides.  [transcribe_audio] reports 0.9 for
    a transcript that is not empty and 0.0 for an empty one, so with the
    pair it returns the silence rule holds exactly when the transcript is
    empty: the comparison with 0.3 adds nothing to the emptiness test. *)
Theorem confidence_never_decides (env : Env) (audio : list byte)
    (s s' : State) (text : string) (confidence : float) :
  transcribe_audio env audio s = (Ok (text, confidence), s') ->
  confidence = (if Str.truthy text then 0.9 else 0)%float /\
  silence_rule text confidence = negb (Str.truthy text) /\
  (silence_rule text confidence = true <-> text = ""%string).
Proof.
  rewrite transcribe_audio_run.
  destruct (automatic_speech_recognition env (ticks s) audio) as [raw|e];
    [|discriminate].
  unfold heard. intros [= <- <- _].
  assert (Hrule : silence_rule (Str.strip raw)
                    (if Str.truthy (Str.strip raw) then 0.9 else 0)%float
                  = negb (Str.truthy (Str.strip raw))).
  { unfold silence_rule. destruct (Str.truthy (Str.strip raw)); reflexivity. }
  split; [reflexivity|]. split; [exact Hrule|].
  rewrite Hrule, negb_true_iff. apply truthy_empty.
Qed.

(** X16. A turn that fails is left unfinished in the store.  When a stop
    with audio ends in an exception, a row it has added is the row of this
    turn, and it has neither a reply nor an end time. *)
Theorem failed_turn_left_unfinished (env : Env) (s s' : State) (e : exn)
    (k : string) (row : Turn.t) :
  process_turn env s = (Raise e, s') ->
  turns (db s') !! k = Some row ->
  turns (db s) !! k = None ->
  k = turn_key env s /\
  Turn.session_id row = session_id s /\
  Turn.assistant_text row = None /\
  Turn.ended_at row = None /\
  complete row = false.
Proof.
  intros H Hrow Hfresh.
  destruct (process_turn_keeps env s s' _ H) as (_ & Hnew & _).
  destruct (Hnew k row Hrow)
    as [Hold|(Hk & _ & Hsid & _ & _ & _ & [Hreply _] & [Hend _])];
    [congruence|].
  assert (Hr : Turn.assistant_text row = None).
  { destruct (Turn.assistant_text row); [|reflexivity].
    discriminate Hreply. discriminate. }
  assert (He : Turn.ended_at row = None).
  { destruct (Turn.ended_at row); [|reflexivity].
    discriminate Hend. discriminate. }
  repeat split; try assumption.
  unfold complete. rewrite Hr. destruct (Turn.user_transcript_final row);
    reflexivity.
Qed.

(** X17. While a call is waiting for a frame, every turn it has stored is
    complete: transcript, time to the final transcript, reply and end
    time are all set.  (An unfinished row can only be met once the
    handler has ended.) *)
Theorem waiting_call_has_complete_turns (env : Env) (stored : Database)
    (inbox : list (result message)) (final : State) (k : string)
    (row : Turn.t) :
  websocket_call env stored inbox = (Suspended, final) ->
  turns (db final) !! k = Some row ->
  turns stored !! k = None ->
  complete row = true.
Proof.
  intros Hcall Hrow Hfresh.
  assert (Inv : forall k row,
            turns (db final) !! k = Some row ->
            turns stored !! k = Some row \/ complete row = true).
  { apply (suspended_keeps
             (fun st => forall k row,
                turns (db st) !! k = Some row ->
                turns stored !! k = Some row \/ complete row = true)
             env stored inbox final); [| |exact Hcall].
    - intros s0 H k' row' Hrow'.
      apply accept_call_any in H as (Hd & _). rewrite Hd in Hrow'.
      left. exact Hrow'.
    - intros m s s1 Is H k' row' Hrow'.
      destruct (has_type m "start") eqn:Hstart.
      { rewrite handle_start in H by exact Hstart. rewrite on_start_run in H.
        destruct (pending_rollback (db s)); [discriminate|].
        injection H as <-. apply Is. exact Hrow'. }
      destruct (has_type m "stop") eqn:Hstop.
      { rewrite handle_stop in H by exact Hstop. rewrite on_stop_run in H.
        destruct (audio_buffer s).
        - injection H as <-. apply Is. exact Hrow'.
        - destruct (process_turn env s) as [[[]|e] s2] eqn:E; [|discriminate].
          injection H as <-.
          destruct (process_turn_keeps env s s2 _ E) as (_ & Hnew & _).
          destruct (Hnew k' row' Hrow')
            as [Hold|(_ & _ & _ & _ & Htime & Htext & [_ Hreply] &
                      [_ Hend])];
            [apply Is; exact Hold|].
          right. unfold complete.
          pose proof (Htext eq_refl) as Htext'.
          pose proof (Htime Htext') as Htime'.
          pose proof (Hreply eq_refl) as Hreply'.
          pose proof (Hend eq_refl) as Hend'.
          destruct (Turn.user_transcript_final row'); [|congruence].
          destruct (Turn.assistant_text row'); [|congruence].
          destruct (Turn.ended_at row'); [|congruence].
          destruct (Turn.time_to_final_transcript row'); [|congruence].
          reflexivity. }
      destruct (handle_other env m s s1 _ Hstart Hstop H) as [b ->].
      apply Is. exact Hrow'. }
  destruct (Inv k row Hrow) as [Hold|Hc]; [congruence|exact Hc].
Qed.

(** ** Audio windows *)

Lemma chunk_audio_nil (bs : list byte) (k : nat) :
  0 < k -> (chunk_audio bs k = [] <-> bs = []).
Proof.
  intros Hk. split.
  - intros H. apply (f_equal (@length _)) in H.
    rewrite length_chunk_audio in H by exact Hk. simpl in H.
    destruct bs as [|b bs]; [reflexivity|].
    assert (L : length (b :: bs) <= 0 * k)
      by (apply ceil_div_least; [exact Hk|lia]).
    simpl in L. lia.
  - intros ->. reflexivity.
Qed.

(** X18. [chunk_audio] never yields an empty window, and yields no window at
    all exactly when there is no audio; so a [tts_audio_chunk] event
    always carries data, and its base64 text is not empty. *)
Theorem chunks_are_never_empty (bs : list byte) (k : nat) :
  0 < k ->
  (chunk_audio bs k = [] <-> bs = []) /\
  (forall c, In c (chunk_audio bs k) ->
             c <> [] /\ Base64.b64encode c <> ""%string).
Proof.
  intros Hk. split; [exact (chunk_audio_nil bs k Hk)|].
  intros c Hin. apply list_elem_of_In, list_elem_of_lookup in Hin as [i Hi].
  apply lookup_chunk_audio in Hi as [-> Hi].
  assert (L : 0 < length (slice bs (i * k) (i * k + k)))
    by (rewrite length_slice; lia).
  destruct (slice bs (i * k) (i * k + k)) as [|b1 [|b2 [|b3 rest]]];
    [simpl in L; lia|split; discriminate..].
Qed.

(** X19. The time to the first audio is recorded exactly on the turns that
    sent audio: a stop that goes through stores [time_to_first_audio] if
    and only if it sent at least one [tts_audio_chunk], which happens if
    and only if the synthesised audio was not empty. *)
Theorem first_audio_time_needs_audio (env : Env) (s s' : State) :
  process_turn env s = (Ok tt, s') ->
  exists row delta,
    turns (db s') !! turn_key env s = Some row /\
    log s' = log s ++ delta /\
    (Turn.time_to_first_audio row = None <->
     forall audio, ~ In (tts_audio_chunk audio) (sent delta)).
Proof.
  intros H.
  destruct (process_turn_ok env s s' H)
    as (t0 & raw & generated & audio & Hfacts).
  cbv zeta in Hfacts.
  destruct Hfacts as (_ & _ & _ & _ & _ & _ & _ & Hlog & Hdb & _).
  eexists _, _. split; [rewrite Hdb; apply lookup_insert_eq|].
  split; [exact Hlog|].
  rewrite sent_turn_effects. unfold turn_events.
  destruct (chunk_audio audio default_chunk_size) as [|c cs]; simpl; split.
  - intros _ a Ha. destruct Ha as [Ha|[Ha|Ha]]; try discriminate.
    apply in_app_or in Ha as [Ha|Ha].
    + destruct generated as [tokens|]; [|destruct Ha].
      apply in_app_or in Ha as [Ha|Ha].
      * apply in_map_iff in Ha as (x & Hx & _). discriminate.
      * simpl in Ha. intuition discriminate.
    + simpl in Ha. intuition discriminate.
  - reflexivity.
  - discriminate.
  - intros Hno. exfalso. apply (Hno (Base64.b64encode c)).
    right. right. apply in_or_app. right. left. reflexivity.
Qed.

(** ** A blank completion *)

(** X20. A completion that is blank is not taken for silence.  When the
    model answers with white space only, no token is streamed, the one
    [assistant_text] event is the final one with an empty [full_text], and
    the reply of the turn is the empty string, not the fallback message. *)
Theorem blank_completion_gives_empty_reply (env : Env)
    (transcript content : string) (s : State) :
  chat_completion env (ticks s) transcript = Ok content ->
  Str.strip content = ""%string ->
  generate_reply env transcript s
  = (Ok ""%string,
     set_log (log s ++ [Call (Generate transcript);
                        Send (assistant_text "" true (Some ""%string))])
             (set_ticks (S (ticks s)) s)).
Proof.
  intros Hllm Hblank. rewrite generate_reply_run, Hllm. cbv zeta.
  rewrite Hblank. reflexivity.
Qed.

(** ** Two sessions at once *)

Lemma run_steps_interleaved (schedule left right : list step) :
  interleaved left right schedule ->
  forall pieces_a pieces_b buffers,
    left = map ExtendA pieces_a ->
    right = map ExtendB pieces_b ->
    run_steps schedule buffers
    = (fst buffers ++ join_bytes pieces_a, snd buffers ++ join_bytes pieces_b).
Proof.
  unfold run_steps, join_bytes.
  induction 1 as [|x l r m H IH|x l r m H IH];
    intros pieces_a pieces_b [a b] Ha Hb.
  - destruct pieces_a; [|discriminate]. destruct pieces_b; [|discriminate].
    simpl. rewrite !app_nil_r. reflexivity.
  - destruct pieces_a as [|piece rest]; [discriminate|].
    injection Ha as -> ->. simpl.
    rewrite (IH rest pieces_b _ eq_refl Hb). simpl.
    rewrite <- app_assoc. reflexivity.
  - destruct pieces_b as [|piece rest]; [discriminate|].
    injection Hb as -> ->. simpl.
    rewrite (IH pieces_a rest _ Ha eq_refl). simpl.
    rewrite <- app_assoc. reflexivity.
Qed.

(** X21. Two sessions that run at once keep their audio apart.  However the
    event loop interleaves the steps of two coroutines that each extend
    their own buffer, each buffer ends up with its own pieces, in its own
    order, and nothing of the other's. *)
Theorem buffers_stay_apart (pieces_a pieces_b : list (list byte))
    (schedule : list step) (buffers : list byte * list byte) :
  interleaved (map ExtendA pieces_a) (map ExtendB pieces_b) schedule ->
  run_steps schedule buffers
  = (fst buffers ++ join_bytes pieces_a, snd buffers ++ join_bytes pieces_b).
Proof.
  intros H.
  exact (run_steps_interleaved schedule _ _ H pieces_a pieces_b buffers
           eq_refl eq_refl).
Qed.

(** The assertions of the test. *)
Example test_independent_buffers (schedule : list step) :
  interleaved session_a session_b schedule ->
  run_steps schedule ([], [])
  = ([x00; x01; x02; x03; x04], [x0a; x0b; x0c; x0d; x0e]).
Proof.
  intros H.
  exact (run_steps_interleaved schedule _ _ H (byte_pieces 0 5)
           (byte_pieces 10 5) ([], []) eq_refl eq_refl).
Qed.

(** ** Words and replies *)

Lemma no_space_app (a b : string) :
  no_space (a ++ b)%string = no_space a && no_space b.
Proof.
  induction a as [|c a IH]; [reflexivity|].
  rewrite string_app_cons. simpl. rewrite IH. apply andb_assoc.
Qed.

Lemma split_from_words (s : string) :
  forall word,
    no_space word = true ->
    forallb is_word (Str.split_from word s) = true.
Proof.
  induction s as [|c s IH]; intros word Hw; simpl.
  - destruct (Str.truthy word) eqn:T; [|reflexivity].
    simpl. unfold is_word. rewrite T, Hw. reflexivity.
  - destruct (Str.isspace c) eqn:E.
    + destruct (Str.truthy word) eqn:T; [|exact (IH ""%string eq_refl)].
      simpl. unfold is_word at 1. rewrite T, Hw.
      exact (IH ""%string eq_refl).
    + apply IH. rewrite no_space_app, Hw. simpl. rewrite E. reflexivity.
Qed.

Lemma split_from_word (w : string) :
  no_space w = true ->
  forall word rest,
    Str.split_from word (w ++ rest)%string
    = Str.split_from (word ++ w)%string rest.
Proof.
  induction w as [|c w IH]; intros Hw word rest.
  - rewrite string_app_nil_r. reflexivity.
  - simpl in Hw. apply andb_true_iff in Hw as [Hc Hw].
    apply negb_true_iff in Hc.
    rewrite string_app_cons. cbn [Str.split_from]. rewrite Hc.
    rewrite (IH Hw). rewrite string_app_assoc. reflexivity.
Qed.

(** Joining words by one space and splitting again gives the words. *)
Lemma split_join (words : list string) :
  forallb is_word words = true ->
  Str.split (Str.join " " words) = words.
Proof.
  unfold Str.split.
  induction words as [|w ws IH]; [reflexivity|].
  cbn [forallb]. intros [Hw Hws]%andb_true_iff.
  unfold is_word in Hw. apply andb_true_iff in Hw as [Ht Hn].
  destruct ws as [|w' ws'].
  - cbn [Str.join]. rewrite <- (string_app_nil_r w) at 1.
    rewrite (split_from_word w Hn). change ("" ++ w)%string with w.
    cbn [Str.split_from]. rewrite Ht. reflexivity.
  - change (Str.join " " (w :: w' :: ws'))
      with (w ++ String " " (Str.join " " (w' :: ws')))%string.
    rewrite (split_from_word w Hn). cbn [Str.split_from].
    change (Str.isspace " ") with true. cbv iota.
    change ("" ++ w)%string with w. rewrite Ht, (IH Hws). reflexivity.
Qed.

(** X22. Streaming a reply changes its white space and nothing else.  The
    reply put together from the streamed tokens has exactly the words of
    the completion, and streaming that reply once more would give the same
    reply again. *)
Theorem streamed_reply_round_trip (content : string) :
  Str.split (Str.concat (llm_chunks (Str.split (Str.strip content))))
  = Str.split content /\
  Str.concat
    (llm_chunks
       (Str.split
          (Str.strip
             (Str.concat (llm_chunks (Str.split (Str.strip content)))))))
  = Str.concat (llm_chunks (Str.split (Str.strip content))).
Proof.
  assert (H : Str.split
                (Str.concat (llm_chunks (Str.split (Str.strip content))))
              = Str.split content).
  { rewrite concat_llm_chunks, split_strip. apply split_join.
    apply split_from_words. reflexivity. }
  split; [exact H|]. rewrite split_strip, H, split_strip. reflexivity.
Qed.

(** ** A client that keeps to the protocol *)

(** With the services up, a stop goes through whenever the row can be
    inserted. *)
Lemma process_turn_runs (env : Env) (s : State) (t0 : Q) :
  services_up env ->
  turn_start_time s = Some t0 ->
  pending_rollback (db s) = false ->
  turns (db s) !! turn_key env s = None ->
  exists s', process_turn env s = (Ok tt, s').
Proof.
  intros (Hasr & Hllm & Htts) Ht Hp Hn.
  unfold process_turn. unfold bind at 1. rewrite open_turn_run, Ht, Hp, Hn.
  cbn [fst snd]. set (s1 := opened env s t0). unfold bind at 1.
  rewrite (recognise_run env _ _ s1 t0 (turn_key env s));
    [|exact Ht|exact Hp|reflexivity].
  destruct (Hasr (ticks s1) (audio_buffer s)) as [raw ->].
  cbv beta iota zeta. cbn [fst snd].
  set (turn1 := recognised env raw t0 _ s1).
  match goal with |- exists _, bind _ _ ?st = _ => set (s2 := st) end.
  unfold bind at 1. rewrite choose_reply_run.
  assert (Ht2 : turn_start_time s2 = Some t0) by exact Ht.
  assert (Hp2 : pending_rollback (db s2) = false) by exact Hp.
  assert (Hk1 : Turn.id turn1 = Some (turn_key env s)) by reflexivity.
  destruct (silence_rule (heard raw).1 (heard raw).2).
  - unfold bind at 1.
    rewrite (speak_run env _ _ s2 t0 (turn_key env s)) by assumption.
    destruct (Htts (ticks s2) fallback_reply) as [audio ->].
    destruct (chunk_audio audio default_chunk_size) as [|c cs];
      cbv beta iota zeta;
      rewrite (close_turn_run env _ _ _ (turn_key env s))
        by (try reflexivity; assumption);
      eexists; reflexivity.
  - rewrite generate_reply_run.
    destruct (Hllm (ticks s2) (heard raw).1) as [content ->].
    cbv beta iota zeta.
    match goal with |- exists _, bind _ _ ?st = _ => set (s3 := st) end.
    unfold bind at 1.
    rewrite (speak_run env _ _ s3 t0 (turn_key env s));
      [|exact Ht|exact Hp|reflexivity].
    destruct (Htts (ticks s3) (Str.concat
                (llm_chunks (Str.split (Str.strip content)))))
      as [audio ->].
    destruct (chunk_audio audio default_chunk_size) as [|c cs];
      cbv beta iota zeta;
      rewrite (close_turn_run env _ _ _ (turn_key env s))
        by (try reflexivity; assumption);
      eexists; reflexivity.
Qed.

Lemma answers_app (l1 l2 : list event) :
  answers (l1 ++ l2) = answers l1 + answers l2.
Proof. unfold answers. rewrite List.filter_app, length_app. reflexivity. Qed.

Lemma transcribed_app (l1 l2 : list request) :
  transcribed (l1 ++ l2) = transcribed l1 ++ transcribed l2.
Proof. unfold transcribed. apply omap_app. Qed.

Lemma answers_turn_events (transcript : string) (confidence : float)
    (latency_ms : Z) (generated : option (list string))
    (chunks : list (list byte)) :
  answers (turn_events transcript confidence latency_ms generated chunks) = 1.
Proof.
  unfold turn_events.
  change ([stt_partial "..."; stt_final transcript confidence latency_ms]
          ++ ?l) with (stt_partial "..." ::
                       stt_final transcript confidence latency_ms :: l).
  unfold answers. cbn [List.filter]. rewrite !List.filter_app, !length_app.
  assert (Hno : forall (A : Type) (f : A -> event) (l : list A),
            (forall x, match f x with tts_done => true | _ => false end
                       = false) ->
            length (List.filter
                      (fun e => match e with tts_done => true | _ => false end)
                      (map f l)) = 0).
  { intros A f l Hf. induction l as [|x l IH]; [reflexivity|].
    cbn [map List.filter]. rewrite Hf. exact IH. }
  rewrite (Hno _ _ chunks) by reflexivity.
  destruct generated as [tokens|]; simpl; [|reflexivity].
  rewrite List.filter_app, length_app, (Hno _ _ tokens) by reflexivity.
  reflexivity.
Qed.

(** What one utterance does to a waiting call. *)
Lemma served_turn (env : Env) (stored : Database)
    (pieces : list (list byte)) (s : State) :
  services_up env ->
  (forall i j, uuid4 env i = uuid4 env j -> i = j) ->
  (forall j, turns stored !! uuid4 env j = None) ->
  join_bytes pieces <> [] ->
  pending_rollback (db s) = false ->
  (forall k, turns (db s) !! k <> None ->
             turns stored !! k <> None \/
             exists j, j < ticks s /\ k = uuid4 env j) ->
  exists s',
    message_loop env (turn_frames pieces) s = (Awaiting, s') /\
    pending_rollback (db s') = false /\
    (forall k, turns (db s') !! k <> None ->
               turns stored !! k <> None \/
               exists j, j < ticks s' /\ k = uuid4 env j) /\
    answers (sent (log s')) = S (answers (sent (log s))) /\
    transcribed (requests (log s'))
    = transcribed (requests (log s)) ++ [join_bytes pieces].
Proof.
  intros Hup Hinj Hstored Hne Hp Hkeys.
  set (s1 := set_audio_buffer (join_bytes pieces) (started env s)).
  assert (Hfresh : turns (db s1) !! turn_key env s1 = None).
  { change (turns (db s1) !! turn_key env s1)
      with (turns (db s) !! uuid4 env (S (ticks s))).
    destruct (turns (db s) !! uuid4 env (S (ticks s))) eqn:E; [|reflexivity].
    destruct (Hkeys (uuid4 env (S (ticks s)))) as [H|(j & Hj & H)].
    - rewrite E. discriminate.
    - destruct (H (Hstored _)).
    - apply Hinj in H. lia. }
  destruct (process_turn_runs env s1 (time_time env (ticks s)) Hup eq_refl Hp
              Hfresh) as [s' Hturn].
  exists s'.
  assert (Hloop : message_loop env (turn_frames pieces) s = (Awaiting, s')).
  { unfold turn_frames.
    change (Ok (control "start") :: audio_frames pieces ++ [Ok (control "stop")])
      with ((Ok (control "start") :: audio_frames pieces)
            ++ [Ok (control "stop")]).
    rewrite (message_loop_app env _ _ s _
               (loop_start_frames env (control "start") pieces s eq_refl Hp)).
    cbn [message_loop]. unfold bind, lift.
    rewrite handle_stop_turn by (try reflexivity; exact Hne).
    fold s1. rewrite Hturn. reflexivity. }
  split; [exact Hloop|].
  destruct (process_turn_ok env s1 s' Hturn)
    as (t0 & raw & generated & audio & Hfacts).
  cbv zeta in Hfacts.
  destruct Hfacts as (_ & _ & _ & _ & _ & _ & _ & Hlog & Hdb & Hticks & _).
  split; [rewrite Hdb; exact Hp|]. split; [|split].
  - intros k Hk. rewrite Hdb in Hk.
    destruct (decide (k = turn_key env s1)) as [->|Hother].
    + right. exists (S (ticks s)). split; [|reflexivity].
      rewrite Hticks. change (ticks_opened s1) with (2 + ticks s).
      destruct generated; destruct (chunk_audio audio default_chunk_size);
        lia.
    + rewrite lookup_put_turn_other in Hk by congruence.
      destruct (Hkeys k Hk) as [H|(j & Hj & H)]; [left; exact H|].
      right. exists j. split; [|exact H].
      rewrite Hticks. change (ticks_opened s1) with (2 + ticks s).
      destruct generated; destruct (chunk_audio audio default_chunk_size);
        lia.
  - rewrite Hlog, sent_app, sent_turn_effects, answers_app,
      answers_turn_events.
    cbn [log s1 set_audio_buffer started set_log]. rewrite sent_app.
    rewrite answers_app. unfold answers. simpl. lia.
  - rewrite Hlog, requests_app, requests_turn_effects, transcribed_app.
    cbn [log s1 set_audio_buffer started set_log]. rewrite requests_app.
    rewrite transcribed_app. simpl. rewrite app_nil_r.
    destruct generated; reflexivity.
Qed.

Lemma served_loop (env : Env) (stored : Database)
    (utterances : list (list (list byte))) :
  services_up env ->
  (forall i j, uuid4 env i = uuid4 env j -> i = j) ->
  (forall j, turns stored !! uuid4 env j = None) ->
  Forall (fun pieces => join_bytes pieces <> []) utterances ->
  forall s,
    pending_rollback (db s) = false ->
    (forall k, turns (db s) !! k <> None ->
               turns stored !! k <> None \/
               exists j, j < ticks s /\ k = uuid4 env j) ->
    exists s',
      message_loop env (flat_map turn_frames utterances) s = (Awaiting, s') /\
      answers (sent (log s')) = answers (sent (log s)) + length utterances /\
      transcribed (requests (log s'))
      = transcribed (requests (log s)) ++ map join_bytes utterances.
Proof.
  intros Hup Hinj Hstored Hall.
  induction Hall as [|pieces rest Hne Hrest IH]; intros s Hp Hkeys.
  - exists s. split; [reflexivity|]. split; [simpl; lia|].
    simpl. rewrite app_nil_r. reflexivity.
  - destruct (served_turn env stored pieces s Hup Hinj Hstored Hne Hp Hkeys)
      as (s1 & Hloop & Hp1 & Hkeys1 & Hans & Htr).
    destruct (IH s1 Hp1 Hkeys1) as (s' & Hloop' & Hans' & Htr').
    exists s'. cbn [flat_map]. split; [|split].
    + rewrite (message_loop_app env _ _ s s1 Hloop). exact Hloop'.
    + rewrite Hans', Hans. simpl. lia.
    + rewrite Htr', Htr, <- app_assoc. reflexivity.
Qed.

(** X23. A client that keeps to the protocol is served.  When the services
    answer and [uuid4] gives fresh ids, a call made of any number of
    utterances, each a start, some audio and a stop, never fails: the
    handler is left waiting for the next frame, every utterance has been
    transcribed once, in order, as the audio sent between its start and
    its stop, and every one has been answered to the end. *)
Theorem protocol_client_is_served (env : Env) (stored : Database)
    (utterances : list (list (list byte))) :
  services_up env ->
  fresh_ids env stored ->
  Forall (fun pieces => join_bytes pieces <> []) utterances ->
  exists final,
    websocket_call env stored (flat_map turn_frames utterances)
    = (Suspended, final) /\
    transcribed (requests (log final)) = map join_bytes utterances /\
    answers (sent (log final)) = length utterances.
Proof.
  intros Hup (Hinj & Hstored & Hsession) Hall.
  destruct (served_loop env stored utterances Hup Hinj Hstored Hall
              (connected env stored) eq_refl)
    as (final & Hloop & Hans & Htr).
  { intros k Hk. left. exact Hk. }
  exists final. split; [|split].
  - unfold websocket_call. rewrite accept_call_ok by exact Hsession.
    rewrite Hloop. reflexivity.
  - exact Htr.
  - exact Hans.
Qed.

(** ** The further properties on the sample calls *)

(** One turn of the sample call, from the start to the stop. *)
Lemma turn_transcribes_frames_since_start_witness :
  has_type (control "start") "start" = true /\
  has_type (control "stop") "stop" = true /\
  pending_rollback (db Demo.accepted) = false /\
  join_bytes [[x01; x02]] <> [] /\
  message_loop Demo.env_heard
    (Ok (control "start") :: audio_frames [[x01; x02]] ++ [Ok (control "stop")])
    Demo.accepted
  = (Awaiting, Demo.after_turn Demo.env_heard) /\
  exists later,
    requests (log (Demo.after_turn Demo.env_heard))
    = requests (log Demo.accepted) ++
      Transcribe (join_bytes [[x01; x02]]) :: later /\
    (forall audio, In (Transcribe audio) later -> False) /\
    audio_buffer (Demo.after_turn Demo.env_heard) = [].
Proof.
  assert (H1 : has_type (control "start") "start" = true) by reflexivity.
  assert (H2 : has_type (control "stop") "stop" = true) by reflexivity.
  assert (H3 : pending_rollback (db Demo.accepted) = false) by reflexivity.
  assert (H4 : join_bytes [[x01; x02]] <> []) by (vm_compute; discriminate).
  assert (H5 : message_loop Demo.env_heard
                 (Ok (control "start") ::
                  audio_frames [[x01; x02]] ++ [Ok (control "stop")])
                 Demo.accepted
               = (Awaiting, Demo.after_turn Demo.env_heard))
    by (vm_compute; reflexivity).
  split; [exact H1|]. split; [exact H2|]. split; [exact H3|].
  split; [exact H4|]. split; [exact H5|].
  exact (turn_transcribes_frames_since_start Demo.env_heard _ _ _ _ _
           H1 H2 H3 H4 H5).
Defined.


(** The client ends the call as soon as it is accepted. *)
Lemma end_call_ends_call_witness :
  websocket_call Demo.env_heard Demo.no_rows [] = (Suspended, Demo.accepted) /\
  has_type (control "end_call") "end_call" = true /\
  websocket_call Demo.env_heard Demo.no_rows
    ([] ++ Ok (control "end_call") :: [Demo.start])
  = (Returned, ended Demo.env_heard Demo.accepted) /\
  sent (log (ended Demo.env_heard Demo.accepted)) = sent (log Demo.accepted) /\
  call_sessions (db (ended Demo.env_heard Demo.accepted))
  !! CallSession.id (session Demo.accepted)
  = Some (CallSession.mk (CallSession.id (session Demo.accepted))
                         (CallSession.created_at (session Demo.accepted))
                         (Some (time_time Demo.env_heard
                                          (ticks Demo.accepted)))
                         "ended").
Proof.
  assert (H1 : websocket_call Demo.env_heard Demo.no_rows []
               = (Suspended, Demo.accepted)) by (vm_compute; reflexivity).
  assert (H2 : has_type (control "end_call") "end_call" = true)
    by reflexivity.
  split; [exact H1|]. split; [exact H2|].
  exact (end_call_ends_call Demo.env_heard Demo.no_rows [] [Demo.start]
           (control "end_call") Demo.accepted H1 H2).
Defined.

(** The client goes away as soon as the call is accepted. *)
Lemma receive_error_ends_call_witness :
  websocket_call Demo.env_heard Demo.no_rows [] = (Suspended, Demo.accepted) /\
  websocket_call Demo.env_heard Demo.no_rows
    ([] ++ Raise WebSocketDisconnect :: [])
  = (if exn_is_disconnect WebSocketDisconnect
     then (Returned, ended Demo.env_heard (disconnected Demo.accepted))
     else (Failed WebSocketDisconnect, ended Demo.env_heard Demo.accepted)) /\
  sent (log (ended Demo.env_heard (disconnected Demo.accepted)))
  = sent (log Demo.accepted) /\
  sent (log (ended Demo.env_heard Demo.accepted)) = sent (log Demo.accepted).
Proof.
  assert (H1 : websocket_call Demo.env_heard Demo.no_rows []
               = (Suspended, Demo.accepted)) by (vm_compute; reflexivity).
  split; [exact H1|].
  exact (receive_error_ends_call Demo.env_heard Demo.no_rows [] []
           WebSocketDisconnect Demo.accepted H1).
Defined.

(** A control frame of an unknown type, a frame with nothing in it, and an
    empty audio frame with a JSON text that has no type. *)
Lemma unknown_frames_ignored_witness :
  forallb ignored [control "ping"; mkMessage None None;
                   mkMessage (Some []) (Some (Ok None))] = true /\
  message_loop Demo.env_heard
    (map Ok [control "ping"; mkMessage None None;
             mkMessage (Some []) (Some (Ok None))])
    Demo.recording
  = (Awaiting, Demo.recording).
Proof.
  assert (H : forallb ignored [control "ping"; mkMessage None None;
                               mkMessage (Some []) (Some (Ok None))] = true)
    by reflexivity.
  split; [exact H|].
  exact (unknown_frames_ignored Demo.env_heard _ Demo.recording H).
Defined.

(** A text frame that is not JSON, as soon as the call is accepted. *)
Lemma undecodable_frame_ends_call_witness :
  websocket_call Demo.env_heard Demo.no_rows [] = (Suspended, Demo.accepted) /\
  falsy_bytes Sample.garbled = true /\
  m_text Sample.garbled = Some (Raise (Exception "JSONDecodeError")) /\
  exn_is_disconnect (Exception "JSONDecodeError") = false /\
  websocket_call Demo.env_heard Demo.no_rows
    ([] ++ Ok Sample.garbled :: [Demo.start])
  = (Failed (Exception "JSONDecodeError"),
     ended Demo.env_heard Demo.accepted) /\
  sent (log (ended Demo.env_heard Demo.accepted)) = sent (log Demo.accepted).
Proof.
  assert (H1 : websocket_call Demo.env_heard Demo.no_rows []
               = (Suspended, Demo.accepted)) by (vm_compute; reflexivity).
  assert (H2 : falsy_bytes Sample.garbled = true) by reflexivity.
  assert (H3 : m_text Sample.garbled
               = Some (Raise (Exception "JSONDecodeError"))) by reflexivity.
  assert (H4 : exn_is_disconnect (Exception "JSONDecodeError") = false)
    by reflexivity.
  split; [exact H1|]. split; [exact H2|]. split; [exact H3|].
  split; [exact H4|].
  exact (undecodable_frame_ends_call Demo.env_heard Demo.no_rows []
           [Demo.start] Sample.garbled _ Demo.accepted H1 H2 H3 H4).
Defined.

(** The stop of [one_turn], and a second stop after it. *)
Lemma stop_consumes_audio_witness :
  has_type (control "stop") "stop" = true /\
  handle Demo.env_heard (control "stop") Demo.recording
  = (Ok Continue, Demo.after_turn Demo.env_heard) /\
  audio_buffer (Demo.after_turn Demo.env_heard) = [] /\
  handle Demo.env_heard (control "stop") (Demo.after_turn Demo.env_heard)
  = (Ok Continue,
     set_log (log (Demo.after_turn Demo.env_heard) ++
              [Send (error "No audio received")])
             (Demo.after_turn Demo.env_heard)).
Proof.
  assert (H1 : has_type (control "stop") "stop" = true) by reflexivity.
  assert (H2 : handle Demo.env_heard (control "stop") Demo.recording
               = (Ok Continue, Demo.after_turn Demo.env_heard))
    by (vm_compute; reflexivity).
  split; [exact H1|]. split; [exact H2|].
  exact (stop_consumes_audio Demo.env_heard (control "stop") Demo.recording
           _ H1 H2).
Defined.

(** More audio and a second stop after the turn of [one_turn]. *)
Lemma stop_without_new_start_fails_witness :
  has_type (control "stop") "stop" = true /\
  current_turn_id Demo.recording = Some "iii#"%string /\
  audio_buffer Demo.recording <> [] /\
  handle Demo.env_heard (control "stop") Demo.recording
  = (Ok Continue, Demo.after_turn Demo.env_heard) /\
  join_bytes [[x03]] <> [] /\
  exists s2,
    message_loop Demo.env_heard
      (audio_frames [[x03]] ++ [Ok (control "stop")])
      (Demo.after_turn Demo.env_heard)
    = (Raised IntegrityError, s2) /\
    log s2 = log (Demo.after_turn Demo.env_heard) /\
    turns (db s2) = turns (db (Demo.after_turn Demo.env_heard)) /\
    ticks s2 = ticks (Demo.after_turn Demo.env_heard).
Proof.
  assert (H1 : has_type (control "stop") "stop" = true) by reflexivity.
  assert (H2 : current_turn_id Demo.recording = Some "iii#"%string)
    by reflexivity.
  assert (H3 : audio_buffer Demo.recording <> [])
    by (vm_compute; discriminate).
  assert (H4 : handle Demo.env_heard (control "stop") Demo.recording
               = (Ok Continue, Demo.after_turn Demo.env_heard))
    by (vm_compute; reflexivity).
  assert (H5 : join_bytes [[x03]] <> []) by (vm_compute; discriminate).
  split; [exact H1|]. split; [exact H2|]. split; [exact H3|].
  split; [exact H4|]. split; [exact H5|].
  exact (stop_without_new_start_fails Demo.env_heard (control "stop")
           [[x03]] Demo.recording _ "iii#" H1 H2 H3 H4 H5).
Defined.

(** The same frames, seen from the handler. *)
Lemma failed_commit_fails_cleanup_witness :
  websocket_call Demo.env_heard Demo.no_rows [Demo.start; Demo.audio]
  = (Suspended, Demo.recording) /\
  has_type (control "stop") "stop" = true /\
  current_turn_id Demo.recording = Some "iii#"%string /\
  audio_buffer Demo.recording <> [] /\
  handle Demo.env_heard (control "stop") Demo.recording
  = (Ok Continue, Demo.after_turn Demo.env_heard) /\
  join_bytes [[x03]] <> [] /\
  exists final,
    websocket_call Demo.env_heard Demo.no_rows
      ([Demo.start; Demo.audio] ++
       Ok (control "stop") :: audio_frames [[x03]] ++
       Ok (control "stop") :: [])
    = (Failed PendingRollbackError, final) /\
    log final = log (Demo.after_turn Demo.env_heard) /\
    call_sessions (db final) = call_sessions (db Demo.recording) /\
    turns (db final) = turns (db (Demo.after_turn Demo.env_heard)).
Proof.
  assert (H0 : websocket_call Demo.env_heard Demo.no_rows
                 [Demo.start; Demo.audio]
               = (Suspended, Demo.recording)) by (vm_compute; reflexivity).
  assert (H1 : has_type (control "stop") "stop" = true) by reflexivity.
  assert (H2 : current_turn_id Demo.recording = Some "iii#"%string)
    by reflexivity.
  assert (H3 : audio_buffer Demo.recording <> [])
    by (vm_compute; discriminate).
  assert (H4 : handle Demo.env_heard (control "stop") Demo.recording
               = (Ok Continue, Demo.after_turn Demo.env_heard))
    by (vm_compute; reflexivity).
  assert (H5 : join_bytes [[x03]] <> []) by (vm_compute; discriminate).
  split; [exact H0|]. split; [exact H1|]. split; [exact H2|].
  split; [exact H3|]. split; [exact H4|]. split; [exact H5|].
  exact (failed_commit_fails_cleanup Demo.env_heard Demo.no_rows
           [Demo.start; Demo.audio] [] (control "stop") [[x03]]
           Demo.recording _ "iii#" H0 H1 H2 H3 H4 H5).
Defined.

(** The sample call after a start and some audio. *)
Lemma session_lifecycle_witness :
  call_sessions Demo.no_rows !! uuid4 Demo.env_heard 0 = None /\
  websocket_call Demo.env_heard Demo.no_rows [Demo.start; Demo.audio]
  = (Suspended, Demo.recording) /\
  CallSession.id (session Demo.recording) = uuid4 Demo.env_heard 0 /\
  CallSession.created_at (session Demo.recording)
  = Some (time_time Demo.env_heard 1) /\
  CallSession.status (session Demo.recording)
  = (if existsb starts [Demo.start; Demo.audio]
     then "active" else "connected")%string /\
  CallSession.ended_at (session Demo.recording) = None /\
  call_sessions (db Demo.recording) !! uuid4 Demo.env_heard 0
  = Some (session Demo.recording).
Proof.
  assert (H1 : call_sessions Demo.no_rows !! uuid4 Demo.env_heard 0 = None)
    by (vm_compute; reflexivity).
  assert (H2 : websocket_call Demo.env_heard Demo.no_rows
                 [Demo.start; Demo.audio]
               = (Suspended, Demo.recording)) by (vm_compute; reflexivity).
  split; [exact H1|]. split; [exact H2|].
  exact (session_lifecycle Demo.env_heard Demo.no_rows
           [Demo.start; Demo.audio] Suspended Demo.recording H1 H2).
Defined.

(** The row and the events of the turn of [one_turn]. *)
Lemma turn_row_matches_events_witness :
  has_type (control "start") "start" = true /\
  has_type (control "stop") "stop" = true /\
  pending_rollback (db Demo.accepted) = false /\
  join_bytes [[x01; x02]] <> [] /\
  message_loop Demo.env_heard
    (Ok (control "start") :: audio_frames [[x01; x02]] ++ [Ok (control "stop")])
    Demo.accepted
  = (Awaiting, Demo.after_turn Demo.env_heard) /\
  exists row transcript confidence time_to_final,
    turns (db (Demo.after_turn Demo.env_heard))
    !! uuid4 Demo.env_heard (S (ticks Demo.accepted)) = Some row /\
    Turn.user_transcript_final row = Some transcript /\
    Turn.time_to_final_transcript row = Some time_to_final /\
    In (stt_final transcript confidence
                  (py_round (Binary64.round (time_to_final * 1000))))
       (sent (log (Demo.after_turn Demo.env_heard))).
Proof.
  assert (H1 : has_type (control "start") "start" = true) by reflexivity.
  assert (H2 : has_type (control "stop") "stop" = true) by reflexivity.
  assert (H3 : pending_rollback (db Demo.accepted) = false) by reflexivity.
  assert (H4 : join_bytes [[x01; x02]] <> []) by (vm_compute; discriminate).
  assert (H5 : message_loop Demo.env_heard
                 (Ok (control "start") ::
                  audio_frames [[x01; x02]] ++ [Ok (control "stop")])
                 Demo.accepted
               = (Awaiting, Demo.after_turn Demo.env_heard))
    by (vm_compute; reflexivity).
  split; [exact H1|]. split; [exact H2|]. split; [exact H3|].
  split; [exact H4|]. split; [exact H5|].
  destruct (turn_row_matches_events Demo.env_heard _ _ _ _ _
              H1 H2 H3 H4 H5)
    as [(row & transcript & confidence & time_to_final & reply &
         _ & Hrow & _ & _ & _ & Htext & Htime & _ & Hsent & _) _].
  exists row, transcript, confidence, time_to_final.
  split; [exact Hrow|]. split; [exact Htext|]. split; [exact Htime|].
  exact Hsent.
Defined.

(** The recogniser hears "hello world". *)
Lemma confidence_never_decides_witness :
  transcribe_audio Demo.env_heard [x01; x02] Demo.recording
  = (Ok ("hello world"%string, 0.9%float),
     asked (Transcribe [x01; x02]) 1 Demo.recording) /\
  0.9%float = (if Str.truthy "hello world" then 0.9 else 0)%float /\
  silence_rule "hello world" 0.9 = negb (Str.truthy "hello world") /\
  (silence_rule "hello world" 0.9 = true <-> "hello world"%string = ""%string).
Proof.
  assert (H : transcribe_audio Demo.env_heard [x01; x02] Demo.recording
              = (Ok ("hello world"%string, 0.9%float),
                 asked (Transcribe [x01; x02]) 1 Demo.recording))
    by (vm_compute; reflexivity).
  split; [exact H|].
  exact (confidence_never_decides Demo.env_heard [x01; x02] Demo.recording
           _ "hello world" 0.9%float H).
Defined.

(** The stop of [one_turn] when the recogniser is down. *)
Lemma failed_turn_left_unfinished_witness :
  process_turn Demo.env_stt_down Demo.recording
  = (Raise (Exception "stt unavailable"),
     Demo.after_turn Demo.env_stt_down) /\
  turns (db (Demo.after_turn Demo.env_stt_down)) !! "iii#"%string
  = Some Sample.abandoned_row /\
  turns (db Demo.recording) !! "iii#"%string = None /\
  "iii#"%string = turn_key Demo.env_stt_down Demo.recording /\
  Turn.session_id Sample.abandoned_row = session_id Demo.recording /\
  Turn.assistant_text Sample.abandoned_row = None /\
  Turn.ended_at Sample.abandoned_row = None /\
  complete Sample.abandoned_row = false.
Proof.
  assert (H1 : process_turn Demo.env_stt_down Demo.recording
               = (Raise (Exception "stt unavailable"),
                  Demo.after_turn Demo.env_stt_down))
    by (vm_compute; reflexivity).
  assert (H2 : turns (db (Demo.after_turn Demo.env_stt_down)) !! "iii#"%string
               = Some Sample.abandoned_row) by (vm_compute; reflexivity).
  assert (H3 : turns (db Demo.recording) !! "iii#"%string = None)
    by (vm_compute; reflexivity).
  split; [exact H1|]. split; [exact H2|]. split; [exact H3|].
  exact (failed_turn_left_unfinished Demo.env_stt_down Demo.recording _ _
           "iii#" Sample.abandoned_row H1 H2 H3).
Defined.

(** The call [one_turn], waiting for its next frame. *)
Lemma waiting_call_has_complete_turns_witness :
  websocket_call Demo.env_heard Demo.no_rows Demo.one_turn
  = (Suspended, Demo.after_turn Demo.env_heard) /\
  turns (db (Demo.after_turn Demo.env_heard)) !! "iii#"%string
  = Some Demo.heard_row /\
  turns Demo.no_rows !! "iii#"%string = None /\
  complete Demo.heard_row = true.
Proof.
  assert (H1 : websocket_call Demo.env_heard Demo.no_rows Demo.one_turn
               = (Suspended, Demo.after_turn Demo.env_heard))
    by (vm_compute; reflexivity).
  assert (H2 : turns (db (Demo.after_turn Demo.env_heard)) !! "iii#"%string
               = Some Demo.heard_row) by (vm_compute; reflexivity).
  assert (H3 : turns Demo.no_rows !! "iii#"%string = None)
    by (vm_compute; reflexivity).
  split; [exact H1|]. split; [exact H2|]. split; [exact H3|].
  exact (waiting_call_has_complete_turns Demo.env_heard Demo.no_rows
           Demo.one_turn _ "iii#" Demo.heard_row H1 H2 H3).
Defined.

(** Four bytes in windows of three. *)
Lemma chunks_are_never_empty_witness :
  0 < 3 /\
  (chunk_audio [x49; x44; x33; x04] 3 = [] <-> [x49; x44; x33; x04] = []) /\
  (forall c, In c (chunk_audio [x49; x44; x33; x04] 3) ->
             c <> [] /\ Base64.b64encode c <> ""%string).
Proof.
  assert (H : 0 < 3) by lia.
  split; [exact H|].
  exact (chunks_are_never_empty [x49; x44; x33; x04] 3 H).
Defined.

(** The turn of [one_turn] sends audio and records when. *)
Lemma first_audio_time_needs_audio_witness :
  process_turn Demo.env_heard Demo.recording
  = (Ok tt, Demo.after_turn Demo.env_heard) /\
  exists row delta,
    turns (db (Demo.after_turn Demo.env_heard))
    !! turn_key Demo.env_heard Demo.recording = Some row /\
    log (Demo.after_turn Demo.env_heard) = log Demo.recording ++ delta /\
    (Turn.time_to_first_audio row = None <->
     forall audio, ~ In (tts_audio_chunk audio) (sent delta)).
Proof.
  assert (H : process_turn Demo.env_heard Demo.recording
              = (Ok tt, Demo.after_turn Demo.env_heard))
    by (vm_compute; reflexivity).
  split; [exact H|].
  exact (first_audio_time_needs_audio Demo.env_heard Demo.recording _ H).
Defined.

(** The model answers "hi" with two spaces. *)
Lemma blank_completion_gives_empty_reply_witness :
  chat_completion Sample.env_blank (ticks Demo.recording) "hi"
  = Ok "  "%string /\
  Str.strip "  " = ""%string /\
  generate_reply Sample.env_blank "hi" Demo.recording
  = (Ok ""%string,
     set_log (log Demo.recording ++
              [Call (Generate "hi");
               Send (assistant_text "" true (Some ""%string))])
             (set_ticks (S (ticks Demo.recording)) Demo.recording)).
Proof.
  assert (H1 : chat_completion Sample.env_blank (ticks Demo.recording) "hi"
               = Ok "  "%string) by reflexivity.
  assert (H2 : Str.strip "  " = ""%string) by reflexivity.
  split; [exact H1|]. split; [exact H2|].
  exact (blank_completion_gives_empty_reply Sample.env_blank "hi" "  "
           Demo.recording H1 H2).
Defined.

(** The second coroutine runs first. *)
Lemma buffers_stay_apart_witness :
  interleaved (map ExtendA [[x00]]) (map ExtendB [[x0a]])
    [ExtendB [x0a]; ExtendA [x00]] /\
  run_steps [ExtendB [x0a]; ExtendA [x00]] (@nil byte, @nil byte)
  = (fst (@nil byte, @nil byte) ++ join_bytes [[x00]],
     snd (@nil byte, @nil byte) ++ join_bytes [[x0a]]).
Proof.
  assert (H : interleaved (map ExtendA [[x00]]) (map ExtendB [[x0a]])
                [ExtendB [x0a]; ExtendA [x00]])
    by (simpl; apply interleaved_right, interleaved_left, interleaved_nil).
  split; [exact H|].
  exact (buffers_stay_apart [[x00]] [[x0a]] _ (@nil byte, @nil byte) H).
Defined.

Lemma tally_injective (i j : nat) : Demo.tally i = Demo.tally j -> i = j.
Proof.
  revert j. induction i as [|i IH]; intros [|j]; simpl; try discriminate.
  - reflexivity.
  - intros [= H]. f_equal. exact (IH j H).
Qed.

(** The sample call [one_turn] in the sample world. *)
Lemma protocol_client_is_served_witness :
  services_up Demo.env_heard /\
  fresh_ids Demo.env_heard Demo.no_rows /\
  Forall (fun pieces => join_bytes pieces <> []) [[[x01; x02]]] /\
  exists final,
    websocket_call Demo.env_heard Demo.no_rows
      (flat_map turn_frames [[[x01; x02]]])
    = (Suspended, final) /\
    transcribed (requests (log final)) = map join_bytes [[[x01; x02]]] /\
    answers (sent (log final)) = length [[[x01; x02]]].
Proof.
  assert (H1 : services_up Demo.env_heard)
    by (repeat split; intros; eexists; reflexivity).
  assert (H2 : fresh_ids Demo.env_heard Demo.no_rows).
  { split; [exact tally_injective|]. split; [|reflexivity].
    intros j. apply lookup_empty. }
  assert (H3 : Forall (fun pieces => join_bytes pieces <> []) [[[x01; x02]]])
    by (repeat constructor; discriminate).
  split; [exact H1|]. split; [exact H2|]. split; [exact H3|].
  exact (protocol_client_is_served Demo.env_heard Demo.no_rows
           [[[x01; x02]]] H1 H2 H3).
Defined.
